(** * getparty: a shallow embedding of the download engine

    The development follows the Go sources of the repository:

    - [getparty.go]: [Cmd.Exit], [Cmd.Run], [Cmd.follow], [Cmd.bestMirror],
      [isRedirect], [readLines];
    - the part worker file: [Part.isDone], [Part.getRange], [Part.download]
      and the retry callback it hands to [backoff.Retry].

    Go integers are modelled as [Z] with their wrap-around written out,
    errors as an inductive type that keeps the dynamic type [Exit] switches
    on, files as byte lists in a finite map keyed by name, and everything
    the program learns from outside (the parsed command line, the HTTP
    server, timers, the scheduler) as explicit scripts the functions are
    run against. *)

From stdpp Require Import gmap strings list pretty.
From Stdlib Require Import ZArith Lia Strings.Byte Strings.Ascii.

Open Scope Z_scope.

(** ** Machine integers *)

Module Int.

(** Go's [int], [int64] and [time.Duration] on a 64-bit platform. *)
Definition wrap64 (z : Z) : Z := (z + 2 ^ 63) mod 2 ^ 64 - 2 ^ 63.

(** Go's [uint] and [uint64]. *)
Definition uwrap64 (z : Z) : Z := z mod 2 ^ 64.

Definition add64 (a b : Z) : Z := wrap64 (a + b).
Definition sub64 (a b : Z) : Z := wrap64 (a - b).
Definition mul64 (a b : Z) : Z := wrap64 (a * b).
Definition umul64 (a b : Z) : Z := uwrap64 (a * b).

(** [a << n] on [uint]: a shift count of 64 or more gives 0. *)
Definition ushl64 (a n : Z) : Z :=
  if n <? 64 then uwrap64 (Z.shiftl a n) else 0.

Definition in_int64 (z : Z) : Prop := - 2 ^ 63 <= z < 2 ^ 63.
Definition in_uint64 (z : Z) : Prop := 0 <= z < 2 ^ 64.

End Int.

(** ** Errors

    The program tells errors apart by dynamic type ([Exit]'s type switch
    after [errors.Cause]) and by identity ([err == ErrGiveUp],
    [err == io.EOF]); the constructors keep both. *)

Module Errors.

(** [flags.ErrorType] of go-flags; [Exit] only tests for [ErrHelp]. *)
Inductive ErrorType :=
| ErrUnknown | ErrExpectedArgument | ErrUnknownFlag | ErrUnknownGroup
| ErrMarshal | ErrHelp | ErrNoArgumentForBool | ErrRequired
| ErrShortNameTooLong | ErrDuplicatedFlag | ErrTag | ErrCommandRequired
| ErrUnknownCommand | ErrInvalidChoice | ErrInvalidTag.

(** An argument of a format string. *)
Inductive Arg := AStr (s : string) | AInt (z : Z).

Inductive error :=
| FlagsError (ty : ErrorType) (msg : string)  (* *flags.Error *)
| ExpectedError (Err : error)                 (* getparty.ExpectedError *)
| Errorf (format : string) (args : list Arg)  (* errors.Errorf: *fundamental *)
| WithMessage (err : error) (msg : string)    (* errors.WithMessage: *withMessage *)
| ErrGiveUp                                   (* errors.New("give up!") *)
| ErrNilBody                                  (* errors.New("nil body") *)
| Canceled                                    (* context.Canceled *)
| DeadlineExceeded                            (* context.DeadlineExceeded *)
| EOF                                         (* io.EOF *)
| UrlError (temporary : bool) (msg : string)  (* *url.Error *)
| OtherError (msg : string).                  (* os, net, json, bufio ... *)

(** [errors.WithMessage(err, msg)] is nil for a nil [err]. *)
Definition withMessage (err : option error) (msg : string) : option error :=
  match err with
  | None => None
  | Some e => Some (WithMessage e msg)
  end.

(** [errors.Cause]: unwrap while the error has a [Cause()] method; of the
    errors above only [*withMessage] has one. *)
Fixpoint Cause (err : error) : error :=
  match err with
  | WithMessage e _ => Cause e
  | _ => err
  end.

Definition isGiveUp (err : option error) : bool :=
  match err with Some ErrGiveUp => true | _ => false end.

Definition isEOF (err : option error) : bool :=
  match err with Some EOF => true | _ => false end.

Definition isNil (err : option error) : bool :=
  match err with None => true | Some _ => false end.

End Errors.

Export Errors.

(** ** What the program reads from outside *)

Module Http.

(** One turn of the streaming loop of the part worker, as the worker
    observes it: either [timer.Reset] reports that the per-attempt timer
    already fired, or [io.CopyN(buf, body, max)] delivers [data] and
    [rerr].  [wlimit] is how the following [io.Copy(fpart, buf)] goes:
    [None] when the segment file takes the whole buffer, [Some k] when the
    write stops after [k] bytes (the error of that copy is dropped by the
    code, the unwritten bytes stay in the buffer). *)
Inductive ReadStep :=
| TimerFired
| CopyN (data : list byte) (rerr : option error) (wlimit : option nat).

(** The fields of [*http.Response] the program looks at. *)
Record Response := {
  StatusCode : Z;
  Status : string;
  ContentLength : Z;
  HeaderGet : string -> string;     (* resp.Header.Get *)
  RespLocation : error + string;    (* resp.Location() *)
  Body : option (list ReadStep);    (* None: a nil body *)
  BodyClose : option error          (* resp.Body.Close() *)
}.

Definition StatusOK : Z := 200.
Definition StatusPartialContent : Z := 206.
Definition StatusForbidden : Z := 403.
Definition StatusTooManyRequests : Z := 429.

End Http.

(** ** The part worker *)

Definition bufSize : Z := Z.shiftl 1 12.

Definition Second : Z := 1000000000.
Definition Minute : Z := 60 * Second.

(** [Part]: the exported fields are the persisted ones; [jar], [transport]
    and [dlogger] are handles shared with the orchestrator and carry no
    state of the part. *)
Record Part := {
  FileName : string;
  Start : Z;
  Stop : Z;
  Written : Z;
  Skip : bool;
  Elapsed : Z;
  name : string;
  order : Z;
  maxTry : Z;
  curTry : Z;
  quiet : bool
}.

Definition setStop (p : Part) (v : Z) : Part :=
  {| FileName := FileName p; Start := Start p; Stop := v; Written := Written p;
     Skip := Skip p; Elapsed := Elapsed p; name := name p; order := order p;
     maxTry := maxTry p; curTry := curTry p; quiet := quiet p |}.

Definition setWritten (p : Part) (v : Z) : Part :=
  {| FileName := FileName p; Start := Start p; Stop := Stop p; Written := v;
     Skip := Skip p; Elapsed := Elapsed p; name := name p; order := order p;
     maxTry := maxTry p; curTry := curTry p; quiet := quiet p |}.

Definition setSkip (p : Part) (v : bool) : Part :=
  {| FileName := FileName p; Start := Start p; Stop := Stop p; Written := Written p;
     Skip := v; Elapsed := Elapsed p; name := name p; order := order p;
     maxTry := maxTry p; curTry := curTry p; quiet := quiet p |}.

Definition setElapsed (p : Part) (v : Z) : Part :=
  {| FileName := FileName p; Start := Start p; Stop := Stop p; Written := Written p;
     Skip := Skip p; Elapsed := v; name := name p; order := order p;
     maxTry := maxTry p; curTry := curTry p; quiet := quiet p |}.

Definition setCurTry (p : Part) (v : Z) : Part :=
  {| FileName := FileName p; Start := Start p; Stop := Stop p; Written := Written p;
     Skip := Skip p; Elapsed := Elapsed p; name := name p; order := order p;
     maxTry := maxTry p; curTry := v; quiet := quiet p |}.

(** [func (p Part) isDone() bool] *)
Definition isDone (p : Part) : bool :=
  Skip p || (Int.sub64 (Stop p) (Start p) <? Written p).

(** [func (p Part) getRange() string] *)
Definition getRange (p : Part) : string :=
  if Stop p <=? 0 then "bytes=0-"
  else "bytes=" +:+ pretty (Int.add64 (Start p) (Written p)) +:+ "-" +:+ pretty (Stop p).

(** The per-attempt deadline of the retry callback, in nanoseconds:
    [timeout] is the [uint] option, [count] the [int] the retry loop passes. *)
Definition ctxTimeout (timeout count : Z) : Z :=
  let d := Int.mul64 (Int.wrap64 timeout) Second in
  if 0 <? count then
    let d :=
      Int.mul64
        (Int.wrap64
           (Int.umul64 (Int.ushl64 1 (Int.uwrap64 (Int.sub64 count 1))) timeout))
        Second in
    let bound := 10 * Minute in
    if bound <? d then bound else d
  else d.

(** What a worker does that others can see, oldest first. *)
Inductive BarOp :=
| BarAbort (drop : bool)
| SetTotal (total : Z) (complete : bool)
| SetRefill (n : Z)
| IncrInt64 (n : Z)
| DecoratorAverageAdjust.

Inductive Event :=
| EvRequest (range : string) (deadline : Z)  (* client.Do, its Range header and timer *)
| EvFlash (msg : string) (final : bool)      (* mg.flash *)
| EvBar (op : BarOp)
| EvWrite (data : list byte).                (* bytes the segment file took *)

Definition isRequest (e : Event) : bool :=
  match e with EvRequest _ _ => true | _ => false end.

Definition writtenBytes (e : Event) : list byte :=
  match e with EvWrite data => data | _ => [] end.

(** The HTTP requests of a trace and the bytes it appended. *)
Definition requests (tr : list Event) : nat := length (List.filter isRequest tr).
Definition appended (tr : list Event) : list byte := concat (map writtenBytes tr).

(** [io.Copy(fpart, buf)]: the file is open with [O_APPEND], so the bytes
    go to its end; the buffer keeps what was not written.  The result is
    the bytes written (their number is the [n] of the code), the file and
    the buffer afterwards. *)
Definition fileCopy (wlimit : option nat) (file buf : list byte)
  : list byte * list byte * list byte :=
  let k := match wlimit with
           | None => length buf
           | Some k => Nat.min k (length buf)
           end in
  (take k buf, file ++ take k buf, drop k buf).

(** The state of the streaming loop: the part, the segment file, the
    staging buffer, [max], the callback's [err] and the trace. *)
Record Stream := {
  sPart : Part;
  sFile : list byte;
  sBuf : list byte;
  sMax : Z;
  sErr : option error;
  sTrace : list Event
}.

(** [for timer.Reset(ctxTimeout) { ... }] of the retry callback.  A script
    that ends stands for a timer that fired. *)
Fixpoint stream (total : Z) (script : list Http.ReadStep) (s : Stream) : Stream :=
  match script with
  | [] | Http.TimerFired :: _ =>
      {| sPart := sPart s; sFile := sFile s; sBuf := sBuf s; sMax := sMax s;
         sErr := sErr s; sTrace := sTrace s ++ [EvFlash "Timeout..." false] |}
  | Http.CopyN data rerr wlimit :: rest =>
      let n := Z.of_nat (length data) in
      let buf := sBuf s ++ data in
      match rerr with
      | Some (UrlError temporary msg) =>
          let tr := sTrace s ++ [EvFlash (String.substring 0 30 msg +:+ "..") false] in
          if temporary then
            stream total rest
              {| sPart := sPart s; sFile := sFile s; sBuf := buf;
                 sMax := Int.sub64 (sMax s) n;
                 sErr := rerr; sTrace := tr |}
          else
            {| sPart := sPart s; sFile := sFile s; sBuf := buf; sMax := sMax s;
               sErr := rerr; sTrace := tr |}
      | Some _ =>
          {| sPart := sPart s; sFile := sFile s; sBuf := buf; sMax := sMax s;
             sErr := rerr; sTrace := sTrace s |}
      | None =>
          let '(wrote, file, buf') := fileCopy wlimit (sFile s) buf in
          let p := setWritten (sPart s)
                     (Int.add64 (Written (sPart s)) (Z.of_nat (length wrote))) in
          let bar :=
            if (total <=? 0) && negb (quiet p)
            then [EvBar (SetTotal (Int.add64 (Written p) (Int.mul64 (sMax s) 2)) false)]
            else [] in
          stream total rest
            {| sPart := p; sFile := file; sBuf := buf'; sMax := bufSize;
               sErr := None;
               sTrace := sTrace s ++ [EvWrite wrote] ++ bar |}
      end
  end.

(** What one call of the retry callback meets. *)
Record Attempt := {
  doResult : error + Http.Response;  (* client.Do(req.WithContext(ctx)) *)
  lastWrite : option nat;            (* the io.Copy after the loop *)
  since : Z                          (* time.Since(now) when the call returns *)
}.

(** The variables the callback closes over: the part, [total], the open
    segment file, the package counter [globTry], and the trace. *)
Record Worker := {
  wPart : Part;
  wTotal : Z;
  wFile : list byte;
  wGlobTry : Z;
  wTrace : list Event
}.

Definition emit (w : Worker) (evs : list Event) : Worker :=
  {| wPart := wPart w; wTotal := wTotal w; wFile := wFile w;
     wGlobTry := wGlobTry w; wTrace := wTrace w ++ evs |}.

Definition withPart (w : Worker) (p : Part) : Worker :=
  {| wPart := p; wTotal := wTotal w; wFile := wFile w;
     wGlobTry := wGlobTry w; wTrace := wTrace w |}.

(** The deferred [p.Elapsed += time.Since(now)]. *)
Definition elapse (a : Attempt) (w : Worker) : Worker :=
  withPart w (setElapsed (wPart w) (Int.add64 (Elapsed (wPart w)) (since a))).

(** The body of the callback after the status switch: wrap the body, stream
    it, flush the buffer, settle [Stop] and the result. *)
Definition transfer (a : Attempt) (initialWritten : Z) (resp : Http.Response)
    (w : Worker) : bool * option error * Worker :=
  let p := wPart w in
  let bar :=
    if quiet p then [EvBar (BarAbort true)]
    else if 0 <? Written p then
      EvBar (SetRefill (Written p)) ::
      (if Int.sub64 (Written p) initialWritten =? 0
       then [EvBar DecoratorAverageAdjust; EvBar (IncrInt64 (Written p))]
       else [])
    else [] in
  let w := emit w bar in
  match Http.Body resp with
  | None => (false, Some ErrNilBody, w)
  | Some script =>
      let s := stream (wTotal w) script
                 {| sPart := p; sFile := wFile w; sBuf := []; sMax := bufSize;
                    sErr := None; sTrace := wTrace w |} in
      let '(wrote, file, _) := fileCopy (lastWrite a) (sFile s) (sBuf s) in
      let p := setWritten (sPart s)
                 (Int.add64 (Written (sPart s)) (Z.of_nat (length wrote))) in
      let p := if wTotal w <=? 0 then setStop p (Int.sub64 (Written p) 1) else p in
      let w := {| wPart := p; wTotal := wTotal w; wFile := file;
                  wGlobTry := wGlobTry w;
                  wTrace := sTrace s ++ [EvWrite wrote] |} in
      if isEOF (sErr s) then (false, None, w)
      else (negb (isDone p), sErr s, w)
  end.

(** The callback up to [client.Do]: the bookkeeping of a retry (or of the
    first attempt) and the request, with its Range header and its timer. *)
Definition announce (timeout count : Z) (w : Worker) : Worker :=
  let p := wPart w in
  let range := getRange p in
  let deadline := ctxTimeout timeout count in
  let w :=
    if 0 <? count then
      emit {| wPart := setCurTry p (count mod 2 ^ 32); wTotal := wTotal w;
              wFile := wFile w; wGlobTry := (wGlobTry w + 1) mod 2 ^ 32;
              wTrace := wTrace w |}
           [EvFlash "Retrying..." false]
    else emit w [EvBar DecoratorAverageAdjust] in
  emit w [EvRequest range deadline].

(** [case http.StatusOK] for part 0: the response is taken for the whole
    file. *)
Definition adopt (resp : Http.Response) (w : Worker) : Worker :=
  let total := Http.ContentLength resp in
  {| wPart := setWritten (setStop (wPart w) (Int.sub64 total 1)) 0;
     wTotal := total; wFile := wFile w; wGlobTry := wGlobTry w;
     wTrace := wTrace w ++ [EvBar (SetTotal total false)] |}.

(** The callback [func(count int, now time.Time) (retry bool, err error)]
    that [download] hands to [backoff.Retry]. *)
Definition attempt (timeout initialWritten : Z) (a : Attempt) (count : Z)
    (w : Worker) : bool * option error * Worker :=
  if maxTry (wPart w) <? count then (false, Some ErrGiveUp, w)
  else if isDone (wPart w) then (false, None, w)
  else
    let w := announce timeout count w in
    let '(retry, err, w) :=
      match doResult a with
      | inl e => (true, Some e, w)
      | inr resp =>
          let status := Http.StatusCode resp in
          if status =? Http.StatusOK then
            if negb (order (wPart w) =? 0) then
              (false, None,
               emit (withPart w (setSkip (wPart w) true)) [EvBar (BarAbort true)])
            else transfer a initialWritten resp (adopt resp w)
          else
            let w :=
              if (status =? Http.StatusForbidden) || (status =? Http.StatusTooManyRequests)
              then emit w [EvFlash (Http.Status resp) true]
              else w in
            if negb (status =? Http.StatusPartialContent) then
              (false, Some (Errorf "unexpected status: %s" [AStr (Http.Status resp)]), w)
            else transfer a initialWritten resp w
      end in
    (* deferred: p.Elapsed += time.Since(now) *)
    (retry, err, elapse a w).

(** Modelled from the spec: [backoff.Retry] of the third-party package
    github.com/vbauerster/backoff, whose source is not part of the
    repository.  The spec's retry loop: the callback is called with the
    retry count, starting at 0; a call that does not ask for a retry ends
    the loop with its error; otherwise the loop waits (exponential backoff)
    and calls again with the count increased by one, unless the shared
    context is done during the wait, which ends the loop with the context's
    error.  [waitErr count] is the context's error during the wait after the
    call with [count].  The result is [None] when [fuel] calls were not
    enough. *)
Fixpoint Retry {S : Type} (fuel : nat) (waitErr : Z -> option error)
    (fn : Z -> S -> bool * option error * S) (count : Z) (st : S)
  : option (option error * S) :=
  match fuel with
  | O => None
  | Datatypes.S fuel =>
      let '(retry, err, st) := fn count st in
      if retry then
        match waitErr count with
        | Some e => Some (Some e, st)
        | None => Retry fuel waitErr fn (count + 1) st
        end
      else Some (err, st)
  end.

(** What one call of [download] meets. *)
Record DownloadEnv := {
  openErr : option error;       (* os.OpenFile *)
  attempts : Z -> Attempt;      (* the callback's call with each count *)
  waitErr : Z -> option error   (* the shared context during each wait *)
}.

(** The file system: the content of every file that exists, by name. *)
Abbreviation FS := (gmap string (list byte)).

Record Downloaded := {
  dErr : option error;
  dPart : Part;
  dFS : FS;
  dGlobTry : Z;
  dTrace : list Event
}.

(** Calls of the callback that always suffice: the counts 0 .. maxTry + 1. *)
Definition retryFuel (p : Part) : nat := Datatypes.S (Z.to_nat (maxTry p + 1)).

(** [func (p *Part) download(ctx, progress, req, timeout uint) (err error)].
    [None] only if the retry loop did not end within [retryFuel] calls,
    which never happens ([download_spec]). *)
Definition download (env : DownloadEnv) (timeout : Z) (p : Part) (fs : FS)
    (globTry : Z) : option Downloaded :=
  match openErr env with
  | Some e =>
      (* bar is still nil: nothing to abort *)
      Some {| dErr := Some (WithMessage e (name p)); dPart := p; dFS := fs;
              dGlobTry := globTry; dTrace := [] |}
  | None =>
      (* O_APPEND|O_CREATE|O_WRONLY: an absent file comes to exist, empty *)
      let file := default [] (fs !! FileName p) in
      let total := Int.add64 (Int.sub64 (Stop p) (Start p)) 1 in
      let initialWritten := Written p in
      let w := {| wPart := p; wTotal := total; wFile := file;
                  wGlobTry := globTry; wTrace := [] |} in
      match Retry (retryFuel p) (waitErr env)
                  (fun count => attempt timeout initialWritten (attempts env count) count)
                  0 w with
      | None => None
      | Some (err, w) =>
          let w := if isGiveUp err then emit w [EvFlash "give up!" true] else w in
          let p' := wPart w in
          (* deferred: close the file; remove fpart.Name() if the part is skipped *)
          let fs := if Skip p' then delete (FileName p) fs
                    else <[FileName p := wFile w]> fs in
          (* deferred: abort the bar and annotate the error *)
          let w := match err with
                   | Some _ => if negb (isDone p') && negb (quiet p')
                               then emit w [EvBar (BarAbort false)] else w
                   | None => w
                   end in
          Some {| dErr := withMessage err (name p'); dPart := p'; dFS := fs;
                  dGlobTry := wGlobTry w; dTrace := wTrace w |}
      end
  end.

(** ** Sessions and options *)

(** [Session], with the fields [follow] fills in and the two it leaves for
    the orchestrator.  A Go map can be nil, and writing to a nil map
    panics: [HeaderMap] is [None] for the nil map. *)
Record Session := {
  Location : string;
  SuggestedFileName : string;
  ContentMD5 : string;
  AcceptRanges : string;
  ContentType : string;
  StatusCode : Z;
  ContentLength : Z;
  HeaderMap : option (gmap string string);
  Parts : list Part
}.

Definition setLocation (s : Session) (v : string) : Session :=
  {| Location := v; SuggestedFileName := SuggestedFileName s;
     ContentMD5 := ContentMD5 s; AcceptRanges := AcceptRanges s;
     ContentType := ContentType s; StatusCode := StatusCode s;
     ContentLength := ContentLength s; HeaderMap := HeaderMap s;
     Parts := Parts s |}.

Definition setHeaderMap (s : Session) (v : option (gmap string string)) : Session :=
  {| Location := Location s; SuggestedFileName := SuggestedFileName s;
     ContentMD5 := ContentMD5 s; AcceptRanges := AcceptRanges s;
     ContentType := ContentType s; StatusCode := StatusCode s;
     ContentLength := ContentLength s; HeaderMap := v;
     Parts := Parts s |}.

Definition setParts (s : Session) (v : list Part) : Session :=
  {| Location := Location s; SuggestedFileName := SuggestedFileName s;
     ContentMD5 := ContentMD5 s; AcceptRanges := AcceptRanges s;
     ContentType := ContentType s; StatusCode := StatusCode s;
     ContentLength := ContentLength s; HeaderMap := HeaderMap s;
     Parts := v |}.

Module Opts.

(** [Options]: the command line as go-flags parsed it. *)
Record Options := {
  Parts : Z;               (* uint *)
  MaxRetry : Z;            (* uint *)
  Timeout : Z;             (* uint *)
  OutFileName : string;
  JSONFileName : string;
  UserAgent : string;
  BestMirror : bool;
  Quiet : bool;
  AuthUser : string;
  AuthPass : string;
  HeaderMap : option (gmap string string);
  InsecureSkipVerify : bool;
  Debug : bool;
  Version : bool
}.

Definition setParts (o : Options) (v : Z) : Options :=
  {| Parts := v; MaxRetry := MaxRetry o; Timeout := Timeout o;
     OutFileName := OutFileName o; JSONFileName := JSONFileName o;
     UserAgent := UserAgent o; BestMirror := BestMirror o; Quiet := Quiet o;
     AuthUser := AuthUser o; AuthPass := AuthPass o; HeaderMap := HeaderMap o;
     InsecureSkipVerify := InsecureSkipVerify o; Debug := Debug o;
     Version := Version o |}.

Definition setAuthPass (o : Options) (v : string) : Options :=
  {| Parts := Parts o; MaxRetry := MaxRetry o; Timeout := Timeout o;
     OutFileName := OutFileName o; JSONFileName := JSONFileName o;
     UserAgent := UserAgent o; BestMirror := BestMirror o; Quiet := Quiet o;
     AuthUser := AuthUser o; AuthPass := v; HeaderMap := HeaderMap o;
     InsecureSkipVerify := InsecureSkipVerify o; Debug := Debug o;
     Version := Version o |}.

Definition setOutFileName (o : Options) (v : string) : Options :=
  {| Parts := Parts o; MaxRetry := MaxRetry o; Timeout := Timeout o;
     OutFileName := v; JSONFileName := JSONFileName o;
     UserAgent := UserAgent o; BestMirror := BestMirror o; Quiet := Quiet o;
     AuthUser := AuthUser o; AuthPass := AuthPass o; HeaderMap := HeaderMap o;
     InsecureSkipVerify := InsecureSkipVerify o; Debug := Debug o;
     Version := Version o |}.

Definition setHeaderMap (o : Options) (v : option (gmap string string)) : Options :=
  {| Parts := Parts o; MaxRetry := MaxRetry o; Timeout := Timeout o;
     OutFileName := OutFileName o; JSONFileName := JSONFileName o;
     UserAgent := UserAgent o; BestMirror := BestMirror o; Quiet := Quiet o;
     AuthUser := AuthUser o; AuthPass := AuthPass o; HeaderMap := v;
     InsecureSkipVerify := InsecureSkipVerify o; Debug := Debug o;
     Version := Version o |}.

End Opts.

Definition maxRedirects : nat := 10.
Definition hUserAgentKey : string := "User-Agent".
Definition hContentDisposition : string := "Content-Disposition".

(** [userAgents[key]]: the empty string for a key that is not in the map. *)
Definition userAgents (key : string) : string :=
  if String.eqb key "chrome" then
    "Mozilla/5.0 (Macintosh; Intel Mac OS X 10_13_4) AppleWebKit/537.36 (KHTML, like Gecko) Chrome/65.0.3325.181 Safari/537.36"
  else if String.eqb key "firefox" then
    "Mozilla/5.0 (Macintosh; Intel Mac OS X 10.13; rv:59.0) Gecko/20100101 Firefox/59.0"
  else if String.eqb key "safari" then
    "Mozilla/5.0 (Macintosh; Intel Mac OS X 10_13_4) AppleWebKit/605.1.15 (KHTML, like Gecko) Version/11.1 Safari/605.1.15"
  else "".

(** ** Exit codes *)

(** What [Exit] writes to [cmd.Err]. *)
Inductive ExitOutput :=
| WriteHelp
| ExitError (debug : bool) (err : error)
| UnexpectedError (debug : bool) (err : error).

(** [func (cmd Cmd) Exit(err error) int], with [debug] for
    [cmd.options.Debug]. *)
Definition Exit (debug : bool) (err : option error) : Z * list ExitOutput :=
  match err with
  | None => (0, [])
  | Some e =>
      match Cause e with
      | FlagsError ty _ =>
          match ty with
          | ErrHelp => (0, [])
          | _ => (2, [WriteHelp])
          end
      | ExpectedError _ => (1, [ExitError debug e])
      | _ => (3, [UnexpectedError debug e])
      end
  end.

Definition exitCode (err : option error) : Z := fst (Exit false err).

(** ** The resolver *)

(** [func isRedirect(status int) bool] *)
Definition isRedirect (status : Z) : bool := (299 <? status) && (status <? 400).

(** What [follow] meets: whether [http.NewRequest] accepts a URL, and what
    the [i]-th [client.Do] of the loop gives for the URL it asks. *)
Record FollowEnv := {
  newRequest : string -> option error;
  clientDo : nat -> string -> error + Http.Response
}.

Section Resolver.

(** [parseContentDisposition] matches a regular expression and
    [urlBaseName] is the chain url.Parse, url.QueryUnescape, filepath.Base
    that names the file after the URL; the resolver only passes their
    results on, so both stay abstract. *)
Variable parseContentDisposition : string -> string.
Variable urlBaseName : string -> string.

(** The file name [follow] settles on. *)
Definition suggestedName (outFileName : string) (resp : Http.Response)
    (userUrl : string) : string :=
  if String.eqb outFileName "" then
    let name := parseContentDisposition (Http.HeaderGet resp hContentDisposition) in
    if String.eqb name "" then urlBaseName userUrl else name
  else outFileName.

(** The loop of [follow]: [fuel] iterations are left, [i] requests were
    made.  The result is the named results [session] and [err] and the
    local [redirected] at the return. *)
Fixpoint followLoop (env : FollowEnv) (outFileName : string) (fuel i : nat)
    (userUrl : string) (redirected : bool)
  : option Session * option error * bool :=
  match fuel with
  | O => (None, None, redirected)
  | S fuel =>
      match newRequest env userUrl with
      | Some e => (None, Some e, redirected)
      | None =>
          match clientDo env i userUrl with
          | inl e => (None, Some e, redirected)
          | inr resp =>
              if isRedirect (Http.StatusCode resp) then
                match Http.RespLocation resp with
                | inl e => (None, Some e, true)
                | inr loc => followLoop env outFileName fuel (S i) loc true
                end
              else if negb (Http.StatusCode resp =? Http.StatusOK) then
                (None,
                 Some (Errorf "unexpected status: %s" [AStr (Http.Status resp)]),
                 redirected)
              else
                (Some {| Location := userUrl;
                         SuggestedFileName := suggestedName outFileName resp userUrl;
                         ContentMD5 := Http.HeaderGet resp "Content-MD5";
                         AcceptRanges := Http.HeaderGet resp "Accept-Ranges";
                         ContentType := Http.HeaderGet resp "Content-Type";
                         StatusCode := Http.StatusCode resp;
                         ContentLength := Http.ContentLength resp;
                         HeaderMap := None;
                         Parts := [] |},
                 Http.BodyClose resp,
                 redirected)
          end
      end
  end.

(** [func (cmd Cmd) follow(ctx, jar, userUrl) (session *Session, err error)]
    with the deferred function applied to the named results.  The cookie
    jar only shapes what the server sees, which [clientDo] stands for. *)
Definition follow (env : FollowEnv) (outFileName userUrl : string)
  : option Session * option error :=
  let '(session, err, redirected) :=
    followLoop env outFileName maxRedirects 0 userUrl false in
  let err :=
    if redirected && negb (bool_decide (is_Some session)) && isNil err
    then Some (ExpectedError
                 (Errorf "maximum number of redirects (%d) followed"
                         [AInt (Z.of_nat maxRedirects)]))
    else err in
  (session, withMessage err "follow").

End Resolver.

(** ** The mirror selector *)

Definition code (c : ascii) : N := Ascii.N_of_ascii c.

(** The six ASCII characters [strings.TrimSpace] takes for space. *)
Definition asciiSpace (c : ascii) : bool :=
  let n := code c in
  ((9 <=? n) && (n <=? 13) || (n =? 32))%N.

(** Leading white space goes, as [strings.TrimSpace] cuts it: the ASCII
    spaces and the UTF-8 encodings of the other [unicode.IsSpace] runes
    (U+0085, U+00A0, U+1680, U+2000..U+200A, U+2028, U+2029, U+202F, U+205F,
    U+3000). *)
Fixpoint trimLeft (s : string) : string :=
  match s with
  | EmptyString => s
  | String c rest =>
      if asciiSpace c then trimLeft rest
      else
        match rest with
        | String d rest1 =>
            if ((code c =? 194) && ((code d =? 133) || (code d =? 160)))%N
            then trimLeft rest1
            else
              match rest1 with
              | String e rest2 =>
                  let c := code c in let d := code d in let e := code e in
                  if ((c =? 225) && (d =? 154) && (e =? 128)
                      || (c =? 226) && (d =? 128)
                         && ((128 <=? e) && (e <=? 138) || (e =? 168) || (e =? 169) || (e =? 175))
                      || (c =? 226) && (d =? 129) && (e =? 159)
                      || (c =? 227) && (d =? 128) && (e =? 128))%N
                  then trimLeft rest2
                  else s
              | EmptyString => s
              end
        | EmptyString => s
        end
  end.

(** The same from the end, on the reversed string: a rune's bytes come last
    byte first. *)
Fixpoint trimLeftRev (s : string) : string :=
  match s with
  | EmptyString => s
  | String c rest =>
      if asciiSpace c then trimLeftRev rest
      else
        match rest with
        | String d rest1 =>
            if ((code d =? 194) && ((code c =? 133) || (code c =? 160)))%N
            then trimLeftRev rest1
            else
              match rest1 with
              | String e rest2 =>
                  let c := code c in let d := code d in let e := code e in
                  if ((e =? 225) && (d =? 154) && (c =? 128)
                      || (e =? 226) && (d =? 128)
                         && ((128 <=? c) && (c <=? 138) || (c =? 168) || (c =? 169) || (c =? 175))
                      || (e =? 226) && (d =? 129) && (c =? 159)
                      || (e =? 227) && (d =? 128) && (c =? 128))%N
                  then trimLeftRev rest2
                  else s
              | EmptyString => s
              end
        | EmptyString => s
        end
  end.

(** [strings.TrimSpace] *)
Definition TrimSpace (s : string) : string :=
  String.rev (trimLeftRev (String.rev (trimLeft s))).

(** [strings.HasPrefix(text, "#")] *)
Definition isComment (text : string) : bool :=
  match text with
  | String c _ => (code c =? 35)%N
  | EmptyString => false
  end.

(** [dropCR] of bufio: a line loses one trailing carriage return. *)
Definition dropCR (line : string) : string :=
  match String.rev line with
  | String c rest => if (code c =? 13)%N then String.rev rest else line
  | EmptyString => line
  end.

Definition MaxScanTokenSize : nat := 64 * 1024.

(** The tokens of a [bufio.Scanner] with [bufio.ScanLines] over [text]:
    [line] is the current line so far, reversed, and [n] its length.  A line
    that fills the scanner's buffer before its newline ends the scan with
    [bufio.ErrTooLong]. *)
Fixpoint scanLines (text : string) (line : string) (n : nat)
  : list string * option error :=
  match text with
  | EmptyString =>
      (if String.eqb line "" then [] else [dropCR (String.rev line)], None)
  | String c rest =>
      if (code c =? 10)%N then
        let '(lines, err) := scanLines rest "" 0 in
        (dropCR (String.rev line) :: lines, err)
      else if (MaxScanTokenSize <=? S n)%nat then
        ([], Some (OtherError "bufio.Scanner: token too long"))
      else scanLines rest (String c line) (S n)
  end.

(** The line that [readLines] keeps of a scanned line, if any. *)
Definition keepLine (line : string) : option string :=
  let text := TrimSpace line in
  if (String.length text =? 0)%nat || isComment text then None else Some text.

(** [func readLines(r io.Reader) ([]string, error)]: [text] is what the
    reader delivers and [rerr] the error that ends it, [None] for io.EOF. *)
Definition readLines (text : string) (rerr : option error)
  : list string * option error :=
  let '(lines, err) := scanLines text "" 0 in
  (omap keepLine lines, match err with Some e => Some e | None => rerr end).

(** What [bestMirror] meets: whether [http.NewRequest] accepts a URL, and
    the status the probe of candidate [i] sees ([None]: no response). *)
Record MirrorEnv := {
  mirrorRequest : string -> option error;
  fetch : nat -> option Z
}.

(** The goroutines of [bestMirror] interleave; a schedule lists who moves.
    A step that cannot move in the state it meets leaves the state as it is. *)
Inductive MirrorStep :=
| Fetch (i : nat)  (* probe [i]: client.Do returns and the probe runs to its end *)
| Deadline         (* the timer of context.WithTimeout(ctx, 15s) fires *)
| Cancel           (* the parent context is canceled *)
| SelectFirst      (* the selector's select takes [best = <-first] *)
| SelectDone       (* the selector's select takes [<-ctx.Done()] *)
| Return.          (* the selector evaluates [ctx.Err()] and returns *)

Inductive Selector :=
| Selecting
| Selected (best : string)
| Returned (best : string) (err : option error).

(** The probes that ran, the buffer of the channel [first] (capacity 1),
    the error of the shared context and the selector. *)
Record Mirror := {
  mRan : list nat;
  mFirst : option string;
  mCtx : option error;
  mMain : Selector
}.

(** The URLs a probe is started for. *)
Definition candidates (env : MirrorEnv) (urls : list string) : list string :=
  List.filter (fun u => isNil (mirrorRequest env u)) urls.

Definition mirrorStep (env : MirrorEnv) (cands : list string) (st : Mirror)
    (step : MirrorStep) : Mirror :=
  match step with
  | Fetch i =>
      match cands !! i with
      | Some u =>
          if bool_decide (i ∈ mRan st) then st
          else
            let sends :=
              match fetch env i with
              | Some status => status =? Http.StatusOK
              | None => false
              end in
            {| mRan := i :: mRan st;
               mFirst := match mFirst st with
                         | None => if sends then Some u else None
                         | Some w => Some w   (* default: first has already been found *)
                         end;
               mCtx := mCtx st; mMain := mMain st |}
      | None => st
      end
  | Deadline =>
      match mCtx st with
      | None => {| mRan := mRan st; mFirst := mFirst st;
                   mCtx := Some DeadlineExceeded; mMain := mMain st |}
      | Some _ => st
      end
  | Cancel =>
      match mCtx st with
      | None => {| mRan := mRan st; mFirst := mFirst st;
                   mCtx := Some Canceled; mMain := mMain st |}
      | Some _ => st
      end
  | SelectFirst =>
      match mMain st, mFirst st with
      | Selecting, Some u =>
          {| mRan := mRan st; mFirst := None; mCtx := mCtx st; mMain := Selected u |}
      | _, _ => st
      end
  | SelectDone =>
      match mMain st, mCtx st with
      | Selecting, Some _ =>
          {| mRan := mRan st; mFirst := mFirst st; mCtx := mCtx st;
             mMain := Selected "" |}
      | _, _ => st
      end
  | Return =>
      match mMain st with
      | Selected best =>
          (* the deferred cancel() runs after ctx.Err() was read *)
          {| mRan := mRan st; mFirst := mFirst st;
             mCtx := match mCtx st with None => Some Canceled | e => e end;
             mMain := Returned best (withMessage (mCtx st) "bestMirror") |}
      | _ => st
      end
  end.

Definition mirrorInit : Mirror :=
  {| mRan := []; mFirst := None; mCtx := None; mMain := Selecting |}.

Definition race (env : MirrorEnv) (cands : list string) (schedule : list MirrorStep)
  : Mirror :=
  foldl (mirrorStep env cands) mirrorInit schedule.

(** [func (cmd Cmd) bestMirror(ctx, input) (best string, err error)] under a
    schedule; [None] when the schedule ends before the selector returned. *)
Definition bestMirror (env : MirrorEnv) (text : string) (rerr : option error)
    (schedule : list MirrorStep) : option (string * option error) :=
  let '(urls, err) := readLines text rerr in
  match err with
  | Some e => Some ("", Some (WithMessage e "bestMirror"))
  | None =>
      match mMain (race env (candidates env urls) schedule) with
      | Returned best err => Some (best, err)
      | _ => None
      end
  end.

(** ** The orchestrator *)

(** Modelled from the spec: session.go, the file of the [Session] methods, is
    not among the sources.  [Run] only calls them, so they are an interface
    here; [specSession] below is an implementation after the spec's words.
    The methods that touch files take the file system and give it back. *)
Record SessionOps := {
  loadState : string -> FS -> error + Session;
  saveState : Session -> string -> FS -> option error * FS;
  isAcceptRanges : Session -> bool;
  calcParts : Session -> Z -> list Part;
  removeFiles : Session -> FS -> option error * FS;
  actualPartsOnly : Session -> list Part;
  totalWritten : Session -> Z;
  concatenateParts : Session -> FS -> option error * FS
}.

(** What [Run] does that can be seen from outside, oldest first. *)
Inductive RunEvent :=
| Print (format : string) (args : list Arg)   (* to cmd.Out *)
| Prompt (fileName : string)                  (* the overwrite question *)
| RemoveFiles (s : Session)                   (* session.removeFiles() *)
| Started (i : nat)                           (* eg.Go: the worker of part i *)
| Worked (i : nat) (tr : list Event)          (* what that worker did *)
| Concatenate (s : Session)                   (* session.concatenateParts(...) *)
| OsRemove (fileName : string)                (* os.Remove *)
| SaveState (s : Session) (stateName : string).  (* session.saveState(stateName) *)

(** How a call of [Run] ends: it returns, panics, ends the process
    ([log.Fatalf]), or never returns under the given schedules. *)
Inductive Outcome :=
| Returns (err : option error)
| Panics (why : string)
| Exits (status : Z)
| Blocks.

Record Ran := {
  outcome : Outcome;
  files : FS;
  events : list RunEvent
}.

(** Everything [Run] learns from outside. *)
Record RunEnv := {
  parseArgs : list string -> error + (Opts.Options * list string);
  readPassword : error + string;
  stdin : string;                       (* the URL list on standard input *)
  inputErr : option error;              (* how reading the URL list ends *)
  mirrors : MirrorEnv;
  mirrorSchedule : list MirrorStep;
  jarErr : option error;                (* cookiejar.New *)
  resolver : FollowEnv;
  canceledAtResolve : bool;             (* ctx.Err() == context.Canceled after follow *)
  answer : error + string;              (* fmt.Scanf("%s", &answer) *)
  workers : nat -> DownloadEnv;         (* what the worker of each part meets *)
  finishOrder : list nat;               (* the order in which the workers return *)
  canceledAtJoin : bool                 (* ctx.Err() == context.Canceled after Wait *)
}.

(** [fmt.Sprintf("P%02d", i+1)] *)
Definition partName (i : nat) : string :=
  let n := Z.of_nat i + 1 in
  if n <? 10 then "P0" +:+ pretty n else "P" +:+ pretty n.

(** ASCII lower case; for the two words the prompt accepts it agrees with
    [strings.ToLower]. *)
Definition lower (c : ascii) : ascii :=
  let n := code c in
  if ((65 <=? n) && (n <=? 90))%N then Ascii.ascii_of_N (n + 32) else c.

Fixpoint ToLower (s : string) : string :=
  match s with
  | EmptyString => EmptyString
  | String c rest => String (lower c) (ToLower rest)
  end.

Definition saysYes (answer : string) : bool :=
  let a := ToLower answer in String.eqb a "y" || String.eqb a "yes".

(** [os.Remove] *)
Definition osRemove (fileName : string) (fs : FS) : option error * FS :=
  match fs !! fileName with
  | Some _ => (None, delete fileName fs)
  | None => (Some (OtherError "remove: no such file or directory"), fs)
  end.

(** The input of the mirror selector: the files among [args] that open, one
    after the other (io.MultiReader), or standard input when none opens. *)
Definition mirrorInput (env : RunEnv) (args : list string) (fs : FS) : string :=
  match omap (fun fn => fs !! fn) args with
  | [] => stdin env
  | contents => String.string_of_list_byte (concat contents)
  end.

(** The fields [Run] sets on a part before it starts its worker. *)
Definition prepare (o : Opts.Options) (i : nat) (p : Part) : Part :=
  {| FileName := FileName p; Start := Start p; Stop := Stop p;
     Written := Written p; Skip := Skip p; Elapsed := Elapsed p;
     name := partName i; order := Z.of_nat i;
     maxTry := Int.wrap64 (Opts.MaxRetry o); curTry := curTry p;
     quiet := Opts.Quiet o |}.

(** The state of the fan-out: the parts with what their workers did to
    them, the error of each worker by index, the files, [globTry], the
    events; [None] if a worker never returns. *)
Record FanOut := {
  fParts : list Part;
  fErrs : list (nat * error);
  fFiles : FS;
  fGlobTry : Z;
  fEvents : list RunEvent
}.

(** [for i, p := range session.Parts { ... eg.Go(...) }] and the workers it
    starts.  Each worker owns its part and its segment file, so the workers
    are run one after the other, in index order. *)
Fixpoint fanOut (env : RunEnv) (o : Opts.Options) (i : nat) (parts : list Part)
    (st : FanOut) : option FanOut :=
  match parts with
  | [] => Some st
  | p :: rest =>
      if isDone p then
        fanOut env o (S i) rest
          {| fParts := fParts st ++ [p]; fErrs := fErrs st; fFiles := fFiles st;
             fGlobTry := fGlobTry st; fEvents := fEvents st |}
      else
        match download (workers env i) (Opts.Timeout o) (prepare o i p)
                       (fFiles st) (fGlobTry st) with
        | None => None
        | Some d =>
            fanOut env o (S i) rest
              {| fParts := fParts st ++ [dPart d];
                 fErrs := match dErr d with
                          | Some e => fErrs st ++ [(i, e)]
                          | None => fErrs st
                          end;
                 fFiles := dFS d; fGlobTry := dGlobTry d;
                 fEvents := fEvents st ++ [Started i; Worked i (dTrace d)] |}
        end
  end.

(** [eg.Wait()]: the error of the worker that failed first in time. *)
Fixpoint firstError (order : list nat) (errs : list (nat * error)) : option error :=
  match order with
  | [] => match errs with
          | [] => None
          | (_, e) :: _ => Some e
          end
  | i :: order =>
      match List.find (fun ie => Nat.eqb (fst ie) i) errs with
      | Some (_, e) => Some e
      | None => firstError order errs
      end
  end.

Definition cmdName : string := "getparty".
Definition projectHome : string := "https://github.com/vbauerster/getparty".

Section Orchestrator.

Variable parseContentDisposition : string -> string.
Variable urlBaseName : string -> string.
Variable ops : SessionOps.

(** A return of [Run]: the deferred function annotates the error. *)
Definition returns (err : option error) (fs : FS) (evs : list RunEvent) : Ran :=
  {| outcome := Returns (withMessage err "run"); files := fs; events := evs |}.

(** [if cmd.options.AuthUser != "" { ... }]: a user without a password is
    asked for one. *)
Definition askPassword (env : RunEnv) (o : Opts.Options) : error + Opts.Options :=
  if negb (String.eqb (Opts.AuthUser o) "") && String.eqb (Opts.AuthPass o) ""
  then match readPassword env with
       | inl e => inl e
       | inr pass => inr (Opts.setAuthPass o pass)
       end
  else inr o.

(** The [switch] that finds the URL to start from: the options as the
    branch leaves them, [userUrl] and [lastSession]. *)
Definition entry (env : RunEnv) (o : Opts.Options) (args : list string) (fs : FS)
  : Ran + (Opts.Options * string * option Session) :=
  if negb (String.eqb (Opts.JSONFileName o) "") then
    match loadState ops (Opts.JSONFileName o) fs with
    | inl e => inl (returns (Some e) fs [])
    | inr last =>
        inr (Opts.setOutFileName (Opts.setHeaderMap o (HeaderMap last))
                                 (SuggestedFileName last),
             Location last, Some last)
    end
  else if Opts.BestMirror o then
    match bestMirror (mirrors env) (mirrorInput env args fs) (inputErr env)
                     (mirrorSchedule env) with
    | None => inl {| outcome := Blocks; files := fs; events := [] |}
    | Some (_, Some e) => inl (returns (Some e) fs [])
    | Some (best, None) => inr (o, best, None)
    end
  else
    match args with
    | userUrl :: _ => inr (o, userUrl, None)
    | [] => inl {| outcome := Panics "index out of range"; files := fs; events := [] |}
    end.

(** After [follow]: a resumed session is checked against the server, a
    fresh one gets its parts and, if the output file exists, the prompt. *)
Definition plan (env : RunEnv) (o : Opts.Options) (lastSession : option Session)
    (session : Session) (fs : FS)
  : Ran + (Opts.Options * Session * FS * list RunEvent) :=
  match lastSession with
  | Some last =>
      if negb (String.eqb (ContentMD5 last) (ContentMD5 session)) then
        inl (returns
               (Some (Errorf "ContentMD5 mismatch: remote %q expected %q"
                             [AStr (ContentMD5 session); AStr (ContentMD5 last)]))
               fs [])
      else if negb (ContentLength last =? ContentLength session) then
        inl (returns
               (Some (Errorf "ContentLength mismatch: remote %d expected %d"
                             [AInt (ContentLength session); AInt (ContentLength last)]))
               fs [])
      else inr (o, setLocation last (Location session), fs, [])
  | None =>
      if 0 <? Opts.Parts o then
        let o := if isAcceptRanges ops session then o else Opts.setParts o 1 in
        let session := setHeaderMap session (Opts.HeaderMap o) in
        let session :=
          setParts session (calcParts ops session (Int.wrap64 (Opts.Parts o))) in
        match fs !! SuggestedFileName session with
        | Some _ =>
            let evs := [Prompt (SuggestedFileName session)] in
            match answer env with
            | inl e => inl (returns (Some e) fs evs)
            | inr a =>
                if saysYes a then
                  let '(e, fs) := removeFiles ops session fs in
                  let evs := evs ++ [RemoveFiles session] in
                  match e with
                  | Some e => inl (returns (Some e) fs evs)
                  | None => inr (o, session, fs, evs)
                  end
                else inl (returns None fs evs)
            end
        | None => inr (o, session, fs, [])
        end
      else inr (o, session, fs, [])
  end.

(** After [eg.Wait()]: [err] is what the join returned. *)
Definition settle (env : RunEnv) (o : Opts.Options) (userUrl : string)
    (session : Session) (err : option error) (fs : FS) (evs : list RunEvent) : Ran :=
  let session := setParts session (actualPartsOnly ops session) in
  let canceled := negb (isNil err) && canceledAtJoin env in
  let err := if canceled then Some (ExpectedError Canceled) else err in
  let written := totalWritten ops session in
  if negb canceled && (0 <? Opts.Parts o)
     && ((written =? ContentLength session) || (ContentLength session <=? 0))
  then
    let '(e, fs) := concatenateParts ops session fs in
    let evs := evs ++ [Concatenate session] in
    match e with
    | Some e => returns (Some e) fs evs
    | None =>
        let evs := evs ++ [Print "%q saved [%d/%d]"
                             [AStr (SuggestedFileName session);
                              AInt (ContentLength session); AInt written]] in
        if negb (String.eqb (Opts.JSONFileName o) "") then
          let '(e, fs) := osRemove (Opts.JSONFileName o) fs in
          returns e fs (evs ++ [OsRemove (Opts.JSONFileName o)])
        else returns None fs evs
    end
  else
    (* preserve user provided url *)
    let session := setLocation session userUrl in
    let stateName := SuggestedFileName session +:+ ".json" in
    let '(e, fs) := saveState ops session stateName fs in
    let evs := evs ++ [SaveState session stateName] in
    match e with
    | None => returns err fs (evs ++ [Print "session state saved to %q" [AStr stateName]])
    | Some e => returns (if isNil err then Some e else err) fs evs
    end.

(** From the resolved session to the end: plan, fan out, join, settle. *)
Definition transferAll (env : RunEnv) (o : Opts.Options) (userUrl : string)
    (lastSession : option Session) (session : Session) (fs : FS) : Ran :=
  match plan env o lastSession session fs with
  | inl r => r
  | inr (o, session, fs, evs) =>
      let evs := if Opts.Quiet o then evs
                 else evs ++ [Print "summary of %q" [AStr (SuggestedFileName session)]] in
      if existsb (fun p => negb (isDone p)) (Parts session)
         && negb (isNil (newRequest (resolver env) (Location session)))
      then {| outcome := Exits 1; files := fs; events := evs |}  (* cmd.logger.Fatalf *)
      else
        match fanOut env o 0 (Parts session)
                     {| fParts := []; fErrs := []; fFiles := fs; fGlobTry := 0;
                        fEvents := evs |} with
        | None => {| outcome := Blocks; files := fs; events := evs |}
        | Some f =>
            settle env o userUrl (setParts session (fParts f))
                   (firstError (finishOrder env) (fErrs f)) (fFiles f) (fEvents f)
        end
  end.

(** [func (cmd *Cmd) Run(args []string, version string) (err error)] on
    the file system [fs]. *)
Definition Run (env : RunEnv) (args : list string) (version : string) (fs : FS)
  : Ran :=
  match parseArgs env args with
  | inl e => returns (Some e) fs []
  | inr (o, args) =>
      if Opts.Version o then
        returns None fs [Print "%s: %s\n" [AStr cmdName; AStr version];
                         Print "Project home: %s\n" [AStr projectHome]]
      else if (length args =? 0)%nat && String.eqb (Opts.JSONFileName o) ""
              && negb (Opts.BestMirror o)
      then returns (Some (FlagsError ErrUnknown "")) fs []
      else
        match askPassword env o with
        | inl e => returns (Some e) fs []
        | inr o =>
            match entry env o args fs with
            | inl r => r
            | inr (o, userUrl, lastSession) =>
                match Opts.HeaderMap o with
                | None =>
                    {| outcome := Panics "assignment to entry in nil map";
                       files := fs; events := [] |}
                | Some m =>
                    let m := match m !! hUserAgentKey with
                             | Some _ => m
                             | None => <[hUserAgentKey := userAgents (Opts.UserAgent o)]> m
                             end in
                    let o := Opts.setHeaderMap o (Some m) in
                    match jarErr env with
                    | Some e => returns (Some e) fs []
                    | None =>
                        match follow parseContentDisposition urlBaseName
                                     (resolver env) (Opts.OutFileName o) userUrl with
                        | (_, Some e) =>
                            if canceledAtResolve env
                            then returns (Some (ExpectedError Canceled)) fs []
                            else returns (Some e) fs []
                        | (None, None) =>
                            {| outcome := Panics "nil pointer dereference";
                               files := fs; events := [] |}
                        | (Some session, None) =>
                            transferAll env o userUrl lastSession session fs
                        end
                    end
                end
            end
        end
  end.

End Orchestrator.

(** Modelled from the spec: an implementation of the [Session] methods that
    session.go would hold, after sections 3, 4.3, 4.5 and 6 of the spec.  The
    JSON encoding of the sidecar is a parameter. *)
Section SpecSession.

Variable marshal : Session -> list byte.
Variable unmarshal : list byte -> option Session.

Definition newPart (fileName : string) (start stop : Z) : Part :=
  {| FileName := fileName; Start := start; Stop := stop; Written := 0;
     Skip := false; Elapsed := 0; name := ""; order := 0; maxTry := 0;
     curTry := 0; quiet := false |}.

Definition partFile (s : Session) (i : nat) : string :=
  SuggestedFileName s +:+ ".part" +:+ pretty (Z.of_nat i).

(** The planner of section 4.3: one open-ended part when [n <= 1] or the
    length is unknown, else [n] contiguous ranges, the last one taking
    the remainder. *)
Definition specCalcParts (s : Session) (n : Z) : list Part :=
  let L := ContentLength s in
  if (n <=? 1) || (L <=? 0) then [newPart (partFile s 0) 0 0]
  else
    let size := L / n in
    map (fun i : nat =>
           let start := Z.of_nat i * size in
           let stop := if Z.of_nat i =? n - 1 then L - 1 else start + size - 1 in
           newPart (partFile s i) start stop)
        (seq 0 (Z.to_nat n)).

Definition specTotalWritten (s : Session) : Z :=
  foldr (fun p acc => Int.add64 (Written p) acc) 0 (Parts s).

(** The assembler of section 4.5: the segment files, in index order, make
    the output file; the segment files go. *)
Definition specConcatenate (s : Session) (fs : FS) : option error * FS :=
  match mapM (fun p => fs !! FileName p) (Parts s) with
  | None => (Some (OtherError "open: no such file or directory"), fs)
  | Some contents =>
      match contents with
      | [] => (None, fs)
      | _ =>
          (None,
           <[SuggestedFileName s := concat contents]>
             (foldr (fun p acc => delete (FileName p) acc) fs (Parts s)))
      end
  end.

Definition specSession : SessionOps :=
  {| loadState := fun fileName fs =>
       match fs !! fileName with
       | None => inl (OtherError "open: no such file or directory")
       | Some data =>
           match unmarshal data with
           | None => inl (OtherError "json: cannot unmarshal")
           | Some s => inr s
           end
       end;
     saveState := fun s stateName fs => (None, <[stateName := marshal s]> fs);
     isAcceptRanges := fun s => String.eqb (AcceptRanges s) "bytes";
     calcParts := specCalcParts;
     removeFiles := fun s fs =>
       (None, foldr (fun p acc => delete (FileName p) acc) fs (Parts s));
     actualPartsOnly := fun s => List.filter (fun p => negb (Skip p)) (Parts s);
     totalWritten := specTotalWritten;
     concatenateParts := specConcatenate |}.

End SpecSession.

(** * Vocabulary of the properties *)

(** Events that neither ask the server nor write to the file. *)
Definition silent (tr : list Event) : Prop := requests tr = 0%nat /\ appended tr = [].

(** [q] is [p] up to the counter [Written]. *)
Definition sameButWritten (p q : Part) : Prop := q = setWritten p (Written q).

(** [s'] comes after [s] in the streaming loop: no request was issued, the
    segment file grew by what the trace says was written, and [Written]
    advanced by that many bytes. *)
Definition streamed (s s' : Stream) : Prop :=
  exists tr,
    sTrace s' = sTrace s ++ tr /\
    sFile s' = sFile s ++ appended tr /\
    requests tr = 0%nat /\
    Int.wrap64 (Written (sPart s'))
    = Int.wrap64 (Written (sPart s) + Z.of_nat (length (appended tr))) /\
    sameButWritten (sPart s) (sPart s').

(** What no attempt changes in a part. *)
Definition kept (p q : Part) : Prop :=
  maxTry q = maxTry p /\ name q = name p /\ FileName q = FileName p /\
  order q = order p /\ quiet q = quiet p /\ Start q = Start p.

(** [w'] comes after [w]: at most [n] requests were issued, and the
    segment file grew by exactly what the trace says was written. *)
Definition worked (n : nat) (w w' : Worker) : Prop :=
  exists tr,
    wTrace w' = wTrace w ++ tr /\
    wFile w' = wFile w ++ appended tr /\
    (requests tr <= n)%nat /\
    kept (wPart w) (wPart w').

(** The response at which the redirect chain from [userUrl] ends, and the
    URL that gave it: the first response that is no redirect, if the
    requests and the redirects up to it go through and it comes within
    [fuel] requests. *)
Fixpoint terminal (env : FollowEnv) (fuel i : nat) (userUrl : string)
  : option (string * Http.Response) :=
  match fuel with
  | O => None
  | S fuel =>
      match newRequest env userUrl with
      | Some _ => None
      | None =>
          match clientDo env i userUrl with
          | inl _ => None
          | inr resp =>
              if isRedirect (Http.StatusCode resp) then
                match Http.RespLocation resp with
                | inl _ => None
                | inr loc => terminal env fuel (S i) loc
                end
              else Some (userUrl, resp)
          end
      end
  end.

(** The error [follow] returns for a terminal response it does not take. *)
Definition unexpectedStatus (resp : Http.Response) : error :=
  WithMessage (Errorf "unexpected status: %s" [AStr (Http.Status resp)]) "follow".

(** The error [follow] returns when the redirects do not end. *)
Definition tooManyRedirects : error :=
  WithMessage
    (ExpectedError (Errorf "maximum number of redirects (%d) followed" [AInt 10]))
    "follow".

(** [main]: the status the process ends with, [os.Exit(cmd.Exit(cmd.Run(...)))];
    a panic ends a Go process with status 2.  [None] when [Run] never
    returns. *)
Definition mainStatus (r : Ran) : option Z :=
  match outcome r with
  | Returns err => Some (exitCode err)
  | Panics _ => Some 2
  | Exits status => Some status
  | Blocks => None
  end.

Definition isConcatenate (e : RunEvent) : bool :=
  match e with Concatenate _ => true | _ => false end.

Definition isSaveState (e : RunEvent) : bool :=
  match e with SaveState _ _ => true | _ => false end.

Definition isStarted (e : RunEvent) : bool :=
  match e with Started _ => true | _ => false end.

(** At least one part has data. *)
Definition hasData (s : Session) : bool := existsb (fun p => 0 <? Written p) (Parts s).

(** What the join decided, for every concatenation and every saved sidecar
    of a run: whether it concatenated, totalWritten, ContentLength, and
    whether a part has data. *)
Definition decisions (ops : SessionOps) (evs : list RunEvent)
  : list (bool * Z * Z * bool) :=
  omap (fun e =>
          match e with
          | Concatenate s => Some (true, totalWritten ops s, ContentLength s, hasData s)
          | SaveState s _ => Some (false, totalWritten ops s, ContentLength s, hasData s)
          | _ => None
          end) evs.

(** The probe that observes a 200 at this step of the schedule, if the
    step is the first run of a probe and its response is a 200. *)
Definition observes (env : MirrorEnv) (cands : list string) (st : Mirror)
    (step : MirrorStep) : option nat :=
  match step with
  | Fetch i =>
      match cands !! i with
      | Some _ =>
          if bool_decide (i ∈ mRan st) then None
          else match fetch env i with
               | Some status => if status =? Http.StatusOK then Some i else None
               | None => None
               end
      | None => None
      end
  | _ => None
  end.

(** The first probe to observe a 200 along a schedule run from [st]. *)
Fixpoint winner (env : MirrorEnv) (cands : list string) (st : Mirror)
    (schedule : list MirrorStep) : option nat :=
  match schedule with
  | [] => None
  | step :: rest =>
      match observes env cands st step with
      | Some i => Some i
      | None => winner env cands (mirrorStep env cands st step) rest
      end
  end.

(** The errors of the shared context. *)
Definition contextError (e : option error) : Prop :=
  e = None \/ e = Some DeadlineExceeded \/ e = Some Canceled.

(** What holds of the race while [won] is the first probe that observed a
    200 so far: the channel holds its URL until the selector takes it; a
    selector that has selected holds that URL, or nothing after a context
    error; a selector that returned without error returned that URL. *)
Definition raceInv (cands : list string) (won : option nat) (st : Mirror) : Prop :=
  contextError (mCtx st) /\
  (forall i, won = Some i -> is_Some (cands !! i)) /\
  match mMain st with
  | Selecting => mFirst st = match won with Some i => cands !! i | None => None end
  | Selected best =>
      (best = "" /\ mCtx st <> None) \/ (exists i, won = Some i /\ cands !! i = Some best)
  | Returned best err =>
      ((best = "" /\ err <> None) \/ (exists i, won = Some i /\ cands !! i = Some best)) /\
      (err = None \/ err = Some (WithMessage DeadlineExceeded "bestMirror")
       \/ err = Some (WithMessage Canceled "bestMirror"))
  end.

(** What holds once the deadline fired on a live context: the context's
    error stays the deadline error, and so is the error of any return. *)
Definition expired (st : Mirror) : Prop :=
  mCtx st = Some DeadlineExceeded /\
  match mMain st with
  | Returned _ err => err = Some (WithMessage DeadlineExceeded "bestMirror")
  | _ => True
  end.

(** Before any 200 and without a cancellation: either nothing happened yet
    (the context is live, the selector waits, the channel is empty) or the
    deadline already fired. *)
Definition calm (st : Mirror) : Prop :=
  (mCtx st = None /\ mMain st = Selecting /\ mFirst st = None) \/ expired st.

(** A step that lets time pass for the selector: the deadline, a
    cancellation, or the selector's own return. *)
Definition untimely (step : MirrorStep) : bool :=
  match step with
  | Deadline | Cancel | Return => true
  | _ => false
  end.

(** [Exit]'s second case: the cause of the error is an [ExpectedError]. *)
Definition isExpected (e : error) : bool :=
  match Cause e with ExpectedError _ => true | _ => false end.

(** An error, if any, that is not an expected one. *)
Definition plain (err : option error) : Prop :=
  forall e, err = Some e -> isExpected e = false.

(** The errors of the outside world are plain: those of the body reads, of
    a worker's environment, of the resolver's, of the [Session] methods,
    and of everything [Run] asks. *)
Definition plainScript (script : list Http.ReadStep) : Prop :=
  forall data e wlimit, In (Http.CopyN data (Some e) wlimit) script -> isExpected e = false.

Definition plainDownload (d : DownloadEnv) : Prop :=
  plain (openErr d) /\
  (forall count e, doResult (attempts d count) = inl e -> isExpected e = false) /\
  (forall count resp script,
     doResult (attempts d count) = inr resp -> Http.Body resp = Some script ->
     plainScript script) /\
  (forall count, plain (waitErr d count)).

Definition plainFollow (f : FollowEnv) : Prop :=
  (forall url, plain (newRequest f url)) /\
  (forall i url e, clientDo f i url = inl e -> isExpected e = false) /\
  (forall i url resp,
     clientDo f i url = inr resp ->
     (forall e, Http.RespLocation resp = inl e -> isExpected e = false) /\
     plain (Http.BodyClose resp)).

Definition plainOps (ops : SessionOps) : Prop :=
  (forall fileName fs e, loadState ops fileName fs = inl e -> isExpected e = false) /\
  (forall s stateName fs, plain (saveState ops s stateName fs).1) /\
  (forall s fs, plain (removeFiles ops s fs).1) /\
  (forall s fs, plain (concatenateParts ops s fs).1).

Definition plainRun (env : RunEnv) : Prop :=
  (forall args e, parseArgs env args = inl e -> isExpected e = false) /\
  (forall e, readPassword env = inl e -> isExpected e = false) /\
  plain (inputErr env) /\
  plain (jarErr env) /\
  plainFollow (resolver env) /\
  (forall e, answer env = inl e -> isExpected e = false) /\
  (forall i, plainDownload (workers env i)).

(** * Scenarios

    Concrete inputs the statements below are run on. *)

Definition bytesOf (s : string) : list byte := String.list_byte_of_string s.

(** A response with [status], [Content-Length: length] and [body], read in
    one piece up to the end of the stream. *)
Definition respond (status length : Z) (body : string) : Http.Response :=
  {| Http.StatusCode := status;
     Http.Status := pretty status;
     Http.ContentLength := length;
     Http.HeaderGet := fun key => if String.eqb key "Accept-Ranges" then "bytes" else "";
     Http.RespLocation := inl (OtherError "http: no Location header in response");
     Http.Body := Some [Http.CopyN (bytesOf body) (Some EOF) None];
     Http.BodyClose := None |}.

(** The same response, redirecting to [location]. *)
Definition redirect (status : Z) (location : string) : Http.Response :=
  {| Http.StatusCode := status;
     Http.Status := pretty status;
     Http.ContentLength := 0;
     Http.HeaderGet := fun _ => "";
     Http.RespLocation := inr location;
     Http.Body := Some [];
     Http.BodyClose := None |}.

(** A part of five bytes, first of its session, with two retries allowed. *)
Definition part0 : Part :=
  {| FileName := "f.part0"; Start := 0; Stop := 4; Written := 0; Skip := false;
     Elapsed := 0; name := "P01"; order := 0; maxTry := 2; curTry := 0;
     quiet := false |}.

(** The second part of the same session. *)
Definition part1 : Part :=
  {| FileName := "f.part1"; Start := 5; Stop := 10; Written := 0; Skip := false;
     Elapsed := 0; name := "P02"; order := 1; maxTry := 2; curTry := 0;
     quiet := false |}.

(** A part whose range is complete. *)
Definition partDone : Part := setWritten part0 5.

Definition workerOf (p : Part) (file : string) : Worker :=
  {| wPart := p; wTotal := Int.add64 (Int.sub64 (Stop p) (Start p)) 1;
     wFile := bytesOf file; wGlobTry := 0; wTrace := [] |}.

(** An attempt the server answers with [resp]. *)
Definition answered (resp : Http.Response) : Attempt :=
  {| doResult := inr resp; lastWrite := None; since := 1 |}.

(** An attempt whose request fails. *)
Definition refused : Attempt :=
  {| doResult := inl (OtherError "dial tcp: connection refused");
     lastWrite := None; since := 1 |}.

(** A server that never answers, and nobody cancels. *)
Definition deadServer : DownloadEnv :=
  {| openErr := None; attempts := fun _ => refused; waitErr := fun _ => None |}.

(** A server that answers every request with [resp]. *)
Definition serving (resp : Http.Response) : DownloadEnv :=
  {| openErr := None; attempts := fun _ => answered resp; waitErr := fun _ => None |}.

(** A server that answers every URL with [resp]. *)
Definition origin (resp : Http.Response) : FollowEnv :=
  {| newRequest := fun _ => None; clientDo := fun _ _ => inr resp |}.

(** A server that redirects every URL to itself. *)
Definition redirectLoop : FollowEnv :=
  {| newRequest := fun _ => None; clientDo := fun _ url => inr (redirect 302 url) |}.

(** No Content-Disposition header; every URL names the file "f". *)
Definition noDisposition : string -> string := fun _ => "".
Definition fileF : string -> string := fun _ => "f".

(** The options of a run without flags, and with [--continue f.json]. *)
Definition defaults : Opts.Options :=
  {| Opts.Parts := 2; Opts.MaxRetry := 10; Opts.Timeout := 15;
     Opts.OutFileName := ""; Opts.JSONFileName := ""; Opts.UserAgent := "chrome";
     Opts.BestMirror := false; Opts.Quiet := false; Opts.AuthUser := "";
     Opts.AuthPass := ""; Opts.HeaderMap := Some ∅;
     Opts.InsecureSkipVerify := false; Opts.Debug := false; Opts.Version := false |}.

Definition continuing : Opts.Options :=
  {| Opts.Parts := 2; Opts.MaxRetry := 10; Opts.Timeout := 15;
     Opts.OutFileName := ""; Opts.JSONFileName := "f.json"; Opts.UserAgent := "chrome";
     Opts.BestMirror := false; Opts.Quiet := false; Opts.AuthUser := "";
     Opts.AuthPass := ""; Opts.HeaderMap := Some ∅;
     Opts.InsecureSkipVerify := false; Opts.Debug := false; Opts.Version := false |}.

(** A run with the options [o] (the arguments are taken as positional),
    against the server [server] for the resolver and [parts] for the
    workers; nobody cancels, and the prompt is answered "n". *)
Definition running (o : Opts.Options) (server : FollowEnv)
    (parts : nat -> DownloadEnv) : RunEnv :=
  {| parseArgs := fun args => inr (o, args);
     readPassword := inr "";
     stdin := "";
     inputErr := None;
     mirrors := {| mirrorRequest := fun _ => None; fetch := fun _ => None |};
     mirrorSchedule := [];
     jarErr := None;
     resolver := server;
     canceledAtResolve := false;
     answer := inr "n";
     workers := parts;
     finishOrder := [];
     canceledAtJoin := false |}.

(** The same run, with the user's interrupt seen after the join. *)
Definition interrupted (o : Opts.Options) (server : FollowEnv)
    (parts : nat -> DownloadEnv) : RunEnv :=
  {| parseArgs := fun args => inr (o, args);
     readPassword := inr "";
     stdin := "";
     inputErr := None;
     mirrors := {| mirrorRequest := fun _ => None; fetch := fun _ => None |};
     mirrorSchedule := [];
     jarErr := None;
     resolver := server;
     canceledAtResolve := true;
     answer := inr "n";
     workers := parts;
     finishOrder := [];
     canceledAtJoin := true |}.

(** The session of an interrupted download of 11 bytes in two parts, with
    digest "abc". *)
Definition savedSession : Session :=
  {| Location := "http://h/f"; SuggestedFileName := "f"; ContentMD5 := "abc";
     AcceptRanges := "bytes"; ContentType := ""; StatusCode := 200;
     ContentLength := 11; HeaderMap := Some ∅;
     Parts := [setWritten part0 2; part1] |}.

(** The [Session] methods after the spec, with a sidecar that decodes to
    [savedSession]. *)
Definition sessionOps : SessionOps := specSession (fun _ => []) (fun _ => Some savedSession).

(** Probes that all see status 200. *)
Definition allOK : MirrorEnv :=
  {| mirrorRequest := fun _ => None; fetch := fun _ => Some 200 |}.

(** Three mirrors of which only the second answers 200. *)
Definition secondOK : MirrorEnv :=
  {| mirrorRequest := fun _ => None;
     fetch := fun i => if Nat.eqb i 1 then Some 200 else Some 404 |}.

Definition newline : string := String (Ascii.ascii_of_nat 10) "".

Definition threeMirrors : string :=
  "# mirrors" +:+ newline +:+ "  http://a/f " +:+ newline +:+ newline +:+
  "http://b/f" +:+ newline +:+ "http://c/f".

(** * More of the code

    ** The worker: what the body delivers *)

(** The bytes the streaming loop takes from the body: those of every
    [io.CopyN] up to the end of the loop, which comes when the timer has
    fired, when the script ends, or with a read error that is not a
    temporary [*url.Error]; the bytes that came with the error count. *)
Fixpoint delivered (script : list Http.ReadStep) : list byte :=
  match script with
  | [] | Http.TimerFired :: _ => []
  | Http.CopyN data rerr _ :: rest =>
      match rerr with
      | None | Some (UrlError true _) => data ++ delivered rest
      | Some _ => data
      end
  end.

(** No response of the server has status 200: the worker never takes a
    response for the whole file. *)
Definition neverWhole (env : DownloadEnv) : Prop :=
  forall count resp,
    doResult (attempts env count) = inr resp -> Http.StatusCode resp <> Http.StatusOK.

(** A server that refuses the first request and answers the later ones
    with [resp]. *)
Definition flakyServer (resp : Http.Response) : DownloadEnv :=
  {| openErr := None;
     attempts := fun count => if count =? 0 then refused else answered resp;
     waitErr := fun _ => None |}.

(** A body that comes in two reads, the first with a temporary error and
    the second up to the end of the stream, into a file that takes three
    bytes at a time at first. *)
Definition haltingBody : list Http.ReadStep :=
  [Http.CopyN (bytesOf "hel") (Some (UrlError true "read: connection reset")) None;
   Http.CopyN (bytesOf "lo") None (Some 3%nat);
   Http.CopyN [] (Some EOF) None].

Definition haltingResponse : Http.Response :=
  {| Http.StatusCode := 206;
     Http.Status := "206 Partial Content";
     Http.ContentLength := 5;
     Http.HeaderGet := fun _ => "";
     Http.RespLocation := inl (OtherError "http: no Location header in response");
     Http.Body := Some haltingBody;
     Http.BodyClose := None |}.

(** Every request of a trace passes [check], which is given the number of
    requests and of bytes the trace holds before the request. *)
Fixpoint audited (check : nat -> nat -> string -> Z -> Prop) (n b : nat)
    (tr : list Event) : Prop :=
  match tr with
  | [] => True
  | EvRequest range deadline :: rest =>
      check n b range deadline /\ audited check (S n) b rest
  | EvWrite data :: rest => audited check n (b + length data) rest
  | _ :: rest => audited check n b rest
  end.

(** The part [p] with [b] more bytes written. *)
Definition advanced (p : Part) (b : nat) : Part :=
  setWritten p (Int.wrap64 (Written p + Z.of_nat b)).

(** What the retry loop keeps true of a worker that started from the part
    [p] with an empty trace: the deadlines double from request to request;
    and as long as no response is taken for the whole file, [Written] counts
    the bytes appended, and, for a part with a range, every request asks for
    the part from its first byte not written yet. *)
Definition tracked (env : DownloadEnv) (timeout : Z) (p : Part) (w : Worker) : Prop :=
  audited (fun n _ _ deadline => deadline = ctxTimeout timeout (Z.of_nat n)) 0 0 (wTrace w) /\
  Start (wPart w) = Start p /\
  (Int.in_int64 (Written p) -> Int.in_int64 (Written (wPart w))) /\
  (neverWhole env ->
   Int.wrap64 (Written (wPart w))
   = Int.wrap64 (Written p + Z.of_nat (length (appended (wTrace w)))) /\
   wTotal w = Int.add64 (Int.sub64 (Stop p) (Start p)) 1 /\
   (0 < Int.add64 (Int.sub64 (Stop p) (Start p)) 1 ->
    Stop (wPart w) = Stop p /\
    audited (fun _ b range _ => range = getRange (advanced p b)) 0 0 (wTrace w))).

(** A response 206 whose body breaks off after [body] with a read error. *)
Definition broken (body : string) : Http.Response :=
  {| Http.StatusCode := 206;
     Http.Status := "206 Partial Content";
     Http.ContentLength := 5;
     Http.HeaderGet := fun _ => "";
     Http.RespLocation := inl (OtherError "http: no Location header in response");
     Http.Body := Some [Http.CopyN (bytesOf body) (Some (OtherError "unexpected EOF")) None];
     Http.BodyClose := None |}.

(** A server whose first answer breaks off after two bytes and whose later
    answers bring the three that were missing. *)
Definition resumingServer : DownloadEnv :=
  {| openErr := None;
     attempts := fun count => if count =? 0 then answered (broken "he")
                              else answered (respond 206 3 "llo");
     waitErr := fun _ => None |}.

(** The error the streaming loop ends with: [err] is the callback's [err]
    when the loop starts on [script]. *)
Fixpoint ending (err : option error) (script : list Http.ReadStep) : option error :=
  match script with
  | [] | Http.TimerFired :: _ => err
  | Http.CopyN _ rerr _ :: rest =>
      match rerr with
      | None => ending None rest
      | Some (UrlError true _) => ending rerr rest
      | Some _ => rerr
      end
  end.

(** A server that serves the bytes [resource] of a part's range, one
    request after the other up to the request with count [last]: with
    [off count] bytes of the range on disk before the request, the request
    fails and nothing changes, or it is answered 206 with a body that
    delivers the bytes from [off count] up to [off (count + 1)]; the body
    ends with io.EOF exactly when the request is the last one, which brings
    the rest of the range; and nobody cancels while the worker waits. *)
Definition rangeServed (resource : list byte) (env : DownloadEnv) (off : Z -> nat)
    (last : Z) : Prop :=
  off (last + 1) = length resource /\
  forall count,
    0 <= count <= last ->
    (off count < length resource)%nat /\
    waitErr env count = None /\
    match doResult (attempts env count) with
    | inl _ => off (count + 1) = off count
    | inr resp =>
        Http.StatusCode resp = Http.StatusPartialContent /\
        lastWrite (attempts env count) = None /\
        exists script,
          Http.Body resp = Some script /\
          drop (off count) resource = delivered script ++ drop (off (count + 1)) resource /\
          off (count + 1) = (off count + length (delivered script))%nat /\
          (isEOF (ending None script) = true <-> count = last)
    end.

(** A server that answers with three bytes of the five asked for and ends
    the body as if it were complete. *)
Definition shortServer : DownloadEnv :=
  {| openErr := None;
     attempts := fun _ => answered (respond 206 3 "hel");
     waitErr := fun _ => None |}.

(** What a call of the callback does when it gets as far as the request. *)
Definition stepped (timeout : Z) (a : Attempt) (count : Z) (w : Worker)
    (retry : bool) (w' : Worker) : Prop :=
  exists pre post,
    wTrace w' = wTrace w ++ pre
                ++ EvRequest (getRange (wPart w)) (ctxTimeout timeout count) :: post /\
    silent pre /\ requests post = 0%nat /\
    Start (wPart w') = Start (wPart w) /\
    (Int.in_int64 (Written (wPart w)) -> Int.in_int64 (Written (wPart w'))) /\
    (retry = true -> isDone (wPart w') = false) /\
    ((forall resp, doResult a = inr resp -> Http.StatusCode resp <> Http.StatusOK) ->
     Int.wrap64 (Written (wPart w'))
     = Int.wrap64 (Written (wPart w) + Z.of_nat (length (appended post))) /\
     wTotal w' = wTotal w /\
     (0 < wTotal w -> Stop (wPart w') = Stop (wPart w))) /\
    (forall resp script,
       doResult a = inr resp ->
       Http.StatusCode resp = Http.StatusPartialContent
       \/ Http.StatusCode resp = Http.StatusOK /\ order (wPart w) = 0 ->
       Http.Body resp = Some script ->
       exists rest,
         wFile w' ++ rest = wFile w ++ delivered script /\
         (lastWrite a = None -> rest = [])).

(** ** The orchestrator: what a run shows *)

(** The indices, counted from [i], of the parts that are not done. *)
Fixpoint unfinished (i : nat) (parts : list Part) : list nat :=
  match parts with
  | [] => []
  | p :: rest => if isDone p then unfinished (S i) rest else i :: unfinished (S i) rest
  end.

(** The workers a run started, in the order of their start. *)
Definition startedWorkers (evs : list RunEvent) : list nat :=
  omap (fun e => match e with Started i => Some i | _ => None end) evs.

Definition isPrompt (e : RunEvent) : bool :=
  match e with Prompt _ => true | _ => false end.

(** The header map [Run] goes on with: the User-Agent of the options is
    filled in unless the map has one. *)
Definition withUserAgent (o : Opts.Options) (m : gmap string string)
  : gmap string string :=
  match m !! hUserAgentKey with
  | Some _ => m
  | None => <[hUserAgentKey := userAgents (Opts.UserAgent o)]> m
  end.

(** A session that was interrupted with both parts complete. *)
Definition completeSession : Session :=
  {| Location := "http://h/f"; SuggestedFileName := "f"; ContentMD5 := "";
     AcceptRanges := "bytes"; ContentType := ""; StatusCode := 200;
     ContentLength := 11; HeaderMap := Some ∅;
     Parts := [setWritten part0 5; setWritten part1 6] |}.

(** A response 200 of 11 bytes with the digest "abc". *)
Definition digested : Http.Response :=
  {| Http.StatusCode := 200;
     Http.Status := "200 OK";
     Http.ContentLength := 11;
     Http.HeaderGet := fun key => if String.eqb key "Content-MD5" then "abc"
                                  else if String.eqb key "Accept-Ranges" then "bytes"
                                  else "";
     Http.RespLocation := inl (OtherError "http: no Location header in response");
     Http.Body := Some [];
     Http.BodyClose := None |}.

(** ** Strings: the functions of package strings the code calls *)

(** [strings.HasPrefix(s, prefix)] *)
Fixpoint HasPrefix (s prefix : string) {struct prefix} : bool :=
  match prefix, s with
  | EmptyString, _ => true
  | String p prefix', String c s' => Ascii.eqb c p && HasPrefix s' prefix'
  | String _ _, EmptyString => false
  end.

(** [strings.Contains(s, substr)] *)
Fixpoint Contains (s substr : string) : bool :=
  HasPrefix s substr
  || match s with
     | EmptyString => false
     | String _ s' => Contains s' substr
     end.

(** [strings.Split(s, sep)] for a separator that is not empty, from left
    to right: [skip] bytes of the separator just found are still to pass.
    The first element of the result is the piece that is being read. *)
Fixpoint splitFrom (sep : string) (skip : nat) (s : string) : list string :=
  match s with
  | EmptyString => [EmptyString]
  | String c rest =>
      match skip with
      | S k => splitFrom sep k rest
      | O =>
          if HasPrefix s sep
          then EmptyString :: splitFrom sep (String.length sep - 1) rest
          else match splitFrom sep 0 rest with
               | piece :: pieces => String c piece :: pieces
               | [] => [String c EmptyString]
               end
      end
  end.

Definition Split (s sep : string) : list string := splitFrom sep 0 s.

(** [strings.SplitN(s, sep, 2)] for a separator of one byte, when it gives
    two pieces: what comes before the first separator and what comes after
    it.  [None] stands for the one piece of a string without separator. *)
Fixpoint cutAt (sep : ascii) (s : string) : option (string * string) :=
  match s with
  | EmptyString => None
  | String c rest =>
      if Ascii.eqb c sep then Some (EmptyString, rest)
      else match cutAt sep rest with
           | Some (before, after) => Some (String c before, after)
           | None => None
           end
  end.

(** ** The cookies of the Cookie header *)

Definition hCookie : string := "Cookie".

(** The cookies [follow] puts into the jar before its first request, as
    (Name, Value): the pieces of the Cookie header between "; ", each cut at
    its first "="; a piece without "=" is passed over. *)
Definition cookiePairs (hc : string) : list (string * string) :=
  omap (cutAt "=") (Split hc "; ").

Definition followCookies (headerMap : gmap string string) : list (string * string) :=
  match headerMap !! hCookie with
  | Some hc => cookiePairs hc
  | None => []
  end.

(** A Cookie header written from its cookies. *)
Fixpoint cookieHeader (cookies : list (string * string)) : string :=
  match cookies with
  | [] => ""
  | [(n, v)] => n +:+ "=" +:+ v
  | (n, v) :: rest => n +:+ "=" +:+ v +:+ "; " +:+ cookieHeader rest
  end.

(** Every byte of [s] is in [class]. *)
Fixpoint allOf (class : ascii -> bool) (s : string) : bool :=
  match s with
  | EmptyString => true
  | String c rest => class c && allOf class rest
  end.

(** No byte of [s] is [c]. *)
Definition without (c : ascii) (s : string) : bool :=
  allOf (fun d => negb (Ascii.eqb d c)) s.

(** The cookies a Cookie header can be written from: no name with "=" in
    it, no name and no value with ";" in it. *)
Definition plainCookie (cookie : string * string) : bool :=
  without ";" cookie.1 && without "=" cookie.1 && without ";" cookie.2.

(** ** The file name of a Content-Disposition header *)

Definition isQuote (c : ascii) : bool := (code c =? 39)%N || (code c =? 34)%N.

(** The regular expression [reContentDisposition] is
    filename N* = ( Q (.*?) Q | V* )
    where N is the class of the bytes other than semicolon, newline and the
    equals sign, V the class of the bytes other than semicolon and newline,
    Q the class of the single and the double quote, and the dot any byte
    but newline.  Its delimiters are ASCII, so matching bytes is matching
    runes. *)
Definition nameByte (c : ascii) : bool :=
  negb ((code c =? 59) || (code c =? 10) || (code c =? 61))%N.
Definition valueByte (c : ascii) : bool :=
  negb ((code c =? 59) || (code c =? 10))%N.
Definition anyByte (c : ascii) : bool := negb (code c =? 10)%N.

(** A greedy star over a class: the longest prefix in the class, and the
    rest. *)
Fixpoint span (class : ascii -> bool) (s : string) : string * string :=
  match s with
  | EmptyString => (EmptyString, EmptyString)
  | String c rest =>
      if class c then let '(taken, remains) := span class rest in (String c taken, remains)
      else (EmptyString, s)
  end.

(** The lazy star and the quote that closes it: the star stops at the
    first quote; with a newline or the end of the input before any quote
    there is no match.  The result is what the star took, the quote, and
    the rest. *)
Fixpoint spanQuoted (s : string) : option (string * ascii * string) :=
  match s with
  | EmptyString => None
  | String c rest =>
      if isQuote c then Some (EmptyString, c, rest)
      else if anyByte c then
        match spanQuoted rest with
        | Some (taken, q, remains) => Some (String c taken, q, remains)
        | None => None
        end
      else None
  end.

(** What follows [prefix] in [s], if [s] begins with it. *)
Fixpoint afterPrefix (s prefix : string) {struct prefix} : option string :=
  match prefix, s with
  | EmptyString, _ => Some s
  | String p prefix', String c s' => if Ascii.eqb c p then afterPrefix s' prefix' else None
  | String _ _, EmptyString => None
  end.

(** The groups 1 and 2 of the match of the regular expression that starts
    at the first byte of [s], and what follows the match.  After "filename"
    the greedy class runs up to the first ";", newline or "=", and the match
    goes on only if that byte is "=".  The engine prefers the first
    alternative of group 1, the quoted one; the second matches always. *)
Definition matchHere (s : string) : option (string * string * string) :=
  match afterPrefix s "filename" with
  | Some after =>
      match (span nameByte after).2 with
      | String eq value =>
          if (code eq =? 61)%N then
            let unquoted :=
              let '(taken, remains) := span valueByte value in (taken, EmptyString, remains) in
            match value with
            | String q inner =>
                if isQuote q then
                  match spanQuoted inner with
                  | Some (taken, q', remains) =>
                      Some (String q (taken +:+ String q' EmptyString), taken, remains)
                  | None => Some unquoted
                  end
                else Some unquoted
            | EmptyString => Some unquoted
            end
          else None
      | EmptyString => None
      end
  | None => None
  end.

(** [reContentDisposition.FindAllStringSubmatch(input, -1)]: the matches
    from left to right, none overlapping; [skip] bytes of the last match are
    still to pass. *)
Fixpoint findAllFrom (skip : nat) (s : string) : list (string * string) :=
  match s with
  | EmptyString => []
  | String _ rest =>
      match skip with
      | S k => findAllFrom k rest
      | O =>
          match matchHere s with
          | Some (g1, g2, remains) =>
              (g1, g2) :: findAllFrom (String.length s - String.length remains - 1) rest
          | None => findAllFrom 0 rest
          end
      end
  end.

Definition hexValue (c : ascii) : option N :=
  let n := code c in
  if ((48 <=? n) && (n <=? 57))%N then Some (n - 48)%N
  else if ((97 <=? n) && (n <=? 102))%N then Some (n - 97 + 10)%N
  else if ((65 <=? n) && (n <=? 70))%N then Some (n - 65 + 10)%N
  else None.

(** [url.QueryUnescape]: "%AB" is the byte 0xAB and "+" a space; [None]
    for the error of a "%" that two hexadecimal digits do not follow. *)
Fixpoint QueryUnescape (s : string) : option string :=
  match s with
  | EmptyString => Some EmptyString
  | String c rest =>
      if (code c =? 37)%N then
        match rest with
        | String h (String l rest') =>
            match hexValue h, hexValue l, QueryUnescape rest' with
            | Some a, Some b, Some t => Some (String (Ascii.ascii_of_N (16 * a + b)) t)
            | _, _, _ => None
            end
        | _ => None
        end
      else
        match QueryUnescape rest with
        | Some t => Some (String (if (code c =? 43)%N then " "%char else c) t)
        | None => None
        end
  end.

Definition dquote : ascii := Ascii.ascii_of_nat 34.

(** The string of two double quotes the loop compares with. *)
Definition twoQuotes : string := String dquote (String dquote EmptyString).

(** The loop of [parseContentDisposition] over the matches; the error of
    [url.QueryUnescape] is dropped and its empty result returned. *)
Fixpoint firstFileName (groups : list (string * string)) : string :=
  match groups with
  | [] => ""
  | (g1, g2) :: rest =>
      if negb (String.eqb g2 "") then g2
      else
        let split := Split g1 "'" in
        if (length split =? 3)%nat && String.eqb (ToLower (nth 0 split "")) "utf-8"
        then default "" (QueryUnescape (nth 2 split ""))
        else if negb (String.eqb (nth 0 split "") twoQuotes) then nth 0 split ""
        else firstFileName rest
  end.

(** [func parseContentDisposition(input string) string] *)
Definition parseContentDisposition (input : string) : string :=
  firstFileName (findAllFrom 0 input).

(** A byte of a file name that needs no quotes: no semicolon, no newline,
    no quote. *)
Definition tokenByte (c : ascii) : bool := valueByte c && negb (isQuote c).

(** What can follow an unquoted value: nothing, or a semicolon or a
    newline. *)
Definition endsValue (post : string) : bool :=
  match post with
  | EmptyString => true
  | String c _ => negb (valueByte c)
  end.

(** A byte between quotes: no newline and no quote. *)
Definition quotedByte (c : ascii) : bool := anyByte c && negb (isQuote c).

Definition squote : ascii := Ascii.ascii_of_nat 39.

(** A response 200 that names its file in a Content-Disposition header. *)
Definition attachment (header : string) : Http.Response :=
  {| Http.StatusCode := 200;
     Http.Status := "200 OK";
     Http.ContentLength := 11;
     Http.HeaderGet := fun key => if String.eqb key "Content-Disposition" then header else "";
     Http.RespLocation := inl (OtherError "http: no Location header in response");
     Http.Body := Some [];
     Http.BodyClose := None |}.

(** A server that redirects "http://h/old" to "http://h/new" and answers
    every other URL with [resp]. *)
Definition moved (resp : Http.Response) : FollowEnv :=
  {| newRequest := fun _ => None;
     clientDo := fun _ url =>
       inr (if String.eqb url "http://h/old" then redirect 302 "http://h/new" else resp) |}.

(** ** The lines of a text *)

(** What [readLines] makes of a piece of text between two newlines. *)
Definition keptLine (piece : string) : option string := keepLine (dropCR piece).

(** A piece the scanner's buffer has room for. *)
Definition scannable (piece : string) : bool :=
  (String.length piece <? MaxScanTokenSize)%nat.

(** ** The headers of a request *)

(** [func (cmd Cmd) applyHeaders(req *http.Request)]: [req.Header.Set] for
    every entry of the header map but the one under "Cookie".  [canonical]
    is textproto.CanonicalMIMEHeaderKey, which [Set] applies to the key, and
    [order] lists the entries in the order in which the range over the map
    visits them, which Go leaves open. *)
Definition applyHeaders (canonical : string -> string) (order : list (string * string))
    (header : gmap string (list string)) : gmap string (list string) :=
  foldl (fun h kv => if String.eqb kv.1 hCookie then h
                     else <[canonical kv.1 := [kv.2]]> h)
        header order.

(** * The prototype: main.go *)

Module Proto.

(** [type Part struct] *)
Record Part := {
  Name : string;
  Start : Z;
  Stop : Z;
  Done : bool
}.

(** The parts [main] makes for a resource of [contentLength] bytes, in the
    order of their keys in [al.Parts]; [totalParts] is 2 there.  [None] is
    the panic of an integer division by zero. *)
Definition planParts (contentLength : Z) (totalParts : nat) : option (list Part) :=
  if Nat.eqb totalParts 0 then None
  else
    let partSize := Int.wrap64 (Z.quot contentLength (Z.of_nat totalParts)) in
    Some (map (fun i : nat =>
                 let offset := Int.mul64 (Z.of_nat i) partSize in
                 {| Name := "test.tar.gz.part" +:+ pretty (Z.of_nat i);
                    Start := offset;
                    Stop := Int.sub64 (Int.add64 offset partSize) 1;
                    Done := false |})
              (seq 0 totalParts)).

(** The Range header [download] sends for a part. *)
Definition rangeOf (p : Part) : string :=
  "bytes=" +:+ pretty (Start p) +:+ "-" +:+ pretty (Stop p).

(** Byte [b] of the resource is in the range a part asks for. *)
Definition asksFor (p : Part) (b : Z) : Prop := Start p <= b <= Stop p.

End Proto.
(** * Properties *)

(** ** Machine integers *)

Lemma wrap64_id z : Int.in_int64 z -> Int.wrap64 z = z.
Proof.
  unfold Int.in_int64, Int.wrap64. intros Hz.
  rewrite Z.mod_small by lia. lia.
Qed.

Lemma wrap64_range z : Int.in_int64 (Int.wrap64 z).
Proof.
  unfold Int.in_int64, Int.wrap64.
  pose proof (Z.mod_pos_bound (z + 2 ^ 63) (2 ^ 64) ltac:(lia)). lia.
Qed.

Lemma wrap64_idem z : Int.wrap64 (Int.wrap64 z) = Int.wrap64 z.
Proof. apply wrap64_id, wrap64_range. Qed.

(** Addition under [wrap64] does not care whether an operand was wrapped. *)
Lemma wrap64_add_l a b : Int.wrap64 (Int.wrap64 a + b) = Int.wrap64 (a + b).
Proof.
  unfold Int.wrap64. f_equal.
  replace ((a + 2 ^ 63) mod 2 ^ 64 - 2 ^ 63 + b + 2 ^ 63)
    with ((a + 2 ^ 63) mod 2 ^ 64 + b) by lia.
  rewrite Zplus_mod_idemp_l. f_equal. lia.
Qed.

Lemma uwrap64_id z : Int.in_uint64 z -> Int.uwrap64 z = z.
Proof. unfold Int.in_uint64, Int.uwrap64. intros Hz. apply Z.mod_small. lia. Qed.

Lemma ushl64_one n : 0 <= n < 64 -> Int.ushl64 1 n = 2 ^ n.
Proof.
  intros Hn. unfold Int.ushl64.
  destruct (Z.ltb_spec n 64) as [_|]; [|lia].
  rewrite Z.shiftl_1_l. apply uwrap64_id. unfold Int.in_uint64.
  split; [apply Z.pow_nonneg; lia|].
  apply Z.pow_lt_mono_r; lia.
Qed.

(** ** The per-attempt deadline *)

(** Where nothing overflows the deadline is the capped exponential: for a
    retry, [timeout * 2^(count-1)] seconds, at most ten minutes. *)
Lemma ctxTimeout_retry_in_range (timeout count : Z) :
  0 <= timeout -> 1 <= count ->
  timeout * 2 ^ (count - 1) * Second < 2 ^ 63 ->
  ctxTimeout timeout count = Z.min (timeout * 2 ^ (count - 1) * Second) (10 * Minute).
Proof.
  intros Ht Hc Hfit. unfold ctxTimeout.
  destruct (Z.ltb_spec 0 count) as [_|]; [|lia].
  assert (Hpow : 0 < 2 ^ (count - 1)) by (apply Z.pow_pos_nonneg; lia).
  destruct (Z.eq_dec timeout 0) as [->|Hnz].
  - unfold Int.umul64, Int.mul64. rewrite Z.mul_0_r. cbn. reflexivity.
  - assert (Hsmall : 2 ^ (count - 1) < 2 ^ 63).
    { unfold Second in Hfit. nia. }
    assert (Hc64 : count - 1 < 63).
    { apply (Z.pow_lt_mono_r_iff 2); lia. }
    unfold Int.sub64. rewrite (wrap64_id (count - 1)) by (unfold Int.in_int64; lia).
    rewrite (uwrap64_id (count - 1)) by (unfold Int.in_uint64; lia).
    rewrite ushl64_one by lia.
    assert (Hprod : 0 <= 2 ^ (count - 1) * timeout < 2 ^ 63).
    { unfold Second in Hfit. nia. }
    unfold Int.umul64.
    rewrite (uwrap64_id (2 ^ (count - 1) * timeout)) by (unfold Int.in_uint64; lia).
    rewrite (wrap64_id (2 ^ (count - 1) * timeout)) by (unfold Int.in_int64; lia).
    unfold Int.mul64.
    rewrite wrap64_id by (unfold Int.in_int64, Second in *; nia).
    replace (2 ^ (count - 1) * timeout * Second)
      with (timeout * 2 ^ (count - 1) * Second) by ring.
    destruct (Z.ltb_spec (10 * Minute) (timeout * 2 ^ (count - 1) * Second)); lia.
Qed.

(** The first attempt waits [timeout] seconds, where that fits. *)
Lemma ctxTimeout_first_in_range (timeout : Z) :
  0 <= timeout -> timeout * Second < 2 ^ 63 ->
  ctxTimeout timeout 0 = timeout * Second.
Proof.
  intros Ht Hfit. unfold ctxTimeout. cbn [Z.ltb Z.compare].
  unfold Int.mul64.
  rewrite (wrap64_id timeout) by (unfold Int.in_int64, Second in *; lia).
  apply wrap64_id. unfold Int.in_int64, Second in *. lia.
Qed.

(** C8: for every attempt with count >= 1 the deadline is T * 2^(count-1)
    seconds capped at 10 minutes.  The code multiplies in 64 bits before it
    applies the cap: with the default T = 15 the product wraps at count 31,
    the deadline is negative and the cap never applies; at count 65 the
    shift itself gives 0. *)
Theorem ctxTimeout_overflow :
  ctxTimeout 15 30 = 10 * Minute /\
  ctxTimeout 15 31 = -2340616713709551616 /\
  ctxTimeout 15 31 <> Z.min (15 * 2 ^ (31 - 1) * Second) (10 * Minute) /\
  ctxTimeout 15 65 = 0.
Proof. repeat split; vm_compute; congruence. Qed.

(** ** Traces *)

Lemma requests_app (a b : list Event) : requests (a ++ b) = (requests a + requests b)%nat.
Proof. unfold requests. rewrite List.filter_app, length_app. reflexivity. Qed.

Lemma appended_app (a b : list Event) : appended (a ++ b) = appended a ++ appended b.
Proof. unfold appended. rewrite map_app, concat_app. reflexivity. Qed.


Lemma silent_nil : silent [].
Proof. split; reflexivity. Qed.

Lemma silent_flash msg final : silent [EvFlash msg final].
Proof. split; reflexivity. Qed.

Lemma silent_bar op : silent [EvBar op].
Proof. split; reflexivity. Qed.

Lemma silent_app a b : silent a -> silent b -> silent (a ++ b).
Proof.
  intros [Ha1 Ha2] [Hb1 Hb2]. split.
  - rewrite requests_app, Ha1, Hb1. reflexivity.
  - rewrite appended_app, Ha2, Hb2. reflexivity.
Qed.

Lemma silent_cons_bar op tr : silent tr -> silent (EvBar op :: tr).
Proof. intros H. apply (silent_app [_] tr); auto using silent_bar. Qed.

Create HintDb trace.
Global Hint Resolve silent_nil silent_flash silent_bar silent_app silent_cons_bar : trace.


Lemma sameButWritten_refl p : sameButWritten p p.
Proof. destruct p; reflexivity. Qed.

Lemma sameButWritten_set p q v : sameButWritten p q -> sameButWritten p (setWritten q v).
Proof. unfold sameButWritten. intros ->. destruct p; reflexivity. Qed.

Lemma sameButWritten_trans p q r :
  sameButWritten p q -> sameButWritten q r -> sameButWritten p r.
Proof. unfold sameButWritten. intros -> ->. destruct p; reflexivity. Qed.

(** ** The streaming loop *)


Lemma streamed_silent (s s' : Stream) (tr : list Event) :
  silent tr -> sTrace s' = sTrace s ++ tr -> sFile s' = sFile s ->
  sPart s' = sPart s -> streamed s s'.
Proof.
  intros [Hr Ha] Ht Hf Hp. exists tr.
  rewrite Ha, Hp, Hf, app_nil_r, Z.add_0_r.
  auto using sameButWritten_refl.
Qed.

Lemma streamed_trans (s1 s2 s3 : Stream) :
  streamed s1 s2 -> streamed s2 s3 -> streamed s1 s3.
Proof.
  intros (t1 & Ht1 & Hf1 & Hr1 & Hw1 & Hs1) (t2 & Ht2 & Hf2 & Hr2 & Hw2 & Hs2).
  exists (t1 ++ t2). rewrite Ht2, Ht1, Hf2, Hf1, appended_app, requests_app, Hr1, Hr2.
  rewrite !app_assoc. repeat split; try reflexivity.
  - rewrite Hw2. rewrite <- wrap64_add_l, Hw1, wrap64_add_l.
    f_equal. rewrite length_app. lia.
  - eauto using sameButWritten_trans.
Qed.

(** One [io.Copy(fpart, buf)] with the bookkeeping that follows it. *)
Lemma streamed_write (s s' : Stream) (wrote : list byte) (bar : list Event) :
  silent bar ->
  sTrace s' = sTrace s ++ [EvWrite wrote] ++ bar ->
  sFile s' = sFile s ++ wrote ->
  sPart s' = setWritten (sPart s) (Int.add64 (Written (sPart s)) (Z.of_nat (length wrote))) ->
  streamed s s'.
Proof.
  intros [Hr Ha] Ht Hf Hp. exists ([EvWrite wrote] ++ bar).
  rewrite Ht, Hf, Hp, appended_app, requests_app, Hr, Ha. cbn.
  rewrite !app_nil_r. repeat split; try reflexivity.
  unfold Int.add64. apply wrap64_idem.
Qed.

Lemma stream_streamed (total : Z) (script : list Http.ReadStep) :
  forall s : Stream, streamed s (stream total script s).
Proof.
  induction script as [|step rest IH]; intros s.
  - apply (streamed_silent _ _ [EvFlash "Timeout..." false]);
      [apply silent_flash | reflexivity ..].
  - destruct step as [|data rerr wlimit].
    + apply (streamed_silent _ _ [EvFlash "Timeout..." false]);
        [apply silent_flash | reflexivity ..].
    + destruct rerr as [e|].
      * destruct e;
          try (apply (streamed_silent _ _ []);
               [apply silent_nil | cbn; rewrite ?app_nil_r; reflexivity ..]).
        cbn [stream]. destruct temporary.
        -- eapply streamed_trans; [|apply IH].
           eapply streamed_silent; [apply silent_flash | reflexivity ..].
        -- eapply streamed_silent; [apply silent_flash | reflexivity ..].
      * cbn [stream fileCopy]. eapply streamed_trans; [|apply IH].
        eapply streamed_write; [|reflexivity ..].
        destruct (_ && _); eauto with trace.
Qed.

(** ** The retry callback *)


Lemma kept_refl p : kept p p.
Proof. repeat split. Qed.

Lemma kept_trans p q r : kept p q -> kept q r -> kept p r.
Proof. unfold kept. intuition congruence. Qed.

Lemma kept_sameButWritten p q : sameButWritten p q -> kept p q.
Proof. unfold sameButWritten. intros ->. repeat split. Qed.

Lemma sameButWritten_fields p q :
  sameButWritten p q -> kept p q /\ Skip q = Skip p /\ Stop q = Stop p.
Proof. unfold sameButWritten. intros ->. repeat split. Qed.


Lemma worked_refl n w : worked n w w.
Proof.
  exists []. rewrite !app_nil_r.
  split; [reflexivity|]. split; [reflexivity|]. split; [cbn; lia|apply kept_refl].
Qed.

Lemma worked_trans n m w1 w2 w3 :
  worked n w1 w2 -> worked m w2 w3 -> worked (n + m) w1 w3.
Proof.
  intros (t1 & Ht1 & Hf1 & Hr1 & Hk1) (t2 & Ht2 & Hf2 & Hr2 & Hk2).
  exists (t1 ++ t2). rewrite Ht2, Ht1, Hf2, Hf1, appended_app, requests_app, !app_assoc.
  split; [reflexivity|]. split; [reflexivity|]. split; [lia|].
  eauto using kept_trans.
Qed.

Lemma worked_le n m w w' : (n <= m)%nat -> worked n w w' -> worked m w w'.
Proof.
  intros Hle (tr & ? & ? & ? & ?). exists tr.
  split; [assumption|]. split; [assumption|]. split; [lia|assumption].
Qed.

Lemma worked_silent w w' tr :
  silent tr -> wTrace w' = wTrace w ++ tr -> wFile w' = wFile w ->
  kept (wPart w) (wPart w') -> worked 0 w w'.
Proof.
  intros [Hr Ha] Ht Hf Hk. exists tr. rewrite Ha, app_nil_r, Hr. auto.
Qed.

Lemma worked_request w w' range deadline :
  wTrace w' = wTrace w ++ [EvRequest range deadline] -> wFile w' = wFile w ->
  kept (wPart w) (wPart w') -> worked 1 w w'.
Proof.
  intros Ht Hf Hk. exists [EvRequest range deadline]. cbn. rewrite app_nil_r. auto.
Qed.

Lemma worked_elapse a w : worked 0 w (elapse a w).
Proof.
  apply (worked_silent _ _ []); [apply silent_nil | cbn; rewrite app_nil_r; reflexivity
                                | reflexivity | repeat split].
Qed.

(** The streaming phase on its own. *)
Lemma transfer_spec (a : Attempt) (iw : Z) (resp : Http.Response) (w : Worker) :
  forall retry err w', transfer a iw resp w = (retry, err, w') ->
  exists tr,
    wTrace w' = wTrace w ++ tr /\
    wFile w' = wFile w ++ appended tr /\
    requests tr = 0%nat /\
    wTotal w' = wTotal w /\
    wGlobTry w' = wGlobTry w /\
    kept (wPart w) (wPart w') /\
    Skip (wPart w') = Skip (wPart w) /\
    match Http.Body resp with
    | None => wPart w' = wPart w /\ retry = false /\ err = Some ErrNilBody
    | Some _ =>
        Written (wPart w')
        = Int.wrap64 (Written (wPart w) + Z.of_nat (length (appended tr))) /\
        Stop (wPart w')
        = (if wTotal w <=? 0 then Int.sub64 (Written (wPart w')) 1 else Stop (wPart w))
    end.
Proof.
  intros retry err w' H. unfold transfer in H.
  set (bar := if quiet (wPart w) then _ else _) in H.
  assert (Hbar : silent bar).
  { subst bar. destruct (quiet _); [apply silent_bar|].
    destruct (0 <? _); [|apply silent_nil].
    destruct (_ =? 0); eauto with trace. }
  clearbody bar. destruct Hbar as [Hbr Hba].
  destruct (Http.Body resp) as [script|].
  - cbn [emit wTotal wFile wTrace wPart wGlobTry] in H.
    match type of H with context [stream ?t ?sc ?s0] =>
      destruct (stream_streamed t sc s0) as (tr & Ht & Hf & Hr & Hw & Hs);
      set (s := stream t sc s0) in * end.
    cbn [sTrace sFile sPart] in Ht, Hf, Hw, Hs.
    cbn [fileCopy] in H.
    set (wrote := take _ (sBuf s)) in H.
    set (p1 := setWritten (sPart s) _) in H.
    set (p2 := if wTotal w <=? 0 then _ else p1) in H.
    assert (Hres : w' = {| wPart := p2; wTotal := wTotal w; wFile := sFile s ++ wrote;
                           wGlobTry := wGlobTry w;
                           wTrace := sTrace s ++ [EvWrite wrote] |}).
    { destruct (isEOF (sErr s)); congruence. }
    subst w'. cbn [wTrace wFile wTotal wGlobTry wPart].
    exists (bar ++ tr ++ [EvWrite wrote]).
    rewrite Ht, Hf, !appended_app, !requests_app, Hbr, Hba, Hr. cbn.
    rewrite !app_nil_r, <- !app_assoc.
    assert (Hp1 : sameButWritten (wPart w) p1).
    { subst p1. apply sameButWritten_set, Hs. }
    assert (Hwr : Written p1
                  = Int.wrap64 (Written (wPart w)
                                + Z.of_nat (length (appended tr ++ wrote)))).
    { subst p1. cbn. unfold Int.add64. rewrite <- wrap64_add_l, Hw, wrap64_add_l.
      f_equal. rewrite length_app. lia. }
    assert (Hp2 : kept (wPart w) p2 /\ Skip p2 = Skip (wPart w) /\ Written p2 = Written p1
                  /\ Stop p2 = if wTotal w <=? 0 then Int.sub64 (Written p2) 1
                               else Stop (wPart w)).
    { destruct (sameButWritten_fields _ _ Hp1) as (Hk1 & Hsk1 & Hst1).
      subst p2. destruct (wTotal w <=? 0).
      - cbn. repeat split; try apply Hk1. exact Hsk1.
      - repeat split; try apply Hk1; assumption. }
    destruct Hp2 as (Hk & Hsk & Hw2 & Hst).
    repeat split; try reflexivity; try apply Hk; try assumption.
    rewrite Hw2. exact Hwr.
  - inversion H; subst. exists bar. cbn. rewrite Hba, app_nil_r.
    repeat split; try reflexivity; assumption.
Qed.

(** The prologue of an attempt issues its one request and leaves the
    transfer state of the part alone. *)
Lemma announce_spec (timeout count : Z) (w : Worker) :
  worked 1 w (announce timeout count w) /\
  wFile (announce timeout count w) = wFile w /\
  wTotal (announce timeout count w) = wTotal w /\
  Stop (wPart (announce timeout count w)) = Stop (wPart w) /\
  Written (wPart (announce timeout count w)) = Written (wPart w) /\
  Skip (wPart (announce timeout count w)) = Skip (wPart w) /\
  exists pre, wTrace (announce timeout count w)
              = wTrace w ++ pre ++ [EvRequest (getRange (wPart w)) (ctxTimeout timeout count)]
              /\ silent pre.
Proof.
  unfold announce. destruct (0 <? count); cbn.
  - repeat split; try reflexivity.
    + exists [EvFlash "Retrying..." false; EvRequest (getRange (wPart w)) (ctxTimeout timeout count)].
      cbn. rewrite <- app_assoc, app_nil_r.
      split; [reflexivity|]. split; [reflexivity|]. split; [reflexivity|]. repeat split.
    + exists [EvFlash "Retrying..." false]. rewrite <- app_assoc.
      split; [reflexivity|apply silent_flash].
  - repeat split; try reflexivity.
    + exists [EvBar DecoratorAverageAdjust; EvRequest (getRange (wPart w)) (ctxTimeout timeout count)].
      cbn. rewrite <- app_assoc, app_nil_r.
      split; [reflexivity|]. split; [reflexivity|]. split; [reflexivity|]. repeat split.
    + exists [EvBar DecoratorAverageAdjust]. rewrite <- app_assoc.
      split; [reflexivity|apply silent_bar].
Qed.

Lemma transfer_worked (a : Attempt) (iw : Z) (resp : Http.Response) (w : Worker)
    retry err w' :
  transfer a iw resp w = (retry, err, w') -> worked 0 w w'.
Proof.
  intros H. destruct (transfer_spec _ _ _ _ _ _ _ H) as (tr & Ht & Hf & Hr & _ & _ & Hk & _).
  exists tr. rewrite Hr. auto.
Qed.

(** Every call of the callback issues at most one request and only appends
    to the segment file. *)
Lemma attempt_worked (timeout iw : Z) (a : Attempt) (count : Z) (w : Worker)
    retry err w' :
  attempt timeout iw a count w = (retry, err, w') -> worked 1 w w'.
Proof.
  unfold attempt. intros H.
  destruct (maxTry (wPart w) <? count).
  { inversion H; subst. apply worked_refl. }
  destruct (isDone (wPart w)).
  { inversion H; subst. apply worked_refl. }
  destruct (announce_spec timeout count w) as (Ha & _).
  set (w1 := announce timeout count w) in *. clearbody w1.
  assert (Hnext : forall r e w2, worked 0 w1 w2 -> (r, e, elapse a w2) = (retry, err, w')
                                 -> worked 1 w w').
  { intros r e w2 Hw Heq. inversion Heq; subst.
    apply (worked_trans 1 0 w w1); [assumption|].
    apply (worked_trans 0 0 w1 w2); [assumption|apply worked_elapse]. }
  destruct (doResult a) as [e|resp].
  { eapply Hnext; [apply worked_refl|exact H]. }
  cbv zeta in H.
  destruct (Http.StatusCode resp =? Http.StatusOK).
  - destruct (negb (order (wPart w1) =? 0)).
    + eapply Hnext; [|exact H].
      apply (worked_silent _ _ [EvBar (BarAbort true)]);
        [apply silent_bar | reflexivity | reflexivity | repeat split].
    + destruct (transfer a iw resp (adopt resp w1)) as [[r e] w2] eqn:Ht.
      eapply Hnext; [|exact H].
      apply (worked_trans 0 0 w1 (adopt resp w1)); [|eapply transfer_worked; eassumption].
      apply (worked_silent _ _ [EvBar (SetTotal (Http.ContentLength resp) false)]);
        [apply silent_bar | reflexivity | reflexivity | repeat split].
  - set (w2 := if _ || _ then _ else w1) in H.
    assert (Hw2 : worked 0 w1 w2).
    { subst w2. destruct (_ || _); [|apply worked_refl].
      apply (worked_silent _ _ [EvFlash (Http.Status resp) true]);
        [apply silent_flash | reflexivity | reflexivity | repeat split]. }
    clearbody w2.
    destruct (negb (Http.StatusCode resp =? Http.StatusPartialContent)).
    + eapply Hnext; [exact Hw2|exact H].
    + destruct (transfer a iw resp w2) as [[r e] w3] eqn:Ht.
      eapply Hnext; [|exact H].
      apply (worked_trans 0 0 w1 w2); [assumption|eapply transfer_worked; eassumption].
Qed.

(** ** The retry loop *)

Section RetryLoop.

Variable timeout iw : Z.
Variable atts : Z -> Attempt.
Variable wait : Z -> option error.

Let fn := fun count => attempt timeout iw (atts count) count.

(** From [count] on, the loop issues at most one request per count up to
    [maxTry]. *)
Lemma Retry_worked (fuel : nat) :
  forall count w err w',
  Retry fuel wait fn count w = Some (err, w') ->
  worked (Z.to_nat (maxTry (wPart w) + 1 - count)) w w'.
Proof.
  induction fuel as [|fuel IH]; intros count w err w' H; [discriminate|].
  cbn [Retry] in H. unfold fn in H at 1.
  destruct (attempt timeout iw (atts count) count w) as [[retry e] w1] eqn:Ha.
  pose proof (attempt_worked _ _ _ _ _ _ _ _ Ha) as Hw.
  unfold attempt in Ha.
  destruct (Z.ltb_spec (maxTry (wPart w)) count) as [Hgt|Hle].
  { inversion Ha; subst. inversion H; subst. apply worked_refl. }
  assert (Hk : maxTry (wPart w1) = maxTry (wPart w)).
  { destruct Hw as (_ & _ & _ & _ & Hk). apply Hk. }
  destruct retry.
  - destruct (wait count).
    + inversion H; subst. eapply worked_le; [|exact Hw]. lia.
    + apply IH in H. rewrite Hk in H.
      eapply worked_le; [|eapply worked_trans; [exact Hw|exact H]]. lia.
  - inversion H; subst. eapply worked_le; [|exact Hw]. lia.
Qed.

(** The loop ends: the call with a count beyond [maxTry] gives up. *)
Lemma Retry_returns (fuel : nat) :
  forall count w,
  (Z.to_nat (maxTry (wPart w) + 1 - count) < fuel)%nat ->
  exists r, Retry fuel wait fn count w = Some r.
Proof.
  induction fuel as [|fuel IH]; intros count w Hfuel; [lia|].
  cbn [Retry]. unfold fn at 1.
  destruct (attempt timeout iw (atts count) count w) as [[retry e] w1] eqn:Ha.
  pose proof (attempt_worked _ _ _ _ _ _ _ _ Ha) as Hw.
  destruct retry; [|eauto].
  destruct (wait count); [eauto|].
  apply IH.
  assert (Hk : maxTry (wPart w1) = maxTry (wPart w)).
  { destruct Hw as (_ & _ & _ & _ & Hk). apply Hk. }
  rewrite Hk. unfold attempt in Ha.
  destruct (Z.ltb_spec (maxTry (wPart w)) count) as [Hgt|Hle]; [discriminate|].
  lia.
Qed.

End RetryLoop.

(** ** One download *)

(** [download] returns; unless the segment file cannot be opened it issues
    at most [maxTry + 1] requests, and the segment file is what it was
    before followed by what the trace says was written (or is gone, for a
    skipped part). *)
Lemma download_spec (env : DownloadEnv) (timeout : Z) (p : Part) (fs : FS) (g : Z) :
  exists d,
    download env timeout p fs g = Some d /\
    match openErr env with
    | Some e =>
        d = {| dErr := Some (WithMessage e (name p)); dPart := p; dFS := fs;
               dGlobTry := g; dTrace := [] |}
    | None =>
        (requests (dTrace d) <= Z.to_nat (maxTry p + 1))%nat /\
        kept p (dPart d) /\
        dFS d = (if Skip (dPart d) then delete (FileName p) fs
                 else <[FileName p := default [] (fs !! FileName p) ++ appended (dTrace d)]> fs) /\
        (dErr d = Some (WithMessage ErrGiveUp (name p)) ->
         exists pre post, dTrace d = pre ++ EvFlash "give up!" true :: post /\ silent post)
    end.
Proof.
  unfold download. destruct (openErr env) as [e|]; [eauto|].
  set (w0 := {| wPart := p; wTotal := _; wFile := _; wGlobTry := g; wTrace := [] |}).
  destruct (Retry_returns timeout (Written p) (attempts env) (waitErr env)
              (retryFuel p) 0 w0) as ([err w1] & HR).
  { unfold retryFuel. cbn. rewrite Z.sub_0_r. lia. }
  rewrite HR.
  apply Retry_worked in HR. cbn [wPart w0] in HR. rewrite Z.sub_0_r in HR.
  destruct HR as (tr & Ht & Hf & Hr & Hk). cbn [wTrace wFile w0 wPart] in Ht, Hf, Hk.
  set (w2 := if isGiveUp err then _ else w1).
  set (w3 := match err with Some _ => _ | None => w2 end).
  assert (H2 : exists post2, wTrace w2 = tr ++ post2 /\ silent post2 /\
                 wPart w2 = wPart w1 /\ wFile w2 = wFile w1 /\
                 (isGiveUp err = true -> post2 = [EvFlash "give up!" true])).
  { subst w2. destruct (isGiveUp err).
    - exists [EvFlash "give up!" true]. cbn. rewrite Ht.
      repeat split; reflexivity.
    - exists []. rewrite app_nil_r. repeat split; try assumption; discriminate. }
  destruct H2 as (post2 & Ht2 & Hs2 & Hp2 & Hf2 & Hg2).
  assert (H3 : exists post3, wTrace w3 = tr ++ post2 ++ post3 /\ silent post3).
  { subst w3. destruct err as [e|].
    - rewrite Hp2. destruct (_ && _).
      + exists [EvBar (BarAbort false)]. cbn. rewrite Ht2, <- app_assoc.
        split; [reflexivity|apply silent_bar].
      + exists []. rewrite app_nil_r. split; [assumption|apply silent_nil].
    - exists []. rewrite app_nil_r. split; [assumption|apply silent_nil]. }
  destruct H3 as (post3 & Ht3 & Hs3).
  eexists. split; [reflexivity|]. cbn [dTrace dPart dFS dErr].
  rewrite Hp2, Hf2, Ht3, Hf.
  destruct Hs2 as [Hr2 Ha2], Hs3 as [Hr3 Ha3].
  rewrite !requests_app, !appended_app, Hr2, Hr3, Ha2, Ha3, !app_nil_r.
  split; [lia|]. split; [exact Hk|]. split; [reflexivity|].
  intros Herr. destruct Hk as (_ & Hn & _). rewrite Hn in Herr.
  assert (Hg : isGiveUp err = true).
  { destruct err as [e|]; [|discriminate]. cbn in Herr.
    inversion Herr; subst. reflexivity. }
  rewrite (Hg2 Hg). exists tr, post3. split; [reflexivity|split; assumption].
Qed.

Lemma isDone_ext (p q : Part) :
  Skip q = Skip p -> Stop q = Stop p -> Start q = Start p -> Written q = Written p ->
  isDone q = isDone p.
Proof. unfold isDone. intros -> -> -> ->. reflexivity. Qed.

(** When every request fails and nobody cancels, the loop goes through
    all the counts and gives up. *)
Lemma Retry_exhaust (timeout iw : Z) (atts : Z -> Attempt) (wait : Z -> option error)
    (fuel : nat) :
  (forall c, exists e, doResult (atts c) = inl e) ->
  (forall c, wait c = None) ->
  forall count w,
  isDone (wPart w) = false ->
  count <= maxTry (wPart w) + 1 ->
  (Z.to_nat (maxTry (wPart w) + 1 - count) < fuel)%nat ->
  exists w' tr,
    Retry fuel wait (fun c => attempt timeout iw (atts c) c) count w
    = Some (Some ErrGiveUp, w') /\
    wTrace w' = wTrace w ++ tr /\
    requests tr = Z.to_nat (maxTry (wPart w) + 1 - count) /\
    appended tr = [].
Proof.
  intros Hdo Hwait. induction fuel as [|fuel IH]; intros count w Hnd Hc Hfuel; [lia|].
  cbn [Retry]. unfold attempt at 1.
  destruct (Z.ltb_spec (maxTry (wPart w)) count) as [Hgt|Hle].
  - exists w, []. rewrite app_nil_r. replace (maxTry (wPart w) + 1 - count) with 0 by lia.
    repeat split; reflexivity.
  - rewrite Hnd. destruct (Hdo count) as [e He]. rewrite He, Hwait.
    destruct (announce_spec timeout count w)
      as (Hw & Hf & _ & Hst & Hwr & Hsk & pre & Htr & Hpre).
    set (w1 := elapse (atts count) (announce timeout count w)).
    assert (Hk : kept (wPart w) (wPart w1)).
    { destruct Hw as (_ & _ & _ & _ & Hk). destruct Hk as (? & ? & ? & ? & ? & ?).
      subst w1. cbn. repeat split; assumption. }
    assert (Hnd1 : isDone (wPart w1) = false).
    { rewrite <- Hnd. destruct Hk as (_ & _ & _ & _ & _ & Hsta).
      apply isDone_ext; [exact Hsk | exact Hst | exact Hsta | exact Hwr]. }
    destruct Hk as (Hm & _).
    destruct (IH (count + 1) w1 Hnd1) as (w' & tr & HR & Ht & Hr & Ha).
    { rewrite Hm. lia. }
    { rewrite Hm. lia. }
    exists w', (pre ++ [EvRequest (getRange (wPart w)) (ctxTimeout timeout count)] ++ tr).
    split; [exact HR|].
    destruct Hpre as [Hpr Hpa].
    rewrite Ht. subst w1. cbn [elapse withPart wTrace]. rewrite Htr.
    rewrite !requests_app, !appended_app, Hpr, Hpa, Hr, Ha, Hm, <- !app_assoc.
    cbn. repeat split; try reflexivity. lia.
Qed.

(** ** The done predicate *)

(** C6: a part is done iff [Skip] is set or [Written > Stop - Start]; and
    an attempt (a call of the callback within the retry budget) on a part
    that is already done issues no request and returns success at once: the
    callback returns [(false, nil)] and leaves the worker, its trace
    included, as it was.  So does a whole [download] of such a part. *)
Theorem done_part_returns_at_once (p : Part) :
  Int.in_int64 (Stop p - Start p) ->
  (isDone p = true <-> Skip p = true \/ Written p > Stop p - Start p) /\
  (isDone p = true ->
   (forall timeout iw a count w,
      wPart w = p -> count <= maxTry p ->
      attempt timeout iw a count w = (false, None, w)) /\
   (forall env timeout fs g,
      openErr env = None -> 0 <= maxTry p ->
      exists d, download env timeout p fs g = Some d /\
                dErr d = None /\ dPart d = p /\ dTrace d = [])).
Proof.
  intros Hfit.
  assert (Hiff : isDone p = true <-> Skip p = true \/ Written p > Stop p - Start p).
  { unfold isDone, Int.sub64. rewrite (wrap64_id _ Hfit).
    rewrite orb_true_iff, Z.ltb_lt. intuition lia. }
  split; [exact Hiff|]. intros Hdone. split.
  - intros timeout iw a count w Hw Hc. unfold attempt. rewrite Hw.
    destruct (Z.ltb_spec (maxTry p) count); [lia|]. rewrite Hdone. reflexivity.
  - intros env timeout fs g Hopen Hmax. unfold download. rewrite Hopen.
    unfold retryFuel. cbn [Retry]. unfold attempt at 1. cbn [wPart].
    destruct (Z.ltb_spec (maxTry p) 0); [lia|]. rewrite Hdone.
    eexists. split; [reflexivity|]. cbn. repeat split; reflexivity.
Qed.

(** The part of five bytes with all five written is done, the first call
    of the callback returns at once, and so does its download. *)
Lemma done_part_witness :
  isDone partDone = true /\
  attempt 15 5 refused 0 (workerOf partDone "hello") = (false, None, workerOf partDone "hello").
Proof.
  assert (Hfit : Int.in_int64 (Stop partDone - Start partDone))
    by (unfold Int.in_int64; cbn; lia).
  pose proof (done_part_returns_at_once partDone Hfit) as [Hiff Hgo].
  assert (Hdone : isDone partDone = true) by (apply Hiff; right; cbn; lia).
  split; [exact Hdone|].
  apply (proj1 (Hgo Hdone)); [reflexivity | cbn; lia].
Defined.

(** ** Give-up *)

(** C7: each part worker issues at most MaxRetry + 1 HTTP requests.  The
    callback called with a count beyond [maxTry] returns [ErrGiveUp] without
    touching the worker (so without a request); [download] always returns,
    with at most [maxTry + 1] requests in its trace; when its result is
    [ErrGiveUp] (annotated with the part's name) the final "give up!"
    message was flashed, with nothing but bar updates after it; and a worker
    all of whose requests fail does go through [maxTry + 1] requests and
    ends with [ErrGiveUp]. *)
Theorem give_up_after_max_retries (env : DownloadEnv) (timeout : Z) (p : Part)
    (fs : FS) (g : Z) :
  (forall iw a count w,
     maxTry (wPart w) < count ->
     attempt timeout iw a count w = (false, Some ErrGiveUp, w)) /\
  exists d,
    download env timeout p fs g = Some d /\
    (openErr env = None -> (requests (dTrace d) <= Z.to_nat (maxTry p + 1))%nat) /\
    (openErr env = None -> dErr d = Some (WithMessage ErrGiveUp (name p)) ->
     exists pre post, dTrace d = pre ++ EvFlash "give up!" true :: post /\ silent post) /\
    (openErr env = None ->
     (forall c, exists e, doResult (attempts env c) = inl e) ->
     (forall c, waitErr env c = None) ->
     isDone p = false -> 0 <= maxTry p ->
     dErr d = Some (WithMessage ErrGiveUp (name p)) /\
     requests (dTrace d) = Z.to_nat (maxTry p + 1)).
Proof.
  split.
  { intros iw a count w Hgt. unfold attempt.
    destruct (Z.ltb_spec (maxTry (wPart w)) count); [reflexivity|lia]. }
  destruct (download_spec env timeout p fs g) as (d & Hd & Hspec).
  exists d. split; [exact Hd|].
  split; [|split].
  - intros Hopen. rewrite Hopen in Hspec. apply Hspec.
  - intros Hopen. rewrite Hopen in Hspec. apply Hspec.
  - intros Hopen Hdo Hwait Hnd Hmax.
    unfold download in Hd. rewrite Hopen in Hd.
    set (w0 := {| wPart := p; wTotal := _; wFile := _; wGlobTry := g; wTrace := [] |}) in Hd.
    destruct (Retry_exhaust timeout (Written p) (attempts env) (waitErr env)
                (retryFuel p) Hdo Hwait 0 w0) as (w' & tr & HR & Ht & Hr & Ha).
    { exact Hnd. }
    { cbn. lia. }
    { unfold retryFuel. cbn. rewrite Z.sub_0_r. lia. }
    rewrite HR in Hd. cbn [isGiveUp] in Hd. inversion Hd; subst d; clear Hd.
    cbn [dErr dTrace].
    pose proof (Retry_worked _ _ _ _ _ _ _ _ _ HR) as (_ & _ & _ & _ & Hk).
    cbn [wPart w0 emit] in *. destruct Hk as (_ & Hn & _).
    rewrite Z.sub_0_r in Hr. split.
    + cbn. rewrite Hn. reflexivity.
    + destruct (_ && _); cbn [emit wTrace]; rewrite Ht; cbn [wTrace w0 app];
        rewrite !requests_app, Hr; cbn; lia.
Qed.

(** With two retries allowed and a server that refuses every connection,
    the worker makes three requests and gives up. *)
Lemma give_up_witness :
  exists d,
    download deadServer 15 part0 ∅ 0 = Some d /\
    dErr d = Some (WithMessage ErrGiveUp "P01") /\
    requests (dTrace d) = 3%nat.
Proof.
  destruct (give_up_after_max_retries deadServer 15 part0 ∅ 0)
    as (_ & d & Hd & _ & _ & Hex).
  exists d. split; [exact Hd|].
  apply Hex; [reflexivity | intros c; eexists; reflexivity | reflexivity
              | reflexivity | cbn; lia].
Defined.

(** ** The status switch *)

Lemma attempt_answered (timeout iw : Z) (a : Attempt) (count : Z) (w : Worker)
    (resp : Http.Response) :
  count <= maxTry (wPart w) -> isDone (wPart w) = false -> doResult a = inr resp ->
  attempt timeout iw a count w
  = let w1 := announce timeout count w in
    let '(retry, err, w2) :=
      if Http.StatusCode resp =? Http.StatusOK then
        if negb (order (wPart w1) =? 0) then
          (false, None,
           emit (withPart w1 (setSkip (wPart w1) true)) [EvBar (BarAbort true)])
        else transfer a iw resp (adopt resp w1)
      else
        let w2 :=
          if (Http.StatusCode resp =? Http.StatusForbidden)
             || (Http.StatusCode resp =? Http.StatusTooManyRequests)
          then emit w1 [EvFlash (Http.Status resp) true]
          else w1 in
        if negb (Http.StatusCode resp =? Http.StatusPartialContent) then
          (false, Some (Errorf "unexpected status: %s" [AStr (Http.Status resp)]), w2)
        else transfer a iw resp w2 in
    (retry, err, elapse a w2).
Proof.
  intros Hc Hnd Hdo. unfold attempt.
  destruct (Z.ltb_spec (maxTry (wPart w)) count); [lia|].
  rewrite Hnd, Hdo. reflexivity.
Qed.

(** Part 0 answered 200: the state the response is adopted in, and the
    transfer that follows from it. *)
Lemma attempt_adopts (timeout iw : Z) (a : Attempt) (count : Z) (w : Worker)
    (resp : Http.Response) :
  count <= maxTry (wPart w) ->
  isDone (wPart w) = false ->
  doResult a = inr resp ->
  Http.StatusCode resp = 200 -> order (wPart w) = 0 ->
  let w1 := announce timeout count w in
  let result := attempt timeout iw a count w in
  wTotal (adopt resp w1) = Http.ContentLength resp /\
  Stop (wPart (adopt resp w1)) = Int.sub64 (Http.ContentLength resp) 1 /\
  (Int.in_int64 (Http.ContentLength resp - 1) ->
   Stop (wPart (adopt resp w1)) = Http.ContentLength resp - 1) /\
  Written (wPart (adopt resp w1)) = 0 /\
  wFile (adopt resp w1) = wFile w /\
  result = (let '(retry, err, w2) := transfer a iw resp (adopt resp w1) in
            (retry, err, elapse a w2)) /\
  wTotal result.2 = Http.ContentLength resp /\
  (Http.Body resp <> None ->
   exists new,
     wFile result.2 = wFile w ++ new /\
     Written (wPart result.2) = Int.wrap64 (Z.of_nat (length new))).
Proof.
  intros Hc Hnd Hdo H200 H0 w1 result.
  pose proof (attempt_answered timeout iw a count w resp Hc Hnd Hdo) as Heq.
  fold w1 in Heq. fold result in Heq. cbv zeta in Heq.
  destruct (announce_spec timeout count w)
    as (Hw1 & Hf1 & Ht1 & Hst1 & Hwr1 & Hsk1 & _).
  fold w1 in Hw1, Hf1, Ht1, Hst1, Hwr1, Hsk1.
  assert (Hord : order (wPart w1) = order (wPart w)).
  { destruct Hw1 as (_ & _ & _ & _ & Hk). apply Hk. }
  rewrite H200, Hord, H0 in Heq. cbn [Z.eqb Http.StatusOK negb Pos.eqb] in Heq.
  split; [reflexivity|]. split; [reflexivity|].
  split; [intros Hfit; cbn; unfold Int.sub64; apply wrap64_id; exact Hfit|].
  split; [reflexivity|]. split; [exact Hf1|]. split; [exact Heq|].
  destruct (transfer a iw resp (adopt resp w1)) as [[retry err] w2] eqn:Ht.
  rewrite Heq. cbn [snd elapse withPart wTotal wFile wPart setElapsed Written].
  destruct (transfer_spec _ _ _ _ _ _ _ Ht)
    as (tr & _ & Hf & _ & Htot & _ & _ & _ & Hbody).
  split; [exact Htot|].
  intros Hb. destruct (Http.Body resp); [|congruence].
  exists (appended tr). cbn [adopt wFile] in Hf. rewrite Hf, Hf1.
  split; [reflexivity|]. apply Hbody.
Qed.

(** C4: what an attempt does with the status of the response.  On 200 the
    worker of part 0 adopts the response (total := ContentLength,
    Stop := total - 1, Written := 0, the segment file as it is) and goes on
    to stream the body from that state; a worker of another part sets Skip
    and returns success; a status that is neither 200 nor 206 ends the
    attempt with "unexpected status" and no retry, the part's transfer state
    and the segment file untouched. *)
Theorem status_switch (timeout iw : Z) (a : Attempt) (count : Z) (w : Worker)
    (resp : Http.Response) :
  count <= maxTry (wPart w) ->
  isDone (wPart w) = false ->
  doResult a = inr resp ->
  let w1 := announce timeout count w in
  let result := attempt timeout iw a count w in
  (Http.StatusCode resp = 200 -> order (wPart w) = 0 ->
   wTotal (adopt resp w1) = Http.ContentLength resp /\
   Stop (wPart (adopt resp w1)) = Int.sub64 (Http.ContentLength resp) 1 /\
   (Int.in_int64 (Http.ContentLength resp - 1) ->
    Stop (wPart (adopt resp w1)) = Http.ContentLength resp - 1) /\
   Written (wPart (adopt resp w1)) = 0 /\
   wFile (adopt resp w1) = wFile w /\
   result = (let '(retry, err, w2) := transfer a iw resp (adopt resp w1) in
             (retry, err, elapse a w2)) /\
   wTotal result.2 = Http.ContentLength resp /\
   (Http.Body resp <> None ->
    exists new,
      wFile result.2 = wFile w ++ new /\
      Written (wPart result.2) = Int.wrap64 (Z.of_nat (length new)))) /\
  (Http.StatusCode resp = 200 -> order (wPart w) <> 0 ->
   result.1 = (false, None) /\
   Skip (wPart result.2) = true /\
   wFile result.2 = wFile w) /\
  (Http.StatusCode resp <> 200 -> Http.StatusCode resp <> 206 ->
   result.1 = (false, Some (Errorf "unexpected status: %s" [AStr (Http.Status resp)])) /\
   wFile result.2 = wFile w /\
   Written (wPart result.2) = Written (wPart w) /\
   Stop (wPart result.2) = Stop (wPart w) /\
   Skip (wPart result.2) = Skip (wPart w)).
Proof.
  intros Hc Hnd Hdo w1 result.
  pose proof (attempt_answered timeout iw a count w resp Hc Hnd Hdo) as Heq.
  fold w1 in Heq. fold result in Heq. cbv zeta in Heq.
  destruct (announce_spec timeout count w)
    as (Hw1 & Hf1 & Ht1 & Hst1 & Hwr1 & Hsk1 & _).
  fold w1 in Hw1, Hf1, Ht1, Hst1, Hwr1, Hsk1.
  assert (Hord : order (wPart w1) = order (wPart w)).
  { destruct Hw1 as (_ & _ & _ & _ & Hk). apply Hk. }
  split; [|split].
  - intros H200 H0.
    exact (attempt_adopts timeout iw a count w resp Hc Hnd Hdo H200 H0).
  - intros H200 Hn0.
    rewrite H200, Hord in Heq. cbn [Z.eqb Http.StatusOK Pos.eqb] in Heq.
    destruct (Z.eqb_spec (order (wPart w)) 0); [contradiction|].
    cbn [negb] in Heq. rewrite Heq. cbn. auto.
  - intros Hn200 Hn206.
    destruct (Z.eqb_spec (Http.StatusCode resp) Http.StatusOK); [contradiction|].
    destruct (Z.eqb_spec (Http.StatusCode resp) Http.StatusPartialContent); [contradiction|].
    cbn [negb] in Heq. rewrite Heq.
    destruct (_ || _); cbn; auto.
Qed.

(** Part 0, asking for bytes 0-4, is answered 200 with the whole file of 11
    bytes: the attempt takes all 11. *)
Lemma status_switch_witness :
  Written (wPart (attempt 15 0 (answered (respond 200 11 "hello world")) 0
                          (workerOf part0 "")).2) = 11 /\
  Stop (wPart (attempt 15 0 (answered (respond 200 11 "hello world")) 0
                       (workerOf part0 "")).2) = 10.
Proof.
  pose proof (status_switch 15 0 (answered (respond 200 11 "hello world")) 0
                (workerOf part0 "") (respond 200 11 "hello world")
                ltac:(cbn; lia) eq_refl eq_refl) as (Hadopt & _ & _).
  destruct (Hadopt eq_refl eq_refl) as (_ & _ & _ & _ & _ & Heq & _).
  rewrite Heq. vm_compute. split; reflexivity.
Defined.

(** ** The segment file *)

(** C10: within one [download] the segment file, opened once with
    O_APPEND|O_CREATE|O_WRONLY, is only ever appended to.  The streaming
    loop and every call of the callback leave the file as it was followed
    by the bytes of their writes, in order; at the end of [download] the
    file holds what it held before (nothing, if it did not exist) followed
    by all the bytes written, unless the part is skipped and the file
    removed, and no other file changed; and a 200 adoption by part 0
    restarts [Written] from 0 while the file keeps its earlier content:
    [Written] counts the bytes of this attempt only. *)
Theorem segment_append_only (env : DownloadEnv) (timeout : Z) (p : Part)
    (fs : FS) (g : Z) :
  (forall total script s,
     exists tr,
       sTrace (stream total script s) = sTrace s ++ tr /\
       sFile (stream total script s) = sFile s ++ appended tr) /\
  (forall iw a count w,
     exists tr,
       wTrace (attempt timeout iw a count w).2 = wTrace w ++ tr /\
       wFile (attempt timeout iw a count w).2 = wFile w ++ appended tr) /\
  (exists d,
     download env timeout p fs g = Some d /\
     (openErr env = None ->
      dFS d !! FileName p
      = (if Skip (dPart d) then None
         else Some (default [] (fs !! FileName p) ++ appended (dTrace d)))) /\
     (forall other, other <> FileName p -> dFS d !! other = fs !! other)) /\
  (forall iw a count w resp,
     count <= maxTry (wPart w) -> isDone (wPart w) = false ->
     doResult a = inr resp -> Http.StatusCode resp = 200 -> order (wPart w) = 0 ->
     Http.Body resp <> None ->
     exists new,
       wFile (attempt timeout iw a count w).2 = wFile w ++ new /\
       Written (wPart (attempt timeout iw a count w).2)
       = Int.wrap64 (Z.of_nat (length new))).
Proof.
  split; [|split; [|split]].
  - intros total script s.
    destruct (stream_streamed total script s) as (tr & Ht & Hf & _). eauto.
  - intros iw a count w.
    destruct (attempt timeout iw a count w) as [[retry err] w'] eqn:Ha.
    destruct (attempt_worked _ _ _ _ _ _ _ _ Ha) as (tr & Ht & Hf & _). eauto.
  - destruct (download_spec env timeout p fs g) as (d & Hd & Hspec).
    exists d. split; [exact Hd|]. destruct (openErr env) as [e|].
    + subst d. split; [discriminate|]. reflexivity.
    + destruct Hspec as (_ & _ & Hfs & _). rewrite Hfs. split.
      * intros _. destruct (Skip (dPart d)).
        -- apply lookup_delete_eq.
        -- apply lookup_insert_eq.
      * intros other Hne. destruct (Skip (dPart d)).
        -- apply lookup_delete_ne. congruence.
        -- apply lookup_insert_ne. congruence.
  - intros iw a count w resp Hc Hnd Hdo H200 H0 Hbody.
    pose proof (attempt_adopts timeout iw a count w resp Hc Hnd Hdo H200 H0) as Hs.
    cbv zeta in Hs. destruct Hs as (_ & _ & _ & _ & _ & _ & _ & Hnew).
    exact (Hnew Hbody).
Qed.

(** Part 0 resumes with three bytes on disk and is answered 200 with the
    whole file: the three bytes stay in front of the eleven new ones, and
    [Written] is eleven. *)
Lemma segment_append_witness :
  wFile (attempt 15 3 (answered (respond 200 11 "hello world")) 0
                 (workerOf (setWritten part0 3) "hel")).2
  = bytesOf "hel" ++ bytesOf "hello world" /\
  Written (wPart (attempt 15 3 (answered (respond 200 11 "hello world")) 0
                          (workerOf (setWritten part0 3) "hel")).2) = 11.
Proof.
  destruct (segment_append_only deadServer 15 part0 ∅ 0) as (_ & _ & _ & Hadopt).
  destruct (Hadopt 3 (answered (respond 200 11 "hello world")) 0
              (workerOf (setWritten part0 3) "hel") (respond 200 11 "hello world")
              ltac:(cbn; lia) eq_refl eq_refl eq_refl eq_refl ltac:(discriminate))
    as (new & Hfile & Hwritten).
  split.
  - vm_compute. reflexivity.
  - vm_compute. reflexivity.
Defined.

(** ** The resolver *)

Section ResolverProperties.

Variable parseContentDisposition : string -> string.
Variable urlBaseName : string -> string.
Variable env : FollowEnv.
Variable outFileName : string.

Let loop := followLoop parseContentDisposition urlBaseName env outFileName.

Lemma isRedirect_iff (status : Z) : isRedirect status = true <-> 300 <= status <= 399.
Proof. unfold isRedirect. rewrite andb_true_iff, !Z.ltb_lt. lia. Qed.

(** The loop ends at the terminal response, with a session for status 200
    and with "unexpected status" for any other. *)
Lemma followLoop_terminal (fuel : nat) :
  forall i userUrl redirected u resp,
  terminal env fuel i userUrl = Some (u, resp) ->
  exists r,
    loop fuel i userUrl redirected
    = if Http.StatusCode resp =? Http.StatusOK then
        (Some {| Location := u;
                 SuggestedFileName :=
                   suggestedName parseContentDisposition urlBaseName outFileName resp u;
                 ContentMD5 := Http.HeaderGet resp "Content-MD5";
                 AcceptRanges := Http.HeaderGet resp "Accept-Ranges";
                 ContentType := Http.HeaderGet resp "Content-Type";
                 StatusCode := Http.StatusCode resp;
                 ContentLength := Http.ContentLength resp;
                 HeaderMap := None;
                 Parts := [] |},
         Http.BodyClose resp, r)
      else
        (None, Some (Errorf "unexpected status: %s" [AStr (Http.Status resp)]), r).
Proof.
  unfold loop.
  induction fuel as [|fuel IH]; intros i userUrl redirected u resp H; [discriminate|].
  cbn [terminal] in H. cbn [followLoop].
  destruct (newRequest env userUrl); [discriminate|].
  destruct (clientDo env i userUrl) as [e|r0]; [discriminate|].
  destruct (isRedirect (Http.StatusCode r0)).
  - destruct (Http.RespLocation r0) as [e|loc]; [discriminate|].
    apply IH. exact H.
  - inversion H; subst. exists redirected.
    destruct (Http.StatusCode resp =? Http.StatusOK); reflexivity.
Qed.

(** Without a terminal response the loop gives no session; it ends
    without an error of its own only when the requests ran out, and then,
    if it made any, after a redirect. *)
Lemma followLoop_no_terminal (fuel : nat) :
  forall i userUrl redirected,
  terminal env fuel i userUrl = None ->
  exists err r,
    loop fuel i userUrl redirected = (None, err, r) /\
    (err = None -> r = true \/ (fuel = O /\ r = redirected)).
Proof.
  unfold loop.
  induction fuel as [|fuel IH]; intros i userUrl redirected H.
  { exists None, redirected. cbn. auto. }
  cbn [terminal] in H. cbn [followLoop].
  destruct (newRequest env userUrl) as [e|].
  { exists (Some e), redirected. split; [reflexivity|discriminate]. }
  destruct (clientDo env i userUrl) as [e|r0].
  { exists (Some e), redirected. split; [reflexivity|discriminate]. }
  destruct (isRedirect (Http.StatusCode r0)); [|discriminate].
  destruct (Http.RespLocation r0) as [e|loc].
  { exists (Some e), true. split; [reflexivity|discriminate]. }
  destruct (IH (S i) loc true H) as (err & r & Heq & Hr).
  exists err, r. split; [exact Heq|].
  intros He. destruct (Hr He) as [->|[_ ->]]; auto.
Qed.

(** C5, as the code has it: a status is a redirect iff 300 <= status <= 399;
    when the redirect chain ends at a terminal response, [follow] fails with
    "unexpected status" exactly when that response's status is not 200, and
    produces a session exactly when it is 200, the session carrying the
    final URL and the response's status, length and digest; when the chain
    does not end at a response, [follow] fails with another error, the one
    of the request that failed or the expected "maximum number of redirects"
    error. *)
Theorem follow_terminal_status (userUrl : string) :
  let result := follow parseContentDisposition urlBaseName env outFileName userUrl in
  (forall status, isRedirect status = true <-> 300 <= status <= 399) /\
  (forall u resp,
     terminal env maxRedirects 0 userUrl = Some (u, resp) ->
     (Http.StatusCode resp <> 200 <-> result = (None, Some (unexpectedStatus resp))) /\
     (Http.StatusCode resp = 200 <->
      exists session,
        result = (Some session, withMessage (Http.BodyClose resp) "follow") /\
        Location session = u /\
        StatusCode session = 200 /\
        ContentLength session = Http.ContentLength resp /\
        ContentMD5 session = Http.HeaderGet resp "Content-MD5")) /\
  (terminal env maxRedirects 0 userUrl = None ->
   exists err, result = (None, Some (WithMessage err "follow"))).
Proof.
  intros result. split; [exact isRedirect_iff|]. split.
  - intros u resp Hterm.
    destruct (followLoop_terminal maxRedirects 0 userUrl false u resp Hterm) as [r Hloop].
    unfold result, follow. fold loop. rewrite Hloop.
    destruct (Z.eqb_spec (Http.StatusCode resp) Http.StatusOK) as [H200|Hn200].
    + split.
      * split; [intros Hn; contradiction|].
        intros Heq. exfalso.
        rewrite andb_false_r in Heq. cbn in Heq. discriminate.
      * split; [|intros _; exact H200].
        intros _. eexists. split.
        -- rewrite bool_decide_eq_true_2 by eauto. rewrite andb_false_r. reflexivity.
        -- cbn. auto.
    + split.
      * split; [|intros _; exact Hn200].
        intros _. cbn. rewrite andb_false_r. reflexivity.
      * split; [intros H; contradiction|].
        intros (session & Heq & _). cbn in Heq. rewrite andb_false_r in Heq.
        discriminate.
  - intros Hterm.
    destruct (followLoop_no_terminal maxRedirects 0 userUrl false Hterm)
      as (err & r & Hloop & Hr).
    unfold result, follow. fold loop. rewrite Hloop.
    destruct err as [e|].
    + exists e. rewrite andb_false_r. reflexivity.
    + destruct (Hr eq_refl) as [->|[Hfuel _]]; [|discriminate].
      eexists. reflexivity.
Qed.

(** Redirects without end: after [maxRedirects] requests [follow] gives the
    expected "maximum number of redirects" error. *)
Lemma follow_redirects_without_end (userUrl : string) :
  (forall url, newRequest env url = None) ->
  (forall i url, exists resp loc,
      clientDo env i url = inr resp /\
      isRedirect (Http.StatusCode resp) = true /\
      Http.RespLocation resp = inr loc) ->
  follow parseContentDisposition urlBaseName env outFileName userUrl
  = (None, Some tooManyRedirects).
Proof.
  intros Hreq Hdo.
  assert (Hloop : forall fuel i url, loop (S fuel) i url false = (None, None, true)
                                     /\ loop (S fuel) i url true = (None, None, true)).
  { unfold loop. induction fuel as [|fuel IH]; intros i url.
    - cbn [followLoop]. rewrite Hreq.
      destruct (Hdo i url) as (resp & loc & -> & -> & ->). auto.
    - remember (S fuel) as n. cbn [followLoop]. rewrite Hreq.
      destruct (Hdo i url) as (resp & loc & -> & -> & ->).
      split; apply IH. }
  unfold follow. fold loop. unfold maxRedirects.
  rewrite (proj1 (Hloop _ 0%nat userUrl)). reflexivity.
Qed.

End ResolverProperties.

(** A server that answers 200: the redirect chain ends at once, and
    [follow] gives the session of that response. *)
Lemma follow_terminal_witness :
  exists session,
    follow noDisposition fileF (origin (respond 200 11 "")) "" "http://h/f"
    = (Some session, None) /\
    Location session = "http://h/f" /\ ContentLength session = 11.
Proof.
  destruct (follow_terminal_status noDisposition fileF (origin (respond 200 11 "")) ""
              "http://h/f") as (_ & Hterm & _).
  destruct (Hterm "http://h/f" (respond 200 11 "") eq_refl) as (_ & H200).
  destruct (proj1 H200 eq_refl) as (session & Heq & Hloc & _ & Hlen & _).
  exists session. auto.
Defined.

(** C5 as stated fails on a 2xx terminal response other than 200: the
    server answers 204, and [follow] fails with "unexpected status" and gives
    no session. *)
Lemma follow_rejects_204 :
  terminal (origin (respond 204 0 "")) maxRedirects 0 "http://h/f"
  = Some ("http://h/f", respond 204 0 "") /\
  200 <= Http.StatusCode (respond 204 0 "") <= 299 /\
  follow noDisposition fileF (origin (respond 204 0 "")) "" "http://h/f"
  = (None, Some (WithMessage (Errorf "unexpected status: %s" [AStr "204"]) "follow")).
Proof.
  split; [reflexivity|]. split; [cbn; lia|]. reflexivity.
Qed.

(** ** Exit codes *)

Lemma exitCode_withMessage (err : option error) (msg : string) :
  exitCode (withMessage err msg) = exitCode err.
Proof.
  destruct err as [e|]; [|reflexivity].
  unfold exitCode, Exit. cbn [withMessage Cause].
  destruct (Cause e); reflexivity.
Qed.


(** ** The orchestrator *)

Section OrchestratorProperties.

Variable parseContentDisposition : string -> string.
Variable urlBaseName : string -> string.
Variable ops : SessionOps.

Lemma askPassword_keeps (env : RunEnv) (o o1 : Opts.Options) :
  askPassword env o = inr o1 ->
  Opts.JSONFileName o1 = Opts.JSONFileName o /\
  Opts.HeaderMap o1 = Opts.HeaderMap o /\
  Opts.Parts o1 = Opts.Parts o.
Proof.
  unfold askPassword. destruct (_ && _).
  - destruct (readPassword env); [discriminate|].
    intros H. inversion H; subst. repeat split.
  - intros H. inversion H; subst. repeat split.
Qed.

(** C2: a run started with [--continue] whose freshly resolved session
    differs from the loaded one in ContentMD5 or ContentLength returns the
    mismatch error (ContentMD5 is compared first), with the file system as
    it was and without any event: no worker was started, no file was
    created, changed or removed. *)
Theorem resume_rejects_mismatch (env : RunEnv) (args : list string)
    (version : string) (fs : FS) (o o1 : Opts.Options) (rest : list string)
    (last session : Session) (m : gmap string string) :
  parseArgs env args = inr (o, rest) ->
  Opts.Version o = false ->
  Opts.JSONFileName o <> "" ->
  askPassword env o = inr o1 ->
  loadState ops (Opts.JSONFileName o) fs = inr last ->
  HeaderMap last = Some m ->
  jarErr env = None ->
  follow parseContentDisposition urlBaseName (resolver env)
         (SuggestedFileName last) (Location last) = (Some session, None) ->
  ContentMD5 last <> ContentMD5 session \/ ContentLength last <> ContentLength session ->
  exists mismatch,
    Run parseContentDisposition urlBaseName ops env args version fs
    = {| outcome := Returns (Some (WithMessage mismatch "run"));
         files := fs; events := [] |} /\
    (ContentMD5 last <> ContentMD5 session /\
     mismatch = Errorf "ContentMD5 mismatch: remote %q expected %q"
                       [AStr (ContentMD5 session); AStr (ContentMD5 last)]
     \/
     ContentMD5 last = ContentMD5 session /\
     mismatch = Errorf "ContentLength mismatch: remote %d expected %d"
                       [AInt (ContentLength session); AInt (ContentLength last)]).
Proof.
  intros Hparse Hver Hjson Hpass Hload Hmap Hjar Hfollow Hdiff.
  destruct (askPassword_keeps env o o1 Hpass) as (Hj1 & _ & _).
  assert (Hne : String.eqb (Opts.JSONFileName o) "" = false)
    by (apply String.eqb_neq; exact Hjson).
  unfold Run. rewrite Hparse, Hver, Hne, andb_false_r. cbn [andb].
  rewrite Hpass. unfold entry. rewrite Hj1, Hne. cbn [negb].
  rewrite Hload. cbn [Opts.HeaderMap Opts.setOutFileName Opts.setHeaderMap].
  rewrite Hmap, Hjar.
  cbn [Opts.OutFileName Opts.setOutFileName Opts.setHeaderMap].
  rewrite Hfollow. unfold transferAll, plan.
  destruct (String.eqb_spec (ContentMD5 last) (ContentMD5 session)) as [Heq|Hneq].
  - cbn [negb]. destruct (Z.eqb_spec (ContentLength last) (ContentLength session)) as [Hl|Hl].
    + exfalso. destruct Hdiff; contradiction.
    + cbn [negb]. eexists. split; [reflexivity|]. right. auto.
  - cbn [negb]. eexists. split; [reflexivity|]. left. auto.
Qed.

(** C3, as the code has it: after the join, unless the join returned an
    error while the context is canceled, concatenation is invoked exactly
    when the part count of the options is positive and totalWritten equals
    ContentLength or ContentLength <= 0; then no sidecar is saved.  On every
    other outcome, the canceled one included, the next thing [Run] does is
    to save the session under <SuggestedFileName>.json with Location set
    back to the user's URL, and it does not concatenate. *)
Theorem join_decision (env : RunEnv) (o : Opts.Options) (userUrl : string)
    (session : Session) (err : option error) (fs : FS) (evs : list RunEvent) :
  let s := setParts session (actualPartsOnly ops session) in
  let concatenates :=
    (isNil err || negb (canceledAtJoin env))
    && (0 <? Opts.Parts o)
    && ((totalWritten ops s =? ContentLength s) || (ContentLength s <=? 0)) in
  exists post,
    events (settle ops env o userUrl session err fs evs) = evs ++ post /\
    if concatenates then
      exists rest, post = Concatenate s :: rest /\ List.filter isSaveState rest = []
    else
      exists rest,
        post = SaveState (setLocation s userUrl) (SuggestedFileName s +:+ ".json") :: rest /\
        Location (setLocation s userUrl) = userUrl /\
        List.filter isConcatenate rest = [].
Proof.
  intros s concatenates. unfold settle. fold s.
  assert (Hc : negb (negb (isNil err) && canceledAtJoin env)
               = (isNil err || negb (canceledAtJoin env))).
  { destruct (isNil err), (canceledAtJoin env); reflexivity. }
  rewrite Hc. fold concatenates. destruct concatenates.
  - destruct (concatenateParts ops s fs) as [e fs'].
    destruct e as [e|].
    + eexists. split; [reflexivity|]. eexists. split; reflexivity.
    + destruct (negb (String.eqb (Opts.JSONFileName o) "")).
      * destruct (osRemove (Opts.JSONFileName o) fs') as [e' fs''].
        eexists. cbn [events returns]. rewrite <- !app_assoc.
        split; [reflexivity|]. eexists. split; reflexivity.
      * eexists. cbn [events returns]. rewrite <- !app_assoc.
        split; [reflexivity|]. eexists. split; reflexivity.
  - destruct (saveState ops (setLocation s userUrl) _ fs) as [e fs'].
    destruct e as [e|].
    + eexists. split; [reflexivity|]. eexists. repeat split; reflexivity.
    + eexists. cbn [events returns]. rewrite <- !app_assoc.
      split; [reflexivity|]. eexists. repeat split; reflexivity.
Qed.

End OrchestratorProperties.

(** A resumed run whose server now reports another digest and another
    length: the sidecar holds [savedSession] (digest "abc", 11 bytes), the
    server answers 200 with 12 bytes and no digest.  [Run] returns the
    ContentMD5 mismatch and the file system stays as it was. *)
Lemma resume_rejects_mismatch_witness :
  Run noDisposition fileF sessionOps
      (running continuing (origin (respond 200 12 "")) (fun _ => deadServer))
      [] "dev" {["f.json" := []]}
  = {| outcome :=
         Returns (Some (WithMessage
                          (Errorf "ContentMD5 mismatch: remote %q expected %q"
                                  [AStr ""; AStr "abc"])
                          "run"));
       files := {["f.json" := []]};
       events := [] |}.
Proof.
  destruct (resume_rejects_mismatch noDisposition fileF sessionOps
              (running continuing (origin (respond 200 12 "")) (fun _ => deadServer))
              [] "dev" {["f.json" := []]} continuing continuing [] savedSession
              {| Location := "http://h/f"; SuggestedFileName := "f"; ContentMD5 := "";
                 AcceptRanges := "bytes"; ContentType := ""; StatusCode := 200;
                 ContentLength := 12; HeaderMap := None; Parts := [] |}
              ∅ eq_refl eq_refl ltac:(discriminate) eq_refl eq_refl eq_refl eq_refl
              eq_refl ltac:(left; discriminate))
    as (mismatch & Hrun & [[_ Hmd5] | [Habs _]]).
  - rewrite Hrun, Hmd5. reflexivity.
  - discriminate Habs.
Defined.

(** C3 as stated fails in both directions.  With [--parts 0] and an empty
    resource, totalWritten equals ContentLength (both 0) and [Run] saves the
    sidecar instead of concatenating.  With an unknown length
    (ContentLength -1) and an empty body, no part has data and totalWritten
    (0) differs from ContentLength, and [Run] concatenates. *)
Lemma join_decision_counterexample :
  decisions sessionOps
    (events (Run noDisposition fileF sessionOps
                 (running (Opts.setParts defaults 0) (origin (respond 200 0 ""))
                          (fun _ => deadServer))
                 ["http://h/f"] "dev" ∅))
  = [(false, 0, 0, false)] /\
  decisions sessionOps
    (events (Run noDisposition fileF sessionOps
                 (running defaults (origin (respond 200 (-1) ""))
                          (fun _ => serving (respond 200 (-1) "")))
                 ["http://h/f"] "dev" ∅))
  = [(true, 0, -1, false)].
Proof. split; vm_compute; reflexivity. Qed.

(** ** The mirror selector *)

Section MirrorProperties.

Variable env : MirrorEnv.
Variable cands : list string.

Let step := mirrorStep env cands.

Lemma contextError_cases (e : option error) :
  contextError e -> e <> None ->
  withMessage e "bestMirror" = Some (WithMessage DeadlineExceeded "bestMirror") \/
  withMessage e "bestMirror" = Some (WithMessage Canceled "bestMirror").
Proof. intros [-> | [-> | ->]] H; [contradiction | auto | auto]. Qed.

(** One step keeps the invariant, the winner being the one so far or the
    probe that observes a 200 at this step. *)
Lemma raceInv_step (won : option nat) (st : Mirror) (x : MirrorStep) :
  raceInv cands won st ->
  raceInv cands (match won with Some i => Some i | None => observes env cands st x end)
          (step st x).
Proof.
  intros Hinv. pose proof Hinv as (Hctx & Hwon & Hmain). unfold step.
  assert (Hw : match won with Some i => Some i | None => None end = won)
    by (destruct won; reflexivity).
  destruct x as [i| | | | |]; cbn [mirrorStep observes]; rewrite ?Hw.
  - (* Fetch *)
    destruct (cands !! i) as [u|] eqn:Hu; [|rewrite Hw; exact Hinv].
    destruct (bool_decide (i ∈ mRan st)); [rewrite Hw; exact Hinv|].
    destruct won as [j|].
    + split; [exact Hctx|]. split; [exact Hwon|]. cbn [mMain mFirst mCtx].
      destruct (mMain st); [|exact Hmain|exact Hmain].
      rewrite Hmain. destruct (Hwon j eq_refl) as [w Hw']. rewrite Hw'. reflexivity.
    + set (sends := match fetch env i with Some status => status =? Http.StatusOK
                                       | None => false end).
      assert (Hobs : (match fetch env i with
                      | Some status => if status =? Http.StatusOK then Some i else None
                      | None => None
                      end) = if sends then Some i else None).
      { subst sends. destruct (fetch env i) as [status|]; reflexivity. }
      rewrite Hobs. split; [exact Hctx|]. cbn [mMain mFirst mCtx].
      destruct sends.
      * split.
        { intros k Hk. inversion Hk; subst. rewrite Hu. eauto. }
        destruct (mMain st) as [|best|best err].
        -- rewrite Hmain, Hu. reflexivity.
        -- destruct Hmain as [H|(k & Hk & _)]; [left; exact H|discriminate].
        -- destruct Hmain as ([H|(k & Hk & _)] & He); [|discriminate].
           split; [left; exact H|exact He].
      * split; [intros k Hk; discriminate|].
        destruct (mMain st) as [|best|best err].
        -- rewrite Hmain. reflexivity.
        -- exact Hmain.
        -- exact Hmain.
  - (* Deadline *)
    destruct (mCtx st) eqn:Hc; [exact Hinv|].
    split; [right; left; reflexivity|]. split; [exact Hwon|]. cbn [mMain mFirst mCtx].
    destruct (mMain st) as [|best|best err]; [exact Hmain| |exact Hmain].
    destruct Hmain as [[_ H]|H]; [contradiction|right; exact H].
  - (* Cancel *)
    destruct (mCtx st) eqn:Hc; [exact Hinv|].
    split; [right; right; reflexivity|]. split; [exact Hwon|]. cbn [mMain mFirst mCtx].
    destruct (mMain st) as [|best|best err]; [exact Hmain| |exact Hmain].
    destruct Hmain as [[_ H]|H]; [contradiction|right; exact H].
  - (* SelectFirst *)
    destruct (mMain st) as [|best|best err] eqn:Hm; [|exact Hinv|exact Hinv].
    destruct (mFirst st) as [u|] eqn:Hf; [|exact Hinv].
    split; [exact Hctx|]. split; [exact Hwon|]. cbn [mMain mFirst mCtx].
    right. destruct won as [j|]; [|discriminate]. eauto.
  - (* SelectDone *)
    destruct (mMain st) as [|best|best err] eqn:Hm; [|exact Hinv|exact Hinv].
    destruct (mCtx st) as [c|] eqn:Hc; [|exact Hinv].
    split; [exact Hctx|]. split; [exact Hwon|].
    cbn [mMain mFirst mCtx]. left. split; [reflexivity|discriminate].
  - (* Return *)
    destruct (mMain st) as [|best|best err] eqn:Hm; [exact Hinv| |exact Hinv].
    split.
    { cbn [mCtx]. destruct Hctx as [-> | [-> | ->]];
        [right; right; reflexivity|right; left; reflexivity|right; right; reflexivity]. }
    split; [exact Hwon|]. cbn [mMain mFirst mCtx]. split.
    + destruct Hmain as [[Hb Hc]|H]; [|right; exact H].
      left. split; [exact Hb|]. destruct (mCtx st); [discriminate|contradiction].
    + destruct (mCtx st) as [c|] eqn:Hc; [|left; reflexivity].
      right. apply contextError_cases; [exact Hctx|discriminate].
Qed.

(** Along a schedule the invariant holds with the first probe that
    observes a 200. *)
Lemma raceInv_run (schedule : list MirrorStep) :
  forall (won : option nat) (st : Mirror),
  raceInv cands won st ->
  raceInv cands (match won with Some i => Some i | None => winner env cands st schedule end)
          (foldl step st schedule).
Proof.
  induction schedule as [|x rest IH]; intros won st Hinv.
  - cbn. destruct won; exact Hinv.
  - cbn [foldl winner]. apply (raceInv_step won st x) in Hinv. apply IH in Hinv.
    destruct won as [j|]; [exact Hinv|].
    destruct (observes env cands st x); exact Hinv.
Qed.

Lemma expired_step (st : Mirror) (x : MirrorStep) : expired st -> expired (step st x).
Proof.
  intros [Hc Hm]. unfold step, expired.
  destruct x as [i| | | | |]; cbn [mirrorStep].
  - destruct (cands !! i); [|auto]. destruct (bool_decide _); auto.
  - rewrite Hc. auto.
  - rewrite Hc. auto.
  - destruct (mMain st) eqn:Hmain; try (rewrite Hmain; auto).
    destruct (mFirst st); [|rewrite Hmain; auto]. cbn. auto.
  - destruct (mMain st) eqn:Hmain; try (rewrite Hmain; auto).
    rewrite Hc. cbn. auto.
  - destruct (mMain st) eqn:Hmain; try (rewrite Hmain; auto).
    cbn. rewrite Hc. auto.
Qed.

Lemma expired_run (schedule : list MirrorStep) :
  forall st, expired st -> expired (foldl step st schedule).
Proof.
  induction schedule as [|x rest IH]; intros st H; [exact H|].
  cbn [foldl]. apply IH, expired_step, H.
Qed.

(** Until a probe observes a 200 or somebody cancels, the race stays calm. *)
Lemma calm_run (schedule : list MirrorStep) :
  forall st,
  calm st -> winner env cands st schedule = None -> ~ In Cancel schedule ->
  calm (foldl step st schedule).
Proof.
  induction schedule as [|x rest IH]; intros st Hcalm Hwin Hcancel; [exact Hcalm|].
  cbn [foldl winner] in *.
  destruct (observes env cands st x) eqn:Hobs; [discriminate|].
  apply IH; [|exact Hwin|intros H; apply Hcancel; right; exact H].
  destruct Hcalm as [(Hc & Hm & Hf)|Hexp]; [|right; apply expired_step, Hexp].
  unfold step. destruct x as [i| | | | |]; cbn [mirrorStep observes] in *.
  - left. destruct (cands !! i); [|auto]. destruct (bool_decide _); [auto|].
    cbn [mMain mFirst mCtx]. rewrite Hf.
    destruct (fetch env i) as [status|]; [|auto].
    destruct (status =? Http.StatusOK); [discriminate|auto].
  - right. rewrite Hc. split; [reflexivity|]. cbn [mMain]. rewrite Hm. exact I.
  - exfalso. apply Hcancel. left. reflexivity.
  - left. rewrite Hm, Hf. auto.
  - left. rewrite Hm, Hc. auto.
  - left. rewrite Hm. auto.
Qed.

(** Once the selector returned, nothing changes its result. *)
Lemma returned_run (schedule : list MirrorStep) :
  forall st best err,
  mMain st = Returned best err -> mMain (foldl step st schedule) = Returned best err.
Proof.
  induction schedule as [|x rest IH]; intros st best err H; [exact H|].
  cbn [foldl]. apply IH. unfold step.
  destruct x as [i| | | | |]; cbn [mirrorStep].
  - destruct (cands !! i); [|exact H]. destruct (bool_decide _); exact H.
  - destruct (mCtx st); exact H.
  - destruct (mCtx st); exact H.
  - rewrite H. exact H.
  - rewrite H. exact H.
  - rewrite H. exact H.
Qed.

(** While the context is live and the selector has not returned, a
    selector that has selected keeps its URL. *)
Lemma selected_run (schedule : list MirrorStep) :
  forall st best,
  forallb (fun x => negb (untimely x)) schedule = true ->
  mCtx st = None -> mMain st = Selected best ->
  mCtx (foldl step st schedule) = None /\
  mMain (foldl step st schedule) = Selected best.
Proof.
  induction schedule as [|x rest IH]; intros st best Hok Hc Hm; [auto|].
  cbn [forallb] in Hok. apply andb_true_iff in Hok as [Hx Hrest].
  cbn [foldl]. apply IH; [exact Hrest| |]; unfold step;
    destruct x as [i| | | | |]; try discriminate; cbn [mirrorStep];
    try (destruct (cands !! i); [destruct (bool_decide _)|]; assumption);
    rewrite Hm; assumption.
Qed.

(** While the context is live, it stays live, and the selector does not
    return, until the deadline, a cancellation or the return. *)
Lemma live_run (schedule : list MirrorStep) :
  forall st,
  forallb (fun x => negb (untimely x)) schedule = true ->
  mCtx st = None -> (forall best err, mMain st <> Returned best err) ->
  mCtx (foldl step st schedule) = None /\
  forall best err, mMain (foldl step st schedule) <> Returned best err.
Proof.
  induction schedule as [|x rest IH]; intros st Hok Hc Hm; [auto|].
  cbn [forallb] in Hok. apply andb_true_iff in Hok as [Hx Hrest].
  cbn [foldl]. apply IH; [exact Hrest| |]; unfold step;
    destruct st as [ran first ctx main]; cbn in Hc, Hm; subst ctx;
    destruct x as [i| | | | |]; try discriminate; cbn [mirrorStep mRan mFirst mCtx mMain].
  - destruct (cands !! i); [destruct (bool_decide _)|]; reflexivity.
  - destruct main; [destruct first| |]; reflexivity.
  - destruct main; reflexivity.
  - destruct (cands !! i); [destruct (bool_decide _)|]; exact Hm.
  - destruct main; [destruct first| |]; cbn; try exact Hm; discriminate.
  - destruct main; exact Hm.
Qed.

Lemma winner_app (pre post : list MirrorStep) :
  forall st i,
  winner env cands st pre = Some i -> winner env cands st (pre ++ post) = Some i.
Proof.
  induction pre as [|x rest IH]; intros st i H; [discriminate|].
  cbn [winner app] in *. destruct (observes env cands st x); [exact H|].
  apply IH, H.
Qed.

(** The selector that takes the URL and returns before the deadline, a
    cancellation or an earlier return: the result is the URL of the first
    probe that observed a 200, and no error. *)
Lemma race_timely (pre mid post : list MirrorStep) (i : nat) :
  winner env cands mirrorInit pre = Some i ->
  forallb (fun x => negb (untimely x)) (pre ++ mid) = true ->
  exists best,
    cands !! i = Some best /\
    mMain (foldl step mirrorInit (pre ++ SelectFirst :: mid ++ Return :: post))
    = Returned best None.
Proof.
  intros Hwin Hok. rewrite forallb_app in Hok. apply andb_true_iff in Hok as [Hpre Hmid].
  pose proof (raceInv_run pre None mirrorInit) as Hinv. rewrite Hwin in Hinv.
  destruct Hinv as (_ & Hsome & Hmain).
  { split; [left; reflexivity|]. split; [intros k Hk; discriminate|]. reflexivity. }
  destruct (Hsome i eq_refl) as [best Hbest]. exists best. split; [exact Hbest|].
  destruct (live_run pre mirrorInit Hpre eq_refl) as [Hlive Hnot]; [discriminate|].
  set (st := foldl step mirrorInit pre) in *.
  assert (Hsel : mCtx (step st SelectFirst) = None /\
                 mMain (step st SelectFirst) = Selected best).
  { unfold step. cbn [mirrorStep]. destruct (mMain st) as [|b|b e] eqn:Hm.
    - rewrite Hmain, Hbest. cbn. auto.
    - rewrite Hm. split; [exact Hlive|]. f_equal.
      destruct Hmain as [[_ H]|(k & Hk & Hb)]; [contradiction|].
      inversion Hk; subst. congruence.
    - exfalso. exact (Hnot b e eq_refl). }
  destruct Hsel as [Hc1 Hm1].
  replace (pre ++ SelectFirst :: mid ++ Return :: post)
    with (pre ++ [SelectFirst] ++ mid ++ [Return] ++ post) by reflexivity.
  rewrite !foldl_app. fold st. cbn [foldl].
  destruct (selected_run mid (step st SelectFirst) best Hmid Hc1 Hm1) as [Hc2 Hm2].
  apply returned_run. unfold step at 1. cbn [mirrorStep]. rewrite Hm2, Hc2. reflexivity.
Qed.

(** A fair end of the schedule: the deadline fires at the latest, the
    selector sees it and returns. *)
Lemma race_returns (st : Mirror) :
  exists best err, mMain (foldl step st [Deadline; SelectDone; Return]) = Returned best err.
Proof.
  unfold step. destruct st as [ran first ctx main].
  destruct main, ctx; cbn; eauto.
Qed.

End MirrorProperties.

Lemma keepLine_spec (line u : string) :
  keepLine line = Some u <-> u = TrimSpace line /\ u <> "" /\ isComment u = false.
Proof.
  unfold keepLine. split.
  - destruct (String.length (TrimSpace line) =? 0)%nat eqn:Hlen;
      [discriminate|].
    destruct (isComment (TrimSpace line)) eqn:Hc; [discriminate|].
    cbn. intros H. inversion H; subst. repeat split; [|exact Hc].
    intros Hempty. rewrite Hempty in Hlen. discriminate.
  - intros (-> & Hne & Hc). rewrite Hc.
    destruct (TrimSpace line); [contradiction|]. reflexivity.
Qed.




(** ** Where expected errors come from *)

Lemma isExpected_withMessage (e : error) (msg : string) :
  isExpected (WithMessage e msg) = isExpected e.
Proof. reflexivity. Qed.

Lemma plain_withMessage (err : option error) (msg : string) :
  plain err -> plain (withMessage err msg).
Proof.
  intros H e He. destruct err as [e0|]; [|discriminate].
  inversion He; subst. rewrite isExpected_withMessage. apply H. reflexivity.
Qed.

Lemma plain_none : plain None.
Proof. intros e He. discriminate. Qed.

Lemma plain_some (e : error) : isExpected e = false -> plain (Some e).
Proof. intros H e' He. inversion He; subst. exact H. Qed.

Lemma exitCode_expected (e : error) : exitCode (Some e) = 1 <-> isExpected e = true.
Proof.
  unfold exitCode, Exit, isExpected.
  destruct (Cause e) as [ty ?| | | | | | | | | |]; cbn; try (split; [lia|discriminate]).
  - destruct ty; cbn; split; try lia; discriminate.
  - split; reflexivity.
Qed.

(** The streaming loop ends with the error it started with or with one of
    the script. *)
Lemma stream_plain (total : Z) (script : list Http.ReadStep) :
  forall s, plainScript script -> plain (sErr s) -> plain (sErr (stream total script s)).
Proof.
  induction script as [|step rest IH]; intros s Hscript Hs; [exact Hs|].
  assert (Hrest : plainScript rest).
  { intros data e wl Hin. eapply Hscript. right. exact Hin. }
  destruct step as [|data rerr wlimit]; [exact Hs|].
  destruct rerr as [e|].
  - assert (He : isExpected e = false) by (eapply Hscript; left; reflexivity).
    destruct e; try (cbn; apply plain_some; exact He).
    cbn [stream]. destruct temporary.
    + apply IH; [exact Hrest|]. cbn. apply plain_some. exact He.
    + cbn. apply plain_some. exact He.
  - cbn [stream fileCopy]. apply IH; [exact Hrest|]. cbn. apply plain_none.
Qed.

Lemma transfer_plain (a : Attempt) (iw : Z) (resp : Http.Response) (w : Worker) :
  (forall script, Http.Body resp = Some script -> plainScript script) ->
  plain (transfer a iw resp w).1.2.
Proof.
  intros Hbody. unfold transfer. destruct (Http.Body resp) as [script|].
  - cbn [fileCopy].
    match goal with |- context [stream ?t ?sc ?s0] =>
      pose proof (stream_plain t sc s0 (Hbody _ eq_refl) plain_none) as Hs;
      set (s := stream t sc s0) in * end.
    destruct (isEOF (sErr s)); [apply plain_none|exact Hs].
  - cbn. apply plain_some. reflexivity.
Qed.

Lemma attempt_plain (timeout iw : Z) (a : Attempt) (count : Z) (w : Worker) :
  (forall e, doResult a = inl e -> isExpected e = false) ->
  (forall resp script, doResult a = inr resp -> Http.Body resp = Some script ->
                       plainScript script) ->
  plain (attempt timeout iw a count w).1.2.
Proof.
  intros Hdo Hbody. unfold attempt.
  destruct (maxTry (wPart w) <? count); [apply plain_some; reflexivity|].
  destruct (isDone (wPart w)); [apply plain_none|].
  destruct (doResult a) as [e|resp] eqn:Hres.
  { cbn. apply plain_some, Hdo. reflexivity. }
  cbv zeta.
  destruct (Http.StatusCode resp =? Http.StatusOK).
  - destruct (negb _); [apply plain_none|].
    pose proof (transfer_plain a iw resp (adopt resp (announce timeout count w))
                  (fun script => Hbody resp script eq_refl)) as Ht.
    destruct (transfer a iw resp _) as [[r e] w2]. exact Ht.
  - set (w2 := if _ || _ then _ else _).
    destruct (negb _); [apply plain_some; reflexivity|].
    pose proof (transfer_plain a iw resp w2 (fun script => Hbody resp script eq_refl)) as Ht.
    destruct (transfer a iw resp w2) as [[r e] w3]. exact Ht.
Qed.

Lemma Retry_plain {S : Type} (fuel : nat) (wait : Z -> option error)
    (fn : Z -> S -> bool * option error * S) :
  (forall count, plain (wait count)) ->
  (forall count st, plain (fn count st).1.2) ->
  forall count st err st', Retry fuel wait fn count st = Some (err, st') -> plain err.
Proof.
  intros Hwait Hfn. induction fuel as [|fuel IH]; intros count st err st' H; [discriminate|].
  cbn [Retry] in H. pose proof (Hfn count st) as Hp.
  destruct (fn count st) as [[retry e] st1]. cbn in Hp.
  destruct retry.
  - destruct (wait count) as [e'|] eqn:Hw.
    + inversion H; subst. rewrite <- Hw. apply Hwait.
    + eapply IH. exact H.
  - inversion H; subst. exact Hp.
Qed.

Lemma download_plain (env : DownloadEnv) (timeout : Z) (p : Part) (fs : FS) (g : Z)
    (d : Downloaded) :
  plainDownload env -> download env timeout p fs g = Some d -> plain (dErr d).
Proof.
  intros (Hopen & Hdo & Hbody & Hwait) H. unfold download in H.
  destruct (openErr env) as [e|] eqn:Ho.
  { inversion H; subst. cbn. apply plain_some. rewrite isExpected_withMessage.
    apply Hopen. reflexivity. }
  destruct (Retry _ _ _ _ _) as [[err w]|] eqn:HR; [|discriminate].
  inversion H; subst. cbn [dErr]. apply plain_withMessage.
  eapply (Retry_plain _ _ _ Hwait); [|exact HR].
  intros count st. apply attempt_plain; [apply Hdo|apply Hbody].
Qed.

Lemma fanOut_plain (env : RunEnv) (o : Opts.Options) (parts : list Part) :
  (forall i, plainDownload (workers env i)) ->
  forall i st f,
  Forall (fun ie => isExpected ie.2 = false) (fErrs st) ->
  fanOut env o i parts st = Some f ->
  Forall (fun ie => isExpected ie.2 = false) (fErrs f).
Proof.
  intros Hw. induction parts as [|p rest IH]; intros i st f Hst H.
  { inversion H; subst. exact Hst. }
  cbn [fanOut] in H. destruct (isDone p).
  { eapply IH; [|exact H]. exact Hst. }
  destruct (download _ _ _ _ _) as [d|] eqn:Hd; [|discriminate].
  eapply IH; [|exact H]. cbn [fErrs].
  pose proof (download_plain _ _ _ _ _ _ (Hw i) Hd) as Hp.
  destruct (dErr d) as [e|]; [|exact Hst].
  apply Forall_app. split; [exact Hst|].
  constructor; [|constructor]. cbn. apply Hp. reflexivity.
Qed.

Lemma firstError_plain (order : list nat) (errs : list (nat * error)) :
  Forall (fun ie => isExpected ie.2 = false) errs -> plain (firstError order errs).
Proof.
  intros Herrs. induction order as [|i order IH]; cbn [firstError].
  - destruct errs as [|[j e] errs]; [apply plain_none|].
    apply plain_some. inversion Herrs; subst. assumption.
  - destruct (List.find _ errs) as [[j e]|] eqn:Hfind; [|exact IH].
    apply plain_some. apply List.find_some in Hfind as [Hin _].
    rewrite Forall_forall in Herrs. apply (Herrs (j, e)).
    apply list_elem_of_In. exact Hin.
Qed.

Section ExpectedErrors.

Variable parseContentDisposition : string -> string.
Variable urlBaseName : string -> string.
Variable ops : SessionOps.

Hypothesis Hops : plainOps ops.

Lemma followLoop_plain (env : FollowEnv) (outFileName : string) (fuel : nat) :
  plainFollow env ->
  forall i userUrl redirected,
  plain (followLoop parseContentDisposition urlBaseName env outFileName
                    fuel i userUrl redirected).1.2.
Proof.
  intros (Hreq & Hdo & Hresp).
  induction fuel as [|fuel IH]; intros i userUrl redirected; [apply plain_none|].
  cbn [followLoop].
  destruct (newRequest env userUrl) as [e|] eqn:Hn.
  { cbn. rewrite <- Hn. apply Hreq. }
  destruct (clientDo env i userUrl) as [e|resp] eqn:Hd.
  { cbn. apply plain_some. eapply Hdo. exact Hd. }
  destruct (Hresp _ _ _ Hd) as [Hloc Hclose].
  destruct (isRedirect _).
  - destruct (Http.RespLocation resp) as [e|loc]; [|apply IH].
    cbn. apply plain_some. apply Hloc. reflexivity.
  - destruct (negb _); [apply plain_some; reflexivity|]. exact Hclose.
Qed.

(** The only expected error of [follow] is that of the redirects that do
    not end. *)
Lemma follow_expected (env : FollowEnv) (outFileName userUrl : string) (e : error) :
  plainFollow env ->
  (follow parseContentDisposition urlBaseName env outFileName userUrl).2 = Some e ->
  isExpected e = true ->
  e = tooManyRedirects.
Proof.
  intros Henv He Hexp. unfold follow in He.
  pose proof (followLoop_plain env outFileName maxRedirects Henv 0%nat userUrl false) as Hp.
  destruct (followLoop _ _ _ _ _ _ _ _) as [[session err] redirected].
  cbn [fst snd] in *.
  destruct (redirected && negb (bool_decide (is_Some session)) && isNil err).
  - cbn in He. inversion He; subst. reflexivity.
  - apply (plain_withMessage _ "follow") in Hp. rewrite (Hp e He) in Hexp. discriminate.
Qed.

Lemma bestMirror_plain (env : MirrorEnv) (text : string) (rerr : option error)
    (schedule : list MirrorStep) (best : string) (err : option error) :
  plain rerr -> bestMirror env text rerr schedule = Some (best, err) -> plain err.
Proof.
  intros Hr H. unfold bestMirror, readLines in H.
  destruct (scanLines text "" 0) as [lines serr] eqn:Hscan.
  assert (Hserr : plain serr).
  { clear -Hscan. revert lines serr Hscan. generalize 0%nat. generalize ""%string.
    induction text as [|c rest IH]; intros line n lines serr Hscan; cbn [scanLines] in Hscan.
    - inversion Hscan; subst. apply plain_none.
    - destruct (code c =? 10)%N.
      + destruct (scanLines rest "" 0) as [ls e] eqn:Hrest.
        inversion Hscan; subst. eapply IH. exact Hrest.
      + destruct (MaxScanTokenSize <=? S n)%nat.
        * inversion Hscan; subst. apply plain_some. reflexivity.
        * eapply IH. exact Hscan. }
  destruct serr as [e|].
  { inversion H; subst. apply plain_some. rewrite isExpected_withMessage.
    apply Hserr. reflexivity. }
  destruct rerr as [e|].
  { inversion H; subst. apply plain_some. rewrite isExpected_withMessage.
    apply Hr. reflexivity. }
  unfold race in H.
  pose proof (raceInv_run env (candidates env (omap keepLine lines)) schedule None mirrorInit)
    as Hinv.
  destruct (mMain _) as [|b|b e] eqn:Hm; [discriminate|discriminate|].
  inversion H; subst. destruct Hinv as (_ & _ & Hmain).
  { split; [left; reflexivity|]. split; [intros i Hi; discriminate|]. reflexivity. }
  rewrite Hm in Hmain. destruct Hmain as (_ & [-> | [-> | ->]]);
    [apply plain_none|apply plain_some; reflexivity|apply plain_some; reflexivity].
Qed.

(** What [Run] returns after the join: an expected error there is the
    cancellation. *)
Lemma settle_expected (env : RunEnv) (o : Opts.Options) (userUrl : string)
    (session : Session) (err : option error) (fs : FS) (evs : list RunEvent) (e : error) :
  plain err ->
  outcome (settle ops env o userUrl session err fs evs) = Returns (Some e) ->
  isExpected e = true ->
  Cause e = ExpectedError Canceled.
Proof.
  destruct Hops as (_ & Hsave & _ & Hconcat).
  intros Herr Hout Hexp. unfold settle in Hout.
  set (s := setParts session _) in Hout.
  destruct (negb (negb (isNil err) && canceledAtJoin env) && _ && _).
  - pose proof (Hconcat s fs) as Hc.
    destruct (concatenateParts ops s fs) as [ce fs']. cbn [fst] in Hc.
    destruct ce as [ce|].
    + cbn in Hout. inversion Hout; subst. rewrite isExpected_withMessage in Hexp.
      rewrite (Hc ce eq_refl) in Hexp. discriminate.
    + destruct (negb (String.eqb (Opts.JSONFileName o) "")).
      * unfold osRemove in Hout. destruct (fs' !! Opts.JSONFileName o); cbn in Hout.
        -- discriminate.
        -- inversion Hout; subst. discriminate.
      * discriminate.
  - pose proof (Hsave (setLocation s userUrl) (SuggestedFileName (setLocation s userUrl) +:+ ".json") fs)
      as Hs.
    destruct (saveState ops _ _ fs) as [se fs']. cbn [fst] in Hs.
    assert (Hfinal : forall err', (err' = (if negb (isNil err) && canceledAtJoin env
                                           then Some (ExpectedError Canceled) else err)
                                   \/ (err' = se /\ se <> None)) ->
                     withMessage err' "run" = Some e -> Cause e = ExpectedError Canceled).
    { intros err' Hcase He. destruct Hcase as [->|[-> Hne]].
      - destruct (negb (isNil err) && canceledAtJoin env).
        + inversion He; subst. reflexivity.
        + apply (plain_withMessage _ "run") in Herr.
          rewrite (Herr e He) in Hexp. discriminate.
      - apply (plain_withMessage _ "run") in Hs.
        rewrite (Hs e He) in Hexp. discriminate. }
    destruct se as [se|].
    + cbn in Hout. inversion Hout as [He]. eapply Hfinal; [|exact He].
      destruct (negb (isNil err) && canceledAtJoin env) eqn:Hc.
      * left. destruct (isNil _) eqn:Hn; reflexivity.
      * destruct (isNil err) eqn:Hn.
        -- right. split; [reflexivity|discriminate].
        -- left. reflexivity.
    + cbn in Hout. inversion Hout as [He]. eapply Hfinal; [|exact He].
      left. reflexivity.
Qed.

Lemma returns_expected (err : option error) (fs : FS) (evs : list RunEvent) (e : error) :
  plain err -> outcome (returns err fs evs) = Returns (Some e) -> isExpected e = false.
Proof.
  intros Hp H. cbn in H. inversion H as [He].
  apply (plain_withMessage _ "run") in Hp. apply Hp. exact He.
Qed.

Lemma transferAll_expected (env : RunEnv) (o : Opts.Options) (userUrl : string)
    (lastSession : option Session) (session : Session) (fs : FS) (e : error) :
  plainRun env ->
  outcome (transferAll ops env o userUrl lastSession session fs) = Returns (Some e) ->
  isExpected e = true ->
  Cause e = ExpectedError Canceled.
Proof.
  intros (_ & _ & _ & _ & _ & Hanswer & Hworkers) Hout Hexp.
  destruct Hops as (_ & _ & Hremove & _).
  unfold transferAll in Hout.
  destruct (plan ops env o lastSession session fs) as [r|[[[o1 s1] fs1] evs1]] eqn:Hplan.
  - exfalso. unfold plan in Hplan.
    assert (Hno : forall err fs' evs', plain err -> r = returns err fs' evs' -> False).
    { intros err fs' evs' Hp ->. rewrite (returns_expected _ _ _ _ Hp Hout) in Hexp.
      discriminate. }
    destruct lastSession as [last|].
    + destruct (negb (String.eqb _ _)).
      { inversion Hplan as [Hr]. eapply Hno; [|symmetry; exact Hr].
        apply plain_some. reflexivity. }
      destruct (negb (_ =? _)); [|discriminate].
      inversion Hplan as [Hr]. eapply Hno; [|symmetry; exact Hr].
      apply plain_some. reflexivity.
    + destruct (0 <? Opts.Parts o); [|discriminate].
      cbv zeta in Hplan.
      match type of Hplan with context [removeFiles ops ?s ?f] =>
        pose proof (Hremove s f) as Hrm; destruct (removeFiles ops s f) as [re fs'] end.
      cbn [fst] in Hrm.
      destruct (_ !! _); [|discriminate].
      destruct (answer env) as [ae|a] eqn:Ha.
      { inversion Hplan as [Hr]. eapply Hno; [|symmetry; exact Hr].
        apply plain_some. eapply Hanswer. reflexivity. }
      destruct (saysYes a).
      * destruct re as [re|]; [|discriminate].
        inversion Hplan as [Hr]. eapply Hno; [|symmetry; exact Hr]. exact Hrm.
      * inversion Hplan as [Hr]. eapply Hno; [|symmetry; exact Hr]. apply plain_none.
  - destruct (existsb _ _ && _); [discriminate|].
    destruct (fanOut env o1 0 (Parts s1) _) as [f|] eqn:Hfan; [|discriminate].
    eapply settle_expected; [|exact Hout|exact Hexp].
    apply firstError_plain. eapply fanOut_plain; [exact Hworkers| |exact Hfan].
    constructor.
Qed.

(** Of the errors [Run] returns, when those of the outside world are
    plain, the expected ones are the cancellation and the redirects that do
    not end. *)
Lemma Run_expected (env : RunEnv) (args : list string) (version : string) (fs : FS)
    (e : error) :
  plainRun env ->
  outcome (Run parseContentDisposition urlBaseName ops env args version fs)
  = Returns (Some e) ->
  isExpected e = true ->
  Cause e = ExpectedError Canceled \/ e = WithMessage tooManyRedirects "run".
Proof.
  intros Henv Hout Hexp.
  pose proof Henv as (Hparse & Hpass & Hinput & Hjar & Hfollow & _ & _).
  pose proof Hops as (Hload & _).
  assert (Hno : forall err fs' evs',
             plain err -> outcome (returns err fs' evs') = Returns (Some e) -> False).
  { intros err fs' evs' Hp H. rewrite (returns_expected _ _ _ _ Hp H) in Hexp.
    discriminate. }
  unfold Run in Hout.
  destruct (parseArgs env args) as [pe|[o rest]] eqn:Hp.
  { exfalso. eapply Hno; [|exact Hout]. apply plain_some. eapply Hparse. exact Hp. }
  destruct (Opts.Version o); [discriminate|].
  destruct (_ && _ && _).
  { exfalso. eapply Hno; [|exact Hout]. apply plain_some. reflexivity. }
  destruct (askPassword env o) as [pe|o1] eqn:Hask.
  { exfalso. eapply Hno; [|exact Hout]. apply plain_some.
    unfold askPassword in Hask. destruct (_ && _); [|discriminate].
    destruct (readPassword env) as [re|pass] eqn:Hr; [|discriminate].
    inversion Hask; subst. apply Hpass. reflexivity. }
  destruct (entry ops env o1 rest fs) as [r|[[o2 userUrl] lastSession]] eqn:Hentry.
  { exfalso. unfold entry in Hentry. destruct (negb (String.eqb _ _)).
    - destruct (loadState ops _ fs) as [le|last] eqn:Hl; [|discriminate].
      inversion Hentry; subst. eapply Hno; [|exact Hout].
      apply plain_some. eapply Hload. exact Hl.
    - destruct (Opts.BestMirror o1).
      + destruct (bestMirror _ _ _ _) as [[best [me|]]|] eqn:Hm.
        * inversion Hentry; subst. eapply Hno; [|exact Hout].
          eapply bestMirror_plain; [exact Hinput|exact Hm].
        * discriminate.
        * inversion Hentry; subst. discriminate.
      + destruct rest; [|discriminate]. inversion Hentry; subst. discriminate. }
  destruct (Opts.HeaderMap o2); [|discriminate].
  destruct (jarErr env) as [je|] eqn:Hj.
  { exfalso. eapply Hno; [|exact Hout]. exact Hjar. }
  assert (Hfail : forall session fe,
             follow parseContentDisposition urlBaseName (resolver env)
                    (Opts.OutFileName (Opts.setHeaderMap o2 (Some
                       match g !! hUserAgentKey with
                       | Some _ => g
                       | None => <[hUserAgentKey := userAgents (Opts.UserAgent o2)]> g
                       end))) userUrl = (session, Some fe) ->
             outcome (if canceledAtResolve env
                      then returns (Some (ExpectedError Canceled)) fs []
                      else returns (Some fe) fs []) = Returns (Some e) ->
             Cause e = ExpectedError Canceled \/ e = WithMessage tooManyRedirects "run").
  { intros session fe Hf H. destruct (canceledAtResolve env).
    - cbn in H. inversion H; subst. left. reflexivity.
    - cbn in H. inversion H; subst. right. f_equal.
      rewrite isExpected_withMessage in Hexp.
      eapply follow_expected; [exact Hfollow| |exact Hexp].
      rewrite Hf. reflexivity. }
  destruct (follow _ _ _ _ _) as [[session|] [fe|]] eqn:Hf.
  - eapply Hfail; [reflexivity|exact Hout].
  - left. eapply transferAll_expected; [exact Henv|exact Hout|exact Hexp].
  - eapply Hfail; [reflexivity|exact Hout].
  - discriminate.
Qed.

End ExpectedErrors.

(** ** Exit codes of a run *)

(** The example environments raise plain errors only. *)
Lemma specSession_plain (marshal : Session -> list byte)
    (unmarshal : list byte -> option Session) :
  plainOps (specSession marshal unmarshal).
Proof.
  split; [|split; [|split]].
  - intros fileName fs e H. cbn in H.
    destruct (fs !! fileName) as [data|]; [destruct (unmarshal data)|];
      inversion H; reflexivity.
  - intros s stateName fs e H. discriminate.
  - intros s fs e H. discriminate.
  - intros s fs e H. cbn in H. unfold specConcatenate in H.
    destruct (mapM _ _) as [[|c cs]|]; inversion H; reflexivity.
Qed.

Lemma running_plain (o : Opts.Options) (server : FollowEnv) (parts : nat -> DownloadEnv) :
  plainFollow server -> (forall i, plainDownload (parts i)) ->
  plainRun (running o server parts).
Proof.
  intros Hs Hp. unfold plainRun, running. cbn.
  split; [intros args e H; discriminate|].
  split; [intros e H; discriminate|].
  split; [intros e H; discriminate|].
  split; [intros e H; discriminate|].
  split; [exact Hs|].
  split; [intros e H; discriminate|exact Hp].
Qed.

Lemma redirectLoop_plain : plainFollow redirectLoop.
Proof.
  split; [intros url e H; discriminate|].
  split; [intros i url e H; discriminate|].
  intros i url resp H. inversion H; subst. split; intros e He; discriminate.
Qed.

Lemma deadServer_plain : plainDownload deadServer.
Proof.
  split; [intros e H; discriminate|].
  split; [intros count e H; inversion H; reflexivity|].
  split; [intros count resp script H; discriminate|].
  intros count e H. discriminate.
Qed.





(** * More properties of the code

    ** The deadline of an attempt, where nothing overflows *)

(** X1: while the product fits 64 bits, the first attempt of a part has
    [timeout] seconds and the retry with [count >= 1] has
    [timeout * 2^(count-1)] seconds capped at ten minutes, which never
    decreases from one retry to the next; the deadline of the first attempt
    is not capped; and the deadline of a retry is at most ten minutes
    whatever the numbers are. *)
Theorem deadline_capped_exponential (timeout count : Z) :
  0 <= timeout -> 1 <= count ->
  timeout * 2 ^ count * Second < 2 ^ 63 ->
  ctxTimeout timeout 0 = timeout * Second /\
  ctxTimeout timeout count = Z.min (timeout * 2 ^ (count - 1) * Second) (10 * Minute) /\
  ctxTimeout timeout count <= ctxTimeout timeout (count + 1) /\
  (forall t c, 0 < c -> ctxTimeout t c <= 10 * Minute).
Proof.
  intros Ht Hc Hfit.
  assert (Hp : 2 ^ count = 2 * 2 ^ (count - 1)).
  { replace count with (Z.succ (count - 1)) at 1 by lia. apply Z.pow_succ_r. lia. }
  assert (Hpos : 0 < 2 ^ (count - 1)) by (apply Z.pow_pos_nonneg; lia).
  assert (Hfit1 : timeout * 2 ^ (count - 1) * Second < 2 ^ 63).
  { unfold Second in *. nia. }
  split; [|split; [|split]].
  - apply ctxTimeout_first_in_range; [exact Ht|]. unfold Second in *. nia.
  - apply ctxTimeout_retry_in_range; assumption.
  - rewrite (ctxTimeout_retry_in_range timeout count) by assumption.
    rewrite (ctxTimeout_retry_in_range timeout (count + 1)); [|lia|lia|].
    + replace (count + 1 - 1) with count by lia. rewrite Hp.
      unfold Second, Minute in *. nia.
    + replace (count + 1 - 1) with count by lia. exact Hfit.
  - intros t c Hc0. unfold ctxTimeout.
    destruct (Z.ltb_spec 0 c) as [_|]; [|lia].
    cbv zeta. match goal with |- context [?a <? ?b] => destruct (Z.ltb_spec a b) end; lia.
Qed.

(** With the default fifteen seconds the third retry has a minute, and the
    next one two. *)
Lemma deadline_capped_exponential_witness :
  ctxTimeout 15 3 = 60 * Second /\ ctxTimeout 15 3 <= ctxTimeout 15 4.
Proof.
  destruct (deadline_capped_exponential 15 3) as (_ & Heq & Hle & _);
    [lia | lia | vm_compute; reflexivity |].
  split; [rewrite Heq; vm_compute; reflexivity | exact Hle].
Defined.

(** ** The bytes of the body *)

(** The segment file followed by the staging buffer is, all along the
    streaming loop, what it was followed by the bytes the body delivered. *)
Lemma stream_in_order (total : Z) (script : list Http.ReadStep) :
  forall s,
  sFile (stream total script s) ++ sBuf (stream total script s)
  = sFile s ++ sBuf s ++ delivered script.
Proof.
  induction script as [|step rest IH]; intros s.
  - cbn. rewrite app_nil_r. reflexivity.
  - destruct step as [|data rerr wlimit].
    + cbn. rewrite app_nil_r. reflexivity.
    + destruct rerr as [e|].
      * destruct e; cbn [stream delivered sFile sBuf];
          try (rewrite <- ?app_assoc; reflexivity).
        destruct temporary.
        -- rewrite IH. cbn [sFile sBuf]. rewrite <- ?app_assoc. reflexivity.
        -- cbn [sFile sBuf]. rewrite <- ?app_assoc. reflexivity.
      * cbn [stream delivered fileCopy]. rewrite IH. cbn [sFile sBuf].
        rewrite <- !app_assoc. f_equal.
        rewrite (app_assoc (take _ _)), take_drop, <- app_assoc. reflexivity.
Qed.

(** The streaming phase of an attempt: the file ends as a prefix of what it
    was followed by the delivered bytes, and as all of it when the last
    write is complete. *)
Lemma transfer_in_order (a : Attempt) (iw : Z) (resp : Http.Response) (w : Worker)
    (script : list Http.ReadStep) :
  Http.Body resp = Some script ->
  exists rest,
    wFile (transfer a iw resp w).2 ++ rest = wFile w ++ delivered script /\
    (lastWrite a = None -> rest = []).
Proof.
  intros Hb. unfold transfer. rewrite Hb.
  cbn [emit wTotal wFile wTrace wPart wGlobTry].
  match goal with |- context [stream ?t ?sc ?s0] =>
    pose proof (stream_in_order t sc s0) as Hs; set (s := stream t sc s0) in * end.
  cbn [sFile sBuf] in Hs. cbn [fileCopy].
  set (k := match lastWrite a with None => length (sBuf s) | Some k => _ end).
  exists (drop k (sBuf s)). split.
  - destruct (isEOF (sErr s)); cbn [snd wFile];
      rewrite <- app_assoc, take_drop; exact Hs.
  - intros Hl. subst k. rewrite Hl. apply drop_all.
Qed.

(** ** One call of the callback, step by step *)

Lemma isDone_fields (p q : Part) :
  Skip q = Skip p -> Stop q = Stop p -> Start q = Start p -> Written q = Written p ->
  isDone q = isDone p.
Proof. unfold isDone. intros -> -> -> ->. reflexivity. Qed.

(** A transfer asks for a retry only while the part is not done. *)
Lemma transfer_retry (a : Attempt) (iw : Z) (resp : Http.Response) (w : Worker)
    (err : option error) (w' : Worker) :
  transfer a iw resp w = (true, err, w') -> isDone (wPart w') = false.
Proof.
  unfold transfer. destruct (Http.Body resp); [|discriminate].
  cbn [fileCopy]. destruct (isEOF _); [discriminate|].
  intros H. injection H as Hr _ <-. cbn [wPart].
  apply negb_true_iff. exact Hr.
Qed.

Lemma attempt_step (timeout iw : Z) (a : Attempt) (count : Z) (w : Worker)
    (retry : bool) (err : option error) (w' : Worker) :
  attempt timeout iw a count w = (retry, err, w') ->
  ((maxTry (wPart w) < count \/ isDone (wPart w) = true) /\ w' = w /\ retry = false) \/
  (count <= maxTry (wPart w) /\ isDone (wPart w) = false /\
   stepped timeout a count w retry w').
Proof.
  unfold attempt. intros H.
  destruct (Z.ltb_spec (maxTry (wPart w)) count) as [|Hc].
  { inversion H; subst. left. auto. }
  destruct (isDone (wPart w)) eqn:Hnd.
  { inversion H; subst. left. auto. }
  right. split; [exact Hc|]. split; [reflexivity|].
  destruct (announce_spec timeout count w)
    as (Hw1 & Hf1 & Ht1 & Hst1 & Hwr1 & Hsk1 & pre & Htr1 & Hpre).
  set (w1 := announce timeout count w) in *. clearbody w1.
  assert (Hs1 : Start (wPart w1) = Start (wPart w) /\ order (wPart w1) = order (wPart w)).
  { destruct Hw1 as (_ & _ & _ & _ & Hk). split; apply Hk. }
  destruct Hs1 as [Hs1 Ho1].
  assert (Hfin : forall r e w2 post,
             (r, e, elapse a w2) = (retry, err, w') ->
             wTrace w2 = wTrace w1 ++ post -> requests post = 0%nat ->
             Start (wPart w2) = Start (wPart w1) ->
             (Int.in_int64 (Written (wPart w1)) -> Int.in_int64 (Written (wPart w2))) ->
             (r = true -> isDone (wPart w2) = false) ->
             ((forall resp, doResult a = inr resp -> Http.StatusCode resp <> Http.StatusOK) ->
              Int.wrap64 (Written (wPart w2))
              = Int.wrap64 (Written (wPart w1) + Z.of_nat (length (appended post))) /\
              wTotal w2 = wTotal w1 /\
              (0 < wTotal w1 -> Stop (wPart w2) = Stop (wPart w1))) ->
             (forall resp script,
                doResult a = inr resp ->
                Http.StatusCode resp = Http.StatusPartialContent
                \/ Http.StatusCode resp = Http.StatusOK /\ order (wPart w) = 0 ->
                Http.Body resp = Some script ->
                exists rest,
                  wFile w2 ++ rest = wFile w1 ++ delivered script /\
                  (lastWrite a = None -> rest = [])) ->
             stepped timeout a count w retry w').
  { intros r e w2 post Heq Htr Hrq Hs Hin Hdone Hacc Hdel.
    inversion Heq; subst r e w'. exists pre, post.
    cbn [elapse withPart wTrace wPart wTotal wFile setElapsed Start Written Stop].
    split; [rewrite Htr, Htr1, <- !app_assoc; reflexivity|].
    split; [exact Hpre|]. split; [exact Hrq|].
    split; [congruence|].
    split; [intros Hi; apply Hin; rewrite Hwr1; exact Hi|].
    split; [intros Hr; rewrite <- (Hdone Hr); apply isDone_fields; reflexivity|].
    split.
    - intros Hno. destruct (Hacc Hno) as (Hw & Ht & Hst).
      rewrite Hw, Hwr1, Ht, Ht1. repeat split. intros Hpos.
      rewrite Hst by (rewrite Ht1; exact Hpos). exact Hst1.
    - intros resp script Hdo Hst Hb. rewrite <- Hf1. eapply Hdel; eassumption. }
  assert (Hnd1 : isDone (wPart w1) = false).
  { rewrite <- Hnd. apply isDone_fields; assumption. }
  destruct (doResult a) as [e|resp] eqn:Hdo.
  { eapply (Hfin _ _ _ []); [exact H|rewrite app_nil_r; reflexivity|reflexivity|
                              reflexivity|tauto|intros _; exact Hnd1| |].
    - intros _. cbn. rewrite Z.add_0_r. auto.
    - intros resp script Habs. discriminate. }
  cbv zeta in H.
  destruct (Z.eqb_spec (Http.StatusCode resp) Http.StatusOK) as [H200|Hn200].
  - destruct (Z.eqb_spec (order (wPart w1)) 0) as [Ho|Ho]; cbn [negb] in H.
    + destruct (transfer a iw resp (adopt resp w1)) as [[r e] w2] eqn:Ht.
      destruct (transfer_spec _ _ _ _ _ _ _ Ht)
        as (tr & Htr & Hf & Hrq & _ & _ & Hk & _ & Hbody).
      eapply (Hfin _ _ _ (EvBar (SetTotal (Http.ContentLength resp) false) :: tr));
        [exact H| | | | | | |].
      * rewrite Htr. cbn [adopt wTrace]. rewrite <- app_assoc. reflexivity.
      * exact Hrq.
      * destruct Hk as (_ & _ & _ & _ & _ & Hs). exact Hs.
      * intros _. destruct (Http.Body resp).
        -- destruct Hbody as [Hw _]. rewrite Hw. apply wrap64_range.
        -- destruct Hbody as (Hp & _). rewrite Hp. cbn. unfold Int.in_int64. lia.
      * intros ->. eapply transfer_retry. exact Ht.
      * intros Hno. exfalso. eapply Hno; [reflexivity|exact H200].
      * intros resp' script Heq _ Hb. inversion Heq; subst resp'.
        destruct (transfer_in_order a iw resp (adopt resp w1) script Hb) as (rest & Hr & Hl).
        rewrite Ht in Hr. exists rest. split; [exact Hr|exact Hl].
    + eapply (Hfin _ _ _ [EvBar (BarAbort true)]);
        [exact H|reflexivity|reflexivity|reflexivity|tauto|discriminate| |].
      * intros Hno. exfalso. eapply Hno; [reflexivity|exact H200].
      * intros resp' script Heq [H206|[_ Hord]] _.
        -- inversion Heq; subst resp'. rewrite H200 in H206. discriminate.
        -- rewrite Ho1 in Ho. contradiction.
  - set (cond := (Http.StatusCode resp =? Http.StatusForbidden)
                   || (Http.StatusCode resp =? Http.StatusTooManyRequests)) in H.
    set (flash := if cond then [EvFlash (Http.Status resp) true] else []).
    set (w2 := if cond then _ else w1) in H.
    assert (Hw2 : w2 = emit w1 flash).
    { subst w2 flash. destruct cond; [reflexivity|].
      destruct w1; unfold emit; cbn; rewrite app_nil_r; reflexivity. }
    assert (Hflash : requests flash = 0%nat /\ appended flash = []).
    { subst flash. destruct cond; split; reflexivity. }
    destruct Hflash as [Hfr Hfa]. clearbody w2 flash. subst w2.
    destruct (Z.eqb_spec (Http.StatusCode resp) Http.StatusPartialContent) as [H206|Hn206];
      cbn [negb] in H.
    + destruct (transfer a iw resp (emit w1 flash)) as [[r e] w3] eqn:Ht.
      destruct (transfer_spec _ _ _ _ _ _ _ Ht)
        as (tr & Htr & Hf & Hrq & Htot & _ & Hk & _ & Hbody).
      cbn [emit wTrace wFile wTotal wPart] in Htr, Hf, Htot, Hk, Hbody.
      eapply (Hfin _ _ _ (flash ++ tr)); [exact H| | | | | | |].
      * rewrite Htr, <- app_assoc. reflexivity.
      * rewrite requests_app, Hfr, Hrq. reflexivity.
      * destruct Hk as (_ & _ & _ & _ & _ & Hs). exact Hs.
      * intros Hi. destruct (Http.Body resp).
        -- destruct Hbody as [Hw _]. rewrite Hw. apply wrap64_range.
        -- destruct Hbody as (Hp & _). rewrite Hp. exact Hi.
      * intros ->. eapply transfer_retry. exact Ht.
      * intros _. rewrite appended_app, Hfa. cbn [app].
        split; [|split; [exact Htot|]].
        -- destruct (Http.Body resp) eqn:Hb.
           ++ destruct Hbody as [Hw _]. rewrite Hw. apply wrap64_idem.
           ++ destruct Hbody as (Hp & _ & _). rewrite Hp.
              assert (Hnil : appended tr = []).
              { apply (app_inv_head (wFile w1)). rewrite app_nil_r, <- Hf.
                unfold transfer in Ht. rewrite Hb in Ht.
                injection Ht as _ _ <-. reflexivity. }
              rewrite Hnil. cbn. rewrite Z.add_0_r. reflexivity.
        -- intros Hpos. destruct (Http.Body resp).
           ++ destruct Hbody as [_ Hs]. rewrite Hs.
              destruct (Z.leb_spec (wTotal w1) 0); [lia|reflexivity].
           ++ destruct Hbody as (Hp & _ & _). rewrite Hp. reflexivity.
      * intros resp' script Heq _ Hb. inversion Heq; subst resp'.
        destruct (transfer_in_order a iw resp (emit w1 flash) script Hb) as (rest & Hr & Hl).
        rewrite Ht in Hr. exists rest. split; [exact Hr|exact Hl].
    + eapply (Hfin _ _ _ flash);
        [exact H|reflexivity|exact Hfr|reflexivity|tauto|discriminate| |].
      * intros _. rewrite Hfa. cbn. rewrite Z.add_0_r. auto.
      * intros resp' script Heq [H206|[H200 _]] _; inversion Heq; subst resp'; contradiction.
Qed.

(** ** The requests of a download *)

Lemma audited_app check (t1 t2 : list Event) :
  forall n b,
  audited check n b (t1 ++ t2)
  <-> audited check n b t1
      /\ audited check (n + requests t1) (b + length (appended t1)) t2.
Proof.
  induction t1 as [|e t1 IH]; intros n b.
  - cbn. rewrite !Nat.add_0_r. tauto.
  - destruct e as [range deadline|msg final|op|data]; cbn [app audited]; rewrite IH.
    + change (requests (EvRequest range deadline :: t1)) with (S (requests t1)).
      change (appended (EvRequest range deadline :: t1)) with (appended t1).
      replace (n + S (requests t1))%nat with (S n + requests t1)%nat by lia.
      tauto.
    + change (requests (EvFlash msg final :: t1)) with (requests t1).
      change (appended (EvFlash msg final :: t1)) with (appended t1).
      tauto.
    + change (requests (EvBar op :: t1)) with (requests t1).
      change (appended (EvBar op :: t1)) with (appended t1).
      tauto.
    + change (requests (EvWrite data :: t1)) with (requests t1).
      change (appended (EvWrite data :: t1)) with (data ++ appended t1).
      rewrite length_app.
      replace (b + (length data + length (appended t1)))%nat
        with (b + length data + length (appended t1))%nat by lia.
      tauto.
Qed.

Lemma audited_quiet check (tr : list Event) :
  requests tr = 0%nat -> forall n b, audited check n b tr.
Proof.
  induction tr as [|e tr IH]; intros Hr n b; [exact I|].
  destruct e; cbn [audited]; try (apply IH; exact Hr).
  discriminate Hr.
Qed.

Lemma audited_at check (pre post : list Event) (range : string) (deadline : Z) :
  audited check 0 0 (pre ++ EvRequest range deadline :: post) ->
  check (requests pre) (length (appended pre)) range deadline.
Proof. intros H. apply audited_app in H. destruct H as [_ [H _]]. exact H. Qed.

Lemma getRange_ext (p q : Part) :
  Stop q = Stop p -> Start q = Start p ->
  Int.wrap64 (Written q) = Int.wrap64 (Written p) ->
  getRange q = getRange p.
Proof.
  intros Hs Ha Hw. unfold getRange, Int.add64. rewrite Hs, Ha.
  replace (Int.wrap64 (Start p + Written q)) with (Int.wrap64 (Start p + Written p));
    [reflexivity|].
  rewrite (Z.add_comm _ (Written q)), (Z.add_comm _ (Written p)).
  rewrite <- (wrap64_add_l (Written q)), <- (wrap64_add_l (Written p)), Hw.
  reflexivity.
Qed.

(** The retry loop, for any invariant of the callback. *)
Lemma Retry_invariant {S : Type} (Inv : Z -> S -> Prop) (Fin : S -> Prop)
    (wait : Z -> option error) (fn : Z -> S -> bool * option error * S) :
  (forall c st r e st',
     Inv c st -> fn c st = (r, e, st') -> Fin st' /\ (r = true -> Inv (c + 1) st')) ->
  forall fuel c st err st',
  Inv c st -> Retry fuel wait fn c st = Some (err, st') -> Fin st'.
Proof.
  intros Hstep. induction fuel as [|fuel IH]; intros c st err st' Hinv H; [discriminate|].
  cbn [Retry] in H. destruct (fn c st) as [[r e] st1] eqn:Hfn.
  destruct (Hstep _ _ _ _ _ Hinv Hfn) as [Hfin Hnext].
  destruct r.
  - destruct (wait c).
    + inversion H; subst. exact Hfin.
    + eapply IH; [|exact H]. apply Hnext. reflexivity.
  - inversion H; subst. exact Hfin.
Qed.

Lemma tracked_step (env : DownloadEnv) (timeout iw : Z) (p : Part) (c : Z)
    (w : Worker) (r : bool) (e : option error) (w' : Worker) :
  tracked env timeout p w /\ Z.of_nat (requests (wTrace w)) = c ->
  attempt timeout iw (attempts env c) c w = (r, e, w') ->
  tracked env timeout p w'
  /\ (r = true -> tracked env timeout p w' /\ Z.of_nat (requests (wTrace w')) = c + 1).
Proof.
  intros [(Hd & Hs & Hin & Hacc) Hc] Ha.
  destruct (attempt_step _ _ _ _ _ _ _ _ Ha) as [(_ & -> & ->)|(_ & _ & Hstep)].
  { split; [exact (conj Hd (conj Hs (conj Hin Hacc)))|discriminate]. }
  destruct Hstep as (pre & post & Htr & [Hpr Hpa] & Hpost & Hs' & Hin' & _ & Hacc' & _).
  assert (Hreq : requests (wTrace w') = S (requests (wTrace w))).
  { rewrite Htr, !requests_app, Hpr.
    change (requests (EvRequest (getRange (wPart w)) (ctxTimeout timeout c) :: post))
      with (S (requests post)).
    rewrite Hpost. lia. }
  assert (Happ : appended (wTrace w') = appended (wTrace w) ++ appended post).
  { rewrite Htr, !appended_app, Hpa. reflexivity. }
  assert (Ht : tracked env timeout p w').
  { split; [|split; [|split]].
    - rewrite Htr. apply audited_app. split; [exact Hd|].
      apply audited_app. split; [apply audited_quiet; exact Hpr|].
      cbn [audited]. split.
      + rewrite Hpr, Nat.add_0_r. cbn. rewrite <- Hc. reflexivity.
      + apply audited_quiet. exact Hpost.
    - congruence.
    - tauto.
    - intros Hno. destruct (Hacc Hno) as (Hw & Ht & Hrange).
      destruct Hacc' as (Hw' & Ht' & Hst').
      { intros resp Hdo. eapply Hno. exact Hdo. }
      split; [|split].
      + rewrite Hw', Happ, length_app, <- wrap64_add_l, Hw, wrap64_add_l.
        f_equal. lia.
      + congruence.
      + intros Hpos. destruct (Hrange Hpos) as [Hst Hr].
        split; [rewrite Hst'; [exact Hst|rewrite Ht; exact Hpos]|].
        rewrite Htr. apply audited_app. split; [exact Hr|].
        apply audited_app. split; [apply audited_quiet; exact Hpr|].
        cbn [audited]. split; [|apply audited_quiet; exact Hpost].
        apply getRange_ext; [exact Hst|exact Hs|].
        rewrite Hpa. cbn [length advanced Written setWritten].
        rewrite Nat.add_0_r, Nat.add_0_l, wrap64_idem. exact Hw. }
  split; [exact Ht|]. intros _. split; [exact Ht|]. rewrite Hreq. lia.
Qed.

(** The end of [download], from the result of the retry loop. *)
Lemma download_unfold (env : DownloadEnv) (timeout : Z) (p : Part) (fs : FS) (g : Z)
    (d : Downloaded) :
  openErr env = None ->
  download env timeout p fs g = Some d ->
  exists err w post,
    Retry (retryFuel p) (waitErr env)
          (fun count => attempt timeout (Written p) (attempts env count) count) 0
          {| wPart := p; wTotal := Int.add64 (Int.sub64 (Stop p) (Start p)) 1;
             wFile := default [] (fs !! FileName p); wGlobTry := g; wTrace := [] |}
    = Some (err, w) /\
    dPart d = wPart w /\ dTrace d = wTrace w ++ post /\ silent post /\
    dErr d = withMessage err (name (wPart w)) /\
    dFS d = (if Skip (wPart w) then delete (FileName p) fs
             else <[FileName p := wFile w]> fs).
Proof.
  intros Hopen H. unfold download in H. rewrite Hopen in H.
  destruct (Retry _ _ _ _ _) as [[err w]|]; [|discriminate].
  exists err, w.
  set (w2 := if isGiveUp err then _ else w) in H.
  assert (H2 : exists post2, wTrace w2 = wTrace w ++ post2 /\ silent post2 /\
                 wPart w2 = wPart w /\ wFile w2 = wFile w).
  { subst w2. destruct (isGiveUp err).
    - exists [EvFlash "give up!" true]. repeat split.
    - exists []. rewrite app_nil_r. repeat split. }
  destruct H2 as (post2 & Ht2 & Hs2 & Hp2 & Hf2). clearbody w2.
  set (w3 := match err with Some _ => _ | None => w2 end) in H.
  assert (H3 : exists post3, wTrace w3 = wTrace w2 ++ post3 /\ silent post3).
  { subst w3. destruct err; [|exists []; rewrite app_nil_r; split; [reflexivity|apply silent_nil]].
    destruct (_ && _).
    - exists [EvBar (BarAbort false)]. split; [reflexivity|apply silent_bar].
    - exists []. rewrite app_nil_r. split; [reflexivity|apply silent_nil]. }
  destruct H3 as (post3 & Ht3 & Hs3). clearbody w3.
  inversion H; subst d; clear H. cbn [dPart dTrace dErr dFS].
  exists (post2 ++ post3). split; [reflexivity|].
  rewrite Hp2, Hf2, Ht3, Ht2, <- app_assoc.
  repeat split; try reflexivity; apply silent_app; assumption.
Qed.

(** What [download] keeps true of its trace and its part. *)
Lemma download_tracked (env : DownloadEnv) (timeout : Z) (p : Part) (fs : FS) (g : Z)
    (d : Downloaded) :
  openErr env = None ->
  download env timeout p fs g = Some d ->
  tracked env timeout p
    {| wPart := dPart d; wTotal := Int.add64 (Int.sub64 (Stop p) (Start p)) 1;
       wFile := []; wGlobTry := 0; wTrace := dTrace d |}
  /\ (Skip (dPart d) = false ->
      dFS d !! FileName p
      = Some (default [] (fs !! FileName p) ++ appended (dTrace d))).
Proof.
  intros Hopen H.
  destruct (download_unfold env timeout p fs g d Hopen H)
    as (err & w & post & HR & Hp & Ht & [Hpr Hpa] & _ & Hfs).
  set (w0 := {| wPart := p; wTotal := _; wFile := _; wGlobTry := g; wTrace := [] |}) in HR.
  assert (Hfin : tracked env timeout p w).
  { eapply (Retry_invariant
              (fun c w => tracked env timeout p w /\ Z.of_nat (requests (wTrace w)) = c)
              (tracked env timeout p)); [|split|exact HR].
    - intros c st r e st' Hinv Hfn. cbv beta in Hfn.
      exact (tracked_step env timeout (Written p) p c st r e st' Hinv Hfn).
    - split; [exact I|]. split; [reflexivity|]. split; [tauto|]. intros _.
      split; [cbn; rewrite Z.add_0_r; reflexivity|]. split; [reflexivity|].
      intros _. split; [reflexivity|exact I].
    - reflexivity. }
  split.
  - destruct Hfin as (Hd & Hs & Hin & Hacc). unfold tracked. cbn [wTrace wPart wTotal].
    rewrite Hp, Ht. split; [|split; [exact Hs|split; [exact Hin|]]].
    + apply audited_app. split; [exact Hd|]. apply audited_quiet. exact Hpr.
    + intros Hno. destruct (Hacc Hno) as (Hw & Htot & Hrange).
      rewrite appended_app, Hpa, app_nil_r.
      split; [exact Hw|]. split; [reflexivity|].
      intros Hpos. destruct (Hrange Hpos) as [Hst Hr]. split; [exact Hst|].
      apply audited_app. split; [exact Hr|]. apply audited_quiet. exact Hpr.
  - intros Hskip. rewrite Hfs. rewrite Hp in Hskip. rewrite Hskip.
    rewrite lookup_insert_eq. f_equal.
    pose proof (Retry_worked timeout (Written p) (attempts env) (waitErr env)
                  _ _ _ _ _ HR) as (tr & Htr & Hf & _).
    cbn [w0 wTrace wFile app] in Htr, Hf.
    rewrite Hf, Ht, appended_app, Hpa, app_nil_r, Htr. reflexivity.
Qed.



(** X3: as long as the server never answers 200, [Written] counts the
    bytes appended: after [download] it is what it was plus the number of
    bytes the segment file grew by; so if the file held [Written] bytes when
    the download started (as it does when a session is resumed), it holds
    [Written] bytes when the download ends, unless the part is skipped. *)
Theorem written_counts_the_file (env : DownloadEnv) (timeout : Z) (p : Part)
    (fs : FS) (g : Z) :
  openErr env = None -> neverWhole env -> Int.in_int64 (Written p) ->
  exists d,
    download env timeout p fs g = Some d /\
    Written (dPart d)
    = Int.wrap64 (Written p + Z.of_nat (length (appended (dTrace d)))) /\
    (Skip (dPart d) = false ->
     Z.of_nat (length (default [] (fs !! FileName p))) = Written p ->
     exists file,
       dFS d !! FileName p = Some file /\
       Written (dPart d) = Int.wrap64 (Z.of_nat (length file))).
Proof.
  intros Hopen Hno Hin.
  destruct (download_spec env timeout p fs g) as (d & Hd & _).
  exists d. split; [exact Hd|].
  destruct (download_tracked env timeout p fs g d Hopen Hd)
    as [(_ & _ & Hin' & Hacc) Hfile].
  cbn [wTrace wPart] in Hin', Hacc. destruct (Hacc Hno) as (Hw & _).
  rewrite (wrap64_id _ (Hin' Hin)) in Hw. split; [exact Hw|].
  intros Hskip Hlen. eexists. split; [exact (Hfile Hskip)|].
  rewrite Hw, length_app, Nat2Z.inj_add, Hlen. reflexivity.
Qed.

(** The part of five bytes, downloaded in two attempts: [Written] is five
    and the segment file holds five bytes. *)
Lemma written_counts_the_file_witness :
  exists d,
    download resumingServer 15 part0 ∅ 0 = Some d /\
    Written (dPart d) = 5 /\
    dFS d !! "f.part0" = Some (bytesOf "hello").
Proof.
  destruct (written_counts_the_file resumingServer 15 part0 ∅ 0 eq_refl)
    as (d & Hd & Hw & _).
  - intros count resp. unfold resumingServer. cbn [attempts].
    destruct (count =? 0); intros H; inversion H; subst; discriminate.
  - unfold Int.in_int64. cbn. lia.
  - exists d. split; [exact Hd|].
    assert (Hrun : download resumingServer 15 part0 ∅ 0 = Some d) by exact Hd.
    vm_compute in Hrun. inversion Hrun; subst d. vm_compute. split; reflexivity.
Defined.

(** X4: the bytes of the body reach the segment file in order, none
    dropped and none twice.  Along the streaming loop the file followed by
    the staging buffer is what it was followed by the bytes delivered, the
    bytes that came with a read error included; after an attempt that
    streams a body (status 206, or 200 for part 0) the file is a prefix of
    what it was followed by the delivered bytes, and all of it when the
    last write is complete. *)
Theorem body_reaches_file_in_order (timeout iw : Z) (a : Attempt) (count : Z)
    (w : Worker) (resp : Http.Response) (script : list Http.ReadStep) :
  count <= maxTry (wPart w) -> isDone (wPart w) = false ->
  doResult a = inr resp ->
  Http.StatusCode resp = 206 \/ Http.StatusCode resp = 200 /\ order (wPart w) = 0 ->
  Http.Body resp = Some script ->
  (forall total s,
     sFile (stream total script s) ++ sBuf (stream total script s)
     = sFile s ++ sBuf s ++ delivered script) /\
  exists rest,
    wFile (attempt timeout iw a count w).2 ++ rest = wFile w ++ delivered script /\
    (lastWrite a = None -> rest = []).
Proof.
  intros Hc Hnd Hdo Hst Hb. split; [intros total s; apply stream_in_order|].
  destruct (attempt timeout iw a count w) as [[retry err] w'] eqn:Ha.
  destruct (attempt_step _ _ _ _ _ _ _ _ Ha) as [([Hgt|Hd] & _)|(_ & _ & Hstep)];
    [lia|congruence|].
  destruct Hstep as (pre & post & _ & _ & _ & _ & _ & _ & _ & Hdel).
  exact (Hdel resp script Hdo Hst Hb).
Qed.

(** A body that arrives in two reads, the first with a temporary error,
    into a file whose first write stops after three bytes: the file ends
    with all five bytes, in order. *)
Lemma body_reaches_file_in_order_witness :
  wFile (attempt 15 0 (answered haltingResponse) 0 (workerOf part0 "")).2
  = bytesOf "hello".
Proof.
  destruct (body_reaches_file_in_order 15 0 (answered haltingResponse) 0
              (workerOf part0 "") haltingResponse haltingBody)
    as (_ & rest & Heq & Hrest);
    [cbn; lia | reflexivity | reflexivity | left; reflexivity | reflexivity |].
  rewrite (Hrest eq_refl), app_nil_r in Heq. rewrite Heq. reflexivity.
Defined.

(** X5: the callback asks for a retry only within the retry budget and only
    for a part that is still not done when the call returns, and a call that
    asks for a retry has issued exactly one request. *)
Theorem retry_only_unfinished (timeout iw : Z) (a : Attempt) (count : Z) (w : Worker) :
  (attempt timeout iw a count w).1.1 = true ->
  count <= maxTry (wPart w) /\
  isDone (wPart (attempt timeout iw a count w).2) = false /\
  requests (wTrace (attempt timeout iw a count w).2) = S (requests (wTrace w)).
Proof.
  destruct (attempt timeout iw a count w) as [[retry err] w'] eqn:Ha.
  cbn [fst snd]. intros ->.
  destruct (attempt_step _ _ _ _ _ _ _ _ Ha) as [(_ & _ & Habs)|(Hc & _ & Hstep)];
    [discriminate|].
  destruct Hstep as (pre & post & Htr & [Hpr _] & Hpost & _ & _ & Hdone & _).
  split; [exact Hc|]. split; [exact (Hdone eq_refl)|].
  rewrite Htr, !requests_app, Hpr.
  change (requests (EvRequest (getRange (wPart w)) (ctxTimeout timeout count) :: post))
    with (S (requests post)).
  rewrite Hpost. lia.
Qed.

(** A refused connection: the callback asks for a retry, the part is not
    done and one request was made. *)
Lemma retry_only_unfinished_witness :
  isDone (wPart (attempt 15 0 refused 0 (workerOf part0 "")).2) = false /\
  requests (wTrace (attempt 15 0 refused 0 (workerOf part0 "")).2) = 1%nat.
Proof.
  destruct (retry_only_unfinished 15 0 refused 0 (workerOf part0 "") eq_refl)
    as (_ & Hd & Hr).
  split; [exact Hd|exact Hr].
Defined.

(** ** A range, fetched *)

Lemma stream_ending (total : Z) (script : list Http.ReadStep) :
  forall s, sErr (stream total script s) = ending (sErr s) script.
Proof.
  induction script as [|step rest IH]; intros s; [reflexivity|].
  destruct step as [|data rerr wlimit]; [reflexivity|].
  destruct rerr as [e|].
  - destruct e; try reflexivity. cbn [stream ending]. destruct temporary.
    + rewrite IH. reflexivity.
    + reflexivity.
  - cbn [stream ending fileCopy]. rewrite IH. reflexivity.
Qed.

(** What a transfer returns, from the way the body ends. *)
Lemma transfer_result (a : Attempt) (iw : Z) (resp : Http.Response) (w : Worker)
    (script : list Http.ReadStep) :
  Http.Body resp = Some script ->
  (transfer a iw resp w).1
  = if isEOF (ending None script) then (false, None)
    else (negb (isDone (wPart (transfer a iw resp w).2)), ending None script).
Proof.
  intros Hb. unfold transfer. rewrite Hb. cbn [fileCopy].
  rewrite stream_ending. cbn [sErr].
  destruct (isEOF (ending None script)); reflexivity.
Qed.

(** An attempt that is answered 206 and streams the body to its end. *)
Lemma attempt_streams (timeout iw : Z) (a : Attempt) (count : Z) (w : Worker)
    (resp : Http.Response) (script : list Http.ReadStep) :
  count <= maxTry (wPart w) -> isDone (wPart w) = false ->
  doResult a = inr resp ->
  Http.StatusCode resp = Http.StatusPartialContent ->
  Http.Body resp = Some script -> lastWrite a = None ->
  exists retry err w',
    attempt timeout iw a count w = (retry, err, w') /\
    wFile w' = wFile w ++ delivered script /\
    Written (wPart w')
    = Int.wrap64 (Written (wPart w) + Z.of_nat (length (delivered script))) /\
    (0 < wTotal w -> Stop (wPart w') = Stop (wPart w)) /\
    kept (wPart w) (wPart w') /\ Skip (wPart w') = Skip (wPart w) /\
    wTotal w' = wTotal w /\
    (retry, err) = (if isEOF (ending None script) then (false, None)
                    else (negb (isDone (wPart w')), ending None script)).
Proof.
  intros Hc Hnd Hdo H206 Hb Hl.
  rewrite (attempt_answered timeout iw a count w resp Hc Hnd Hdo). cbv zeta.
  destruct (announce_spec timeout count w) as (Hw1 & Hf1 & Ht1 & Hst1 & Hwr1 & Hsk1 & _).
  set (w1 := announce timeout count w) in *. clearbody w1.
  rewrite H206. cbn [Z.eqb Http.StatusPartialContent Http.StatusOK Http.StatusForbidden
                     Http.StatusTooManyRequests Pos.eqb orb negb].
  pose proof (transfer_result a iw resp w1 script Hb) as Hres.
  destruct (transfer_in_order a iw resp w1 script Hb) as (rest & Hfile & Hrest).
  rewrite (Hrest Hl), app_nil_r in Hfile.
  destruct (transfer a iw resp w1) as [[retry err] w2] eqn:Ht.
  destruct (transfer_spec _ _ _ _ _ _ _ Ht)
    as (tr & _ & Hf & _ & Htot & _ & Hk & Hsk & Hbody).
  rewrite Hb in Hbody. destruct Hbody as [Hw Hst].
  cbn [fst snd] in Hres, Hfile.
  assert (Happ : appended tr = delivered script).
  { apply (app_inv_head (wFile w1)). rewrite <- Hf. exact Hfile. }
  exists retry, err, (elapse a w2). split; [reflexivity|].
  cbn [elapse withPart wFile wPart wTotal setElapsed Written Stop Skip].
  split; [rewrite Hfile, Hf1; reflexivity|].
  split; [rewrite Hw, Happ, Hwr1; reflexivity|].
  split.
  { intros Hpos. rewrite Hst, Ht1.
    destruct (Z.leb_spec (wTotal w) 0); [lia|exact Hst1]. }
  split.
  { destruct Hw1 as (tr1 & _ & _ & _ & Hk1). eapply kept_trans; [exact Hk1|].
    eapply kept_trans; [exact Hk|]. repeat split. }
  split; [congruence|]. split; [congruence|].
  rewrite Hres. destruct (isEOF _); reflexivity.
Qed.

(** An attempt whose request fails. *)
Lemma attempt_refused (timeout iw : Z) (a : Attempt) (count : Z) (w : Worker) (e : error) :
  count <= maxTry (wPart w) -> isDone (wPart w) = false ->
  doResult a = inl e ->
  exists w',
    attempt timeout iw a count w = (true, Some e, w') /\
    wFile w' = wFile w /\ Written (wPart w') = Written (wPart w) /\
    Stop (wPart w') = Stop (wPart w) /\ kept (wPart w) (wPart w') /\
    Skip (wPart w') = Skip (wPart w) /\ wTotal w' = wTotal w.
Proof.
  intros Hc Hnd Hdo. unfold attempt.
  destruct (Z.ltb_spec (maxTry (wPart w)) count); [lia|].
  rewrite Hnd, Hdo.
  destruct (announce_spec timeout count w) as (Hw1 & Hf1 & Ht1 & Hst1 & Hwr1 & Hsk1 & _).
  eexists. split; [reflexivity|].
  cbn [elapse withPart wFile wPart wTotal setElapsed Written Stop Skip].
  destruct Hw1 as (tr1 & _ & _ & _ & Hk1).
  repeat split; try assumption; apply Hk1.
Qed.

(** The retry loop against a server that serves the range: from the request
    with count [last - n] on, it ends without error with the whole range on
    disk. *)
Lemma Retry_fetches (resource : list byte) (env : DownloadEnv) (off : Z -> nat)
    (last timeout iw : Z) (p : Part) :
  rangeServed resource env off last ->
  last <= maxTry p ->
  Z.of_nat (length resource) = Stop p - Start p + 1 ->
  Z.of_nat (length resource) < 2 ^ 63 ->
  forall (n : nat) (count : Z) (w : Worker) (fuel : nat),
    count = last - Z.of_nat n -> 0 <= count -> (n < fuel)%nat ->
    wFile w = take (off count) resource ->
    Written (wPart w) = Z.of_nat (off count) ->
    Stop (wPart w) = Stop p -> kept p (wPart w) -> Skip (wPart w) = false ->
    0 < wTotal w ->
    exists w',
      Retry fuel (waitErr env)
            (fun count => attempt timeout iw (attempts env count) count) count w
      = Some (None, w') /\
      wFile w' = resource /\ Written (wPart w') = Z.of_nat (length resource) /\
      Stop (wPart w') = Stop p /\ kept p (wPart w') /\ Skip (wPart w') = false.
Proof.
  intros [Hend Hserved] Hmax Hlen Hfit.
  assert (Hdone : forall q : Part,
            Stop q = Stop p -> kept p q -> Skip q = false ->
            isDone q = (Z.of_nat (length resource) - 1 <? Written q)).
  { intros q Hst Hk Hsk. unfold isDone. rewrite Hsk, Hst.
    destruct Hk as (_ & _ & _ & _ & _ & ->). unfold Int.sub64.
    rewrite wrap64_id by (unfold Int.in_int64; lia).
    cbn [orb]. f_equal. lia. }
  induction n as [|n IH]; intros count w fuel Hcount Hnn Hfuel Hfile Hw Hst Hk Hsk Htot;
    (destruct fuel as [|fuel]; [lia|]);
    destruct (Hserved count ltac:(lia)) as (Hlt & Hwait & Hanswer);
    assert (Hnd : isDone (wPart w) = false)
      by (rewrite (Hdone _ Hst Hk Hsk), Hw; apply Z.ltb_ge; lia);
    assert (Hc : count <= maxTry (wPart w))
      by (destruct Hk as (-> & _); lia);
    cbn [Retry];
    destruct (doResult (attempts env count)) as [e|resp] eqn:Hdo.
  - (* the last request fails: it cannot be the last *)
    replace count with last in * by lia. rewrite Hend in Hanswer. lia.
  - destruct Hanswer as (H206 & Hlw & script & Hb & Hdrop & Hoff & Heof).
    destruct (attempt_streams timeout iw _ count w resp script Hc Hnd Hdo H206 Hb Hlw)
      as (retry & err & w' & -> & Hf' & Hw' & Hst' & Hk' & Hsk' & Htot' & Hres).
    rewrite (proj2 Heof ltac:(lia)) in Hres. injection Hres as -> ->.
    exists w'. split; [reflexivity|].
    assert (Hnext : off (count + 1) = length resource)
      by (replace count with last by lia; exact Hend).
    split.
    { rewrite Hf', Hfile.
      replace (delivered script)
        with (take (length (delivered script)) (drop (off count) resource))
        by (rewrite Hdrop; apply take_app_length).
      rewrite take_take_drop, <- Hoff, Hnext. apply firstn_all. }
    split.
    { rewrite Hw', Hw, <- Nat2Z.inj_add, <- Hoff, Hnext.
      apply wrap64_id. unfold Int.in_int64. lia. }
    split; [rewrite (Hst' Htot); exact Hst|].
    split; [eapply kept_trans; eassumption|congruence].
  - (* a failed request: nothing changes, and the loop goes on *)
    destruct (attempt_refused timeout iw _ count w e Hc Hnd Hdo)
      as (w' & -> & Hf' & Hw' & Hst' & Hk' & Hsk' & Htot').
    rewrite Hwait.
    apply IH; try lia; try congruence.
    eapply kept_trans; eassumption.
  - destruct Hanswer as (H206 & Hlw & script & Hb & Hdrop & Hoff & Heof).
    destruct (attempt_streams timeout iw _ count w resp script Hc Hnd Hdo H206 Hb Hlw)
      as (retry & err & w' & -> & Hf' & Hw' & Hst' & Hk' & Hsk' & Htot' & Hres).
    destruct (isEOF (ending None script)) eqn:Heq.
    { pose proof (proj1 Heof eq_refl). lia. }
    destruct (Hserved (count + 1) ltac:(lia)) as (Hlt' & _ & _).
    assert (Hwritten : Written (wPart w') = Z.of_nat (off (count + 1))).
    { rewrite Hw', Hw, <- Nat2Z.inj_add, <- Hoff.
      apply wrap64_id. unfold Int.in_int64. lia. }
    assert (Hst2 : Stop (wPart w') = Stop p) by (rewrite (Hst' Htot); exact Hst).
    assert (Hk2 : kept p (wPart w')) by (eapply kept_trans; eassumption).
    assert (Hsk2 : Skip (wPart w') = false) by congruence.
    rewrite (Hdone _ Hst2 Hk2 Hsk2), Hwritten in Hres.
    replace (_ <? _) with false in Hres by (symmetry; apply Z.ltb_ge; lia).
    injection Hres as -> ->. rewrite Hwait.
    apply IH; try lia; try assumption.
    rewrite Hf', Hfile.
    replace (delivered script)
      with (take (length (delivered script)) (drop (off count) resource))
      by (rewrite Hdrop; apply take_app_length).
    rewrite take_take_drop, <- Hoff. reflexivity.
Qed.

(** X20 (download, the retry callback, isDone).  Against a server that
    serves the part's range -- every request up to the one with count [last]
    either fails or is answered 206 with the bytes that follow those already
    on disk, breaking off with an error other than io.EOF before the range
    is complete and ending with io.EOF when it is -- [download] returns nil
    once [last] is within the part's [maxTry]: the part is done, [Written]
    is the length of the range, the segment file holds the range, byte for
    byte, and no other file is touched.  A part that resumes ([Written]
    bytes on disk already) is covered as well as a new one. *)
Theorem download_fetches_the_range (resource : list byte) (env : DownloadEnv)
    (off : Z -> nat) (last timeout : Z) (p : Part) (fs : FS) (g : Z) :
  openErr env = None ->
  rangeServed resource env off last ->
  0 <= last <= maxTry p ->
  Skip p = false ->
  Z.of_nat (length resource) = Stop p - Start p + 1 ->
  Z.of_nat (length resource) < 2 ^ 63 ->
  Written p = Z.of_nat (off 0) ->
  default [] (fs !! FileName p) = take (off 0) resource ->
  exists d,
    download env timeout p fs g = Some d /\
    dErr d = None /\
    isDone (dPart d) = true /\
    Written (dPart d) = Z.of_nat (length resource) /\
    dFS d !! FileName p = Some resource /\
    (forall other, other <> FileName p -> dFS d !! other = fs !! other).
Proof.
  intros Hopen Hserved Hlast Hskip Hlen Hfit Hw Hfile.
  set (w := {| wPart := p; wTotal := Int.add64 (Int.sub64 (Stop p) (Start p)) 1;
               wFile := default [] (fs !! FileName p); wGlobTry := g; wTrace := [] |}).
  assert (Htot : 0 < wTotal w).
  { cbn [w wTotal]. unfold Int.add64, Int.sub64.
    rewrite wrap64_add_l, wrap64_id by (unfold Int.in_int64; lia).
    destruct Hserved as [_ Hs]. destruct (Hs 0 ltac:(lia)) as (Hlt & _). lia. }
  destruct (Retry_fetches resource env off last timeout (Written p) p Hserved
              ltac:(lia) Hlen Hfit (Z.to_nat last) 0 w (retryFuel p))
    as (w' & HR & Hf' & Hw' & Hst' & Hk' & Hsk'); try assumption; try reflexivity.
  { lia. }
  { unfold retryFuel. lia. }
  { repeat split. }
  unfold download. rewrite Hopen. cbv zeta. fold w. rewrite HR.
  cbn [isGiveUp]. rewrite Hsk'. eexists. split; [reflexivity|].
  cbn [dErr dPart dFS withMessage].
  split; [reflexivity|].
  split.
  { unfold isDone. rewrite Hsk', Hst', Hw'.
    destruct Hk' as (_ & _ & _ & _ & _ & ->). unfold Int.sub64.
    rewrite wrap64_id by (unfold Int.in_int64; lia).
    cbn [orb]. apply Z.ltb_lt. lia. }
  split; [exact Hw'|].
  split; [rewrite lookup_insert_eq, Hf'; reflexivity|].
  intros other Hother. apply lookup_insert_ne. congruence.
Qed.

Lemma download_fetches_the_range_witness :
  exists d,
    download resumingServer 30 part0 ∅ 0 = Some d /\
    dErr d = None /\
    isDone (dPart d) = true /\
    Written (dPart d) = Z.of_nat (length (bytesOf "hello")) /\
    dFS d !! FileName part0 = Some (bytesOf "hello") /\
    (forall other, other <> FileName part0 -> dFS d !! other = (∅ : FS) !! other).
Proof.
  apply (download_fetches_the_range (bytesOf "hello") resumingServer
           (fun count => if count =? 0 then 0%nat else if count =? 1 then 2%nat else 5%nat)
           1 30 part0 ∅ 0).
  - reflexivity.
  - split; [reflexivity|]. intros count Hcount.
    assert (Hc : count = 0 \/ count = 1) by lia.
    destruct Hc as [-> | ->].
    + split; [vm_compute; lia|]. split; [reflexivity|].
      split; [reflexivity|]. split; [reflexivity|].
      eexists. split; [reflexivity|]. split; [reflexivity|]. split; [reflexivity|].
      split; [intros H; vm_compute in H; discriminate|lia].
    + split; [vm_compute; lia|]. split; [reflexivity|].
      split; [reflexivity|]. split; [reflexivity|].
      eexists. split; [reflexivity|]. split; [reflexivity|]. split; [reflexivity|].
      split; reflexivity.
  - cbn. lia.
  - reflexivity.
  - reflexivity.
  - vm_compute. reflexivity.
  - reflexivity.
  - reflexivity.
Defined.

(** X21 (download, the retry callback).  A 206 answer whose body ends with
    io.EOF before the range is complete ends the download quietly: the
    callback returns [false, nil] on io.EOF without looking at [isDone], so
    [download] returns nil after this one request, with the bytes that came
    appended to the segment file and the part not done. *)
Theorem early_eof_ends_quietly (env : DownloadEnv) (timeout : Z) (p : Part) (fs : FS)
    (g : Z) (resp : Http.Response) (script : list Http.ReadStep) :
  openErr env = None ->
  0 <= maxTry p -> Skip p = false ->
  doResult (attempts env 0) = inr resp ->
  Http.StatusCode resp = Http.StatusPartialContent ->
  Http.Body resp = Some script ->
  lastWrite (attempts env 0) = None ->
  isEOF (ending None script) = true ->
  0 <= Written p ->
  Written p + Z.of_nat (length (delivered script)) <= Stop p - Start p ->
  Stop p - Start p < 2 ^ 63 - 1 ->
  exists d,
    download env timeout p fs g = Some d /\
    dErr d = None /\
    isDone (dPart d) = false /\
    Written (dPart d) = Written p + Z.of_nat (length (delivered script)) /\
    dFS d !! FileName p = Some (default [] (fs !! FileName p) ++ delivered script) /\
    requests (dTrace d) = 1%nat.
Proof.
  intros Hopen Hmax Hskip Hdo H206 Hb Hlw Heof Hw0 Hshort Hfit.
  set (w := {| wPart := p; wTotal := Int.add64 (Int.sub64 (Stop p) (Start p)) 1;
               wFile := default [] (fs !! FileName p); wGlobTry := g; wTrace := [] |}).
  assert (Hsub : Int.sub64 (Stop p) (Start p) = Stop p - Start p).
  { unfold Int.sub64. apply wrap64_id. unfold Int.in_int64. lia. }
  assert (Htot : 0 < wTotal w).
  { cbn [w wTotal]. rewrite Hsub. unfold Int.add64.
    rewrite wrap64_id by (unfold Int.in_int64; lia). lia. }
  assert (Hnd : isDone (wPart w) = false).
  { cbn [w wPart]. unfold isDone. rewrite Hskip, Hsub. cbn [orb].
    apply Z.ltb_ge. lia. }
  destruct (attempt_streams timeout (Written p) _ 0 w resp script
              ltac:(exact Hmax) Hnd Hdo H206 Hb Hlw)
    as (retry & err & w' & Hatt & Hf' & Hw' & Hst' & Hk' & Hsk' & Htot' & Hres).
  rewrite Heof in Hres. injection Hres as -> ->.
  assert (Hreq : requests (wTrace w') = 1%nat).
  { destruct (attempt_step _ _ _ _ _ _ _ _ Hatt) as [(Hno & _)|(_ & _ & Hstep)].
    - destruct Hno as [Hno|Hno]; [cbn [w wPart] in Hno; lia|congruence].
    - destruct Hstep as (pre & post & Htr & [Hpre _] & Hpost & _).
      rewrite Htr. cbn [w wTrace app].
      rewrite requests_app, Hpre.
      change (EvRequest ?r ?t :: post) with ([EvRequest r t] ++ post).
      rewrite requests_app, Hpost. reflexivity. }
  unfold download. rewrite Hopen. cbv zeta. fold w.
  unfold retryFuel. cbn [Retry]. rewrite Hatt.
  cbn [w wPart] in Hsk'. rewrite Hskip in Hsk'.
  cbn [isGiveUp]. rewrite Hsk'.
  eexists. split; [reflexivity|].
  cbn [dErr dPart dFS dTrace withMessage].
  assert (Hwritten : Written (wPart w') = Written p + Z.of_nat (length (delivered script))).
  { rewrite Hw'. cbn [w wPart]. apply wrap64_id. unfold Int.in_int64. lia. }
  split; [reflexivity|].
  split.
  { unfold isDone. rewrite Hsk', (Hst' Htot), Hwritten.
    destruct Hk' as (_ & _ & _ & _ & _ & ->). cbn [w wPart]. rewrite Hsub.
    cbn [orb]. apply Z.ltb_ge. lia. }
  split; [exact Hwritten|].
  split; [rewrite lookup_insert_eq, Hf'; reflexivity|exact Hreq].
Qed.

Lemma early_eof_ends_quietly_witness :
  exists d,
    download shortServer 30 part0 ∅ 0 = Some d /\
    dErr d = None /\
    isDone (dPart d) = false /\
    Written (dPart d)
    = Written part0
      + Z.of_nat (length (delivered [Http.CopyN (bytesOf "hel") (Some EOF) None])) /\
    dFS d !! FileName part0
    = Some (default [] ((∅ : FS) !! FileName part0)
            ++ delivered [Http.CopyN (bytesOf "hel") (Some EOF) None]) /\
    requests (dTrace d) = 1%nat.
Proof.
  apply (early_eof_ends_quietly shortServer 30 part0 ∅ 0 (respond 206 3 "hel")
           [Http.CopyN (bytesOf "hel") (Some EOF) None]);
    try reflexivity; cbn; lia.
Defined.

(** ** How a run ends *)

Lemma askPassword_same (env : RunEnv) (o o1 : Opts.Options) :
  askPassword env o = inr o1 ->
  o1 = o \/ exists pass, o1 = Opts.setAuthPass o pass.
Proof.
  unfold askPassword. destruct (_ && _).
  - destruct (readPassword env) as [e|pass]; [discriminate|].
    intros H. inversion H; subst. right. eauto.
  - intros H. inversion H; subst. left. reflexivity.
Qed.

Section RunEnds.

Variable parseContentDisposition : string -> string.
Variable urlBaseName : string -> string.
Variable ops : SessionOps.

(** The session [follow] returns sits at a URL that [http.NewRequest]
    accepted. *)
Lemma followLoop_location (env : FollowEnv) (outFileName : string) (fuel : nat) :
  forall i userUrl redirected session err r,
  followLoop parseContentDisposition urlBaseName env outFileName fuel i userUrl redirected
  = (Some session, err, r) ->
  newRequest env (Location session) = None.
Proof.
  induction fuel as [|fuel IH]; intros i userUrl redirected session err r H;
    [discriminate|].
  cbn [followLoop] in H.
  destruct (newRequest env userUrl) eqn:Hreq; [discriminate|].
  destruct (clientDo env i userUrl) as [e|resp]; [discriminate|].
  destruct (isRedirect (Http.StatusCode resp)).
  - destruct (Http.RespLocation resp) as [e|loc]; [discriminate|].
    eapply IH. exact H.
  - destruct (negb (Http.StatusCode resp =? Http.StatusOK)); [discriminate|].
    inversion H; subst. exact Hreq.
Qed.

Lemma follow_location (env : FollowEnv) (outFileName userUrl : string)
    (session : Session) (err : option error) :
  follow parseContentDisposition urlBaseName env outFileName userUrl = (Some session, err) ->
  newRequest env (Location session) = None.
Proof.
  unfold follow.
  destruct (followLoop _ _ _ _ _ _ _ _) as [[s e] r] eqn:Hloop.
  intros H. inversion H; subst s.
  eapply followLoop_location. exact Hloop.
Qed.

(** Every worker returns, and so does the fan-out. *)
Lemma fanOut_returns (env : RunEnv) (o : Opts.Options) (parts : list Part) :
  forall i st, exists f, fanOut env o i parts st = Some f.
Proof.
  induction parts as [|p rest IH]; intros i st; [eexists; reflexivity|].
  cbn [fanOut]. destruct (isDone p); [apply IH|].
  destruct (download_spec (workers env i) (Opts.Timeout o) (prepare o i p)
              (fFiles st) (fGlobTry st)) as (d & -> & _).
  apply IH.
Qed.

Lemma settle_returns (env : RunEnv) (o : Opts.Options) (userUrl : string)
    (session : Session) (err : option error) (fs : FS) (evs : list RunEvent) :
  exists e, outcome (settle ops env o userUrl session err fs evs) = Returns e.
Proof.
  unfold settle. destruct (_ && _ && _).
  - destruct (concatenateParts ops _ fs) as [[e|] fs']; [eexists; reflexivity|].
    destruct (negb _); [|eexists; reflexivity].
    destruct (osRemove _ fs'). eexists; reflexivity.
  - destruct (saveState ops _ _ fs) as [[e|] fs']; eexists; reflexivity.
Qed.

(** The plan leaves the session where the resolver found it. *)
Lemma plan_location (env : RunEnv) (o o' : Opts.Options) (lastSession : option Session)
    (session session' : Session) (fs fs' : FS) (evs : list RunEvent) :
  plan ops env o lastSession session fs = inr (o', session', fs', evs) ->
  Location session' = Location session.
Proof.
  unfold plan. destruct lastSession as [last|].
  - destruct (negb (String.eqb _ _)); [discriminate|].
    destruct (negb (_ =? _)); [discriminate|].
    intros H. inversion H; subst. reflexivity.
  - destruct (0 <? Opts.Parts o); [|intros H; inversion H; subst; reflexivity].
    cbv zeta. destruct (_ !! _).
    + destruct (answer env) as [e|a]; [discriminate|].
      destruct (saysYes a); [|discriminate].
      destruct (removeFiles ops _ fs) as [[e|] fs1]; [discriminate|].
      intros H. inversion H; subst. reflexivity.
    + intros H. inversion H; subst. reflexivity.
Qed.

Lemma plan_returns (env : RunEnv) (o : Opts.Options) (lastSession : option Session)
    (session : Session) (fs : FS) (r : Ran) :
  plan ops env o lastSession session fs = inl r ->
  exists e, outcome r = Returns e.
Proof.
  unfold plan. destruct lastSession as [last|].
  - destruct (negb (String.eqb _ _)); [intros H; inversion H; eexists; reflexivity|].
    destruct (negb (_ =? _)); [intros H; inversion H; eexists; reflexivity|discriminate].
  - destruct (0 <? Opts.Parts o); [|discriminate].
    cbv zeta. destruct (_ !! _); [|discriminate].
    destruct (answer env) as [e|a]; [intros H; inversion H; eexists; reflexivity|].
    destruct (saysYes a); [|intros H; inversion H; eexists; reflexivity].
    destruct (removeFiles ops _ fs) as [[e|] fs1]; [|discriminate].
    intros H. inversion H; eexists; reflexivity.
Qed.

Lemma transferAll_returns (env : RunEnv) (o : Opts.Options) (userUrl : string)
    (lastSession : option Session) (session : Session) (fs : FS) :
  newRequest (resolver env) (Location session) = None ->
  exists e, outcome (transferAll ops env o userUrl lastSession session fs) = Returns e.
Proof.
  intros Hreq. unfold transferAll.
  destruct (plan ops env o lastSession session fs) as [r|[[[o' s'] fs'] evs]] eqn:Hplan.
  { eapply plan_returns. exact Hplan. }
  rewrite (plan_location _ _ _ _ _ _ _ _ _ Hplan), Hreq, andb_false_r.
  destruct (fanOut_returns env o' (Parts s') 0%nat
              {| fParts := []; fErrs := []; fFiles := fs'; fGlobTry := 0;
                 fEvents := if Opts.Quiet o' then evs
                            else evs ++ [Print "summary of %q" [AStr (SuggestedFileName s')]] |})
    as (f & ->).
  apply settle_returns.
Qed.

Lemma exitCode_range (err : option error) : 0 <= exitCode err <= 3.
Proof.
  unfold exitCode, Exit. destruct err as [e|]; [|cbn; lia].
  destruct (Cause e) as [ty ?| | | | | | | | | |]; cbn; try lia.
  destruct ty; cbn; lia.
Qed.


End RunEnds.

(** ** The fan-out *)

(** A worker leaves the identity of its part and every other file alone. *)
Lemma download_frame (env : DownloadEnv) (timeout : Z) (p : Part) (fs : FS) (g : Z)
    (d : Downloaded) :
  download env timeout p fs g = Some d ->
  kept p (dPart d) /\
  (forall other, other <> FileName p -> dFS d !! other = fs !! other).
Proof.
  intros Hd. destruct (download_spec env timeout p fs g) as (d' & Hd' & Hspec).
  rewrite Hd in Hd'. inversion Hd'; subst d'. clear Hd'.
  destruct (openErr env).
  - subst d. split; [apply kept_refl|reflexivity].
  - destruct Hspec as (_ & Hk & Hfs & _). split; [exact Hk|].
    intros other Hne. rewrite Hfs. destruct (Skip (dPart d)).
    + apply lookup_delete_ne. congruence.
    + apply lookup_insert_ne. congruence.
Qed.

Lemma fanOut_spec (env : RunEnv) (o : Opts.Options) (parts : list Part) :
  forall i st,
  exists f qs post,
    fanOut env o i parts st = Some f /\
    fParts f = fParts st ++ qs /\
    Forall2 (fun p q => FileName q = FileName p /\ Start q = Start p
                        /\ (isDone p = true -> q = p)) parts qs /\
    fEvents f = fEvents st ++ post /\
    startedWorkers post = unfinished i parts /\
    List.filter isPrompt post = [] /\
    (forall name, (forall p, In p parts -> FileName p <> name) ->
                  fFiles f !! name = fFiles st !! name).
Proof.
  induction parts as [|p rest IH]; intros i st.
  - exists st, [], []. rewrite !app_nil_r. repeat split. constructor.
  - cbn [fanOut unfinished]. destruct (isDone p) eqn:Hdone.
    + destruct (IH (S i) {| fParts := fParts st ++ [p]; fErrs := fErrs st;
                            fFiles := fFiles st; fGlobTry := fGlobTry st;
                            fEvents := fEvents st |})
        as (f & qs & post & Hf & Hp & Hall & He & Hs & Hq & Hfr).
      cbn [fParts fEvents fFiles] in Hp, He, Hfr.
      exists f, (p :: qs), post. split; [exact Hf|].
      split; [rewrite Hp, <- app_assoc; reflexivity|].
      split; [constructor; [auto|exact Hall]|].
      split; [exact He|]. split; [exact Hs|]. split; [exact Hq|].
      intros name Hn. apply Hfr. intros q Hin. apply Hn. right. exact Hin.
    + destruct (download_spec (workers env i) (Opts.Timeout o) (prepare o i p)
                  (fFiles st) (fGlobTry st)) as (d & Hd & _).
      rewrite Hd.
      destruct (download_frame _ _ _ _ _ _ Hd) as [Hk Hframe].
      match goal with |- context [fanOut env o (S i) rest ?st1] =>
        destruct (IH (S i) st1) as (f & qs & post & Hf & Hp & Hall & He & Hs & Hq & Hfr) end.
      cbn [fParts fEvents fFiles] in Hp, He, Hfr.
      exists f, (dPart d :: qs), ([Started i; Worked i (dTrace d)] ++ post).
      split; [exact Hf|].
      split; [rewrite Hp, <- app_assoc; reflexivity|].
      split.
      { constructor; [|exact Hall].
        destruct Hk as (_ & _ & Hfn & _ & _ & Hst). cbn [prepare FileName Start] in Hfn, Hst.
        split; [exact Hfn|]. split; [exact Hst|]. congruence. }
      split; [rewrite He, <- app_assoc; reflexivity|].
      split.
      { change (startedWorkers ([Started i; Worked i (dTrace d)] ++ post))
          with (i :: startedWorkers post).
        rewrite Hs. reflexivity. }
      split; [exact Hq|].
      intros name Hn. rewrite Hfr.
      * apply Hframe. cbn [prepare FileName]. intros Heq. eapply Hn; [left; reflexivity|].
        symmetry. exact Heq.
      * intros q Hin. apply Hn. right. exact Hin.
Qed.

(** X7: the fan-out of [Run] starts a worker exactly for the parts that
    are not done, in index order, and always comes to its end; a part that
    is done goes through unchanged, every part keeps its file name and its
    first byte, and a file that is no part's segment file is as it was. *)
Theorem workers_for_unfinished_parts (env : RunEnv) (o : Opts.Options)
    (parts : list Part) (i : nat) (st : FanOut) :
  exists f qs,
    fanOut env o i parts st = Some f /\
    fParts f = fParts st ++ qs /\
    Forall2 (fun p q => FileName q = FileName p /\ Start q = Start p
                        /\ (isDone p = true -> q = p)) parts qs /\
    startedWorkers (fEvents f) = startedWorkers (fEvents st) ++ unfinished i parts /\
    (forall name, (forall p, In p parts -> FileName p <> name) ->
                  fFiles f !! name = fFiles st !! name).
Proof.
  destruct (fanOut_spec env o parts i st)
    as (f & qs & post & Hf & Hp & Hall & He & Hs & _ & Hfr).
  exists f, qs. split; [exact Hf|]. split; [exact Hp|]. split; [exact Hall|].
  split; [|exact Hfr].
  rewrite He. unfold startedWorkers in *. rewrite omap_app, Hs. reflexivity.
Qed.

(** ** The overwrite question *)

Section FreshRun.

Variable parseContentDisposition : string -> string.
Variable urlBaseName : string -> string.
Variable ops : SessionOps.

(** A run with a URL on the command line, up to the resolved session. *)
Lemma Run_fresh (env : RunEnv) (args : list string) (version : string) (fs : FS)
    (o o1 : Opts.Options) (url : string) (rest : list string)
    (m : gmap string string) (session : Session) :
  parseArgs env args = inr (o, url :: rest) ->
  Opts.Version o = false -> Opts.JSONFileName o = "" -> Opts.BestMirror o = false ->
  askPassword env o = inr o1 ->
  Opts.HeaderMap o = Some m ->
  jarErr env = None ->
  follow parseContentDisposition urlBaseName (resolver env) (Opts.OutFileName o) url
  = (Some session, None) ->
  Run parseContentDisposition urlBaseName ops env args version fs
  = transferAll ops env (Opts.setHeaderMap o1 (Some (withUserAgent o m))) url None session fs
  /\ Opts.Parts o1 = Opts.Parts o /\ Opts.Quiet o1 = Opts.Quiet o
  /\ Opts.JSONFileName o1 = "".
Proof.
  intros Hparse Hver Hjson Hbest Hask Hmap Hjar Hfollow.
  assert (Hsame : Opts.JSONFileName o1 = Opts.JSONFileName o
                  /\ Opts.BestMirror o1 = Opts.BestMirror o
                  /\ Opts.HeaderMap o1 = Opts.HeaderMap o
                  /\ Opts.OutFileName o1 = Opts.OutFileName o
                  /\ Opts.UserAgent o1 = Opts.UserAgent o
                  /\ Opts.Parts o1 = Opts.Parts o
                  /\ Opts.Quiet o1 = Opts.Quiet o).
  { destruct (askPassword_same env o o1 Hask) as [->|[pass ->]]; repeat split. }
  destruct Hsame as (Hj & Hb & Hm & Ho & Hu & Hp & Hq).
  split; [|rewrite Hj; auto].
  unfold Run. rewrite Hparse, Hver, Hjson, Hbest. cbn [length Nat.eqb andb].
  rewrite Hask. unfold entry. rewrite Hj, Hb, Hjson, Hbest. cbn [String.eqb negb].
  rewrite Hm, Hmap, Hjar.
  cbn [Opts.OutFileName Opts.setHeaderMap]. rewrite Ho, Hfollow.
  unfold withUserAgent. rewrite Hu. reflexivity.
Qed.

Lemma settle_events (env : RunEnv) (o : Opts.Options) (userUrl : string)
    (session : Session) (err : option error) (fs : FS) (evs : list RunEvent) :
  exists post,
    events (settle ops env o userUrl session err fs evs) = evs ++ post /\
    List.filter isPrompt post = [] /\ startedWorkers post = [].
Proof.
  unfold settle. destruct (_ && _ && _).
  - destruct (concatenateParts ops _ fs) as [[e|] fs'].
    + eexists. split; [reflexivity|]. split; reflexivity.
    + destruct (negb _).
      * destruct (osRemove _ fs'). eexists. cbn [events returns].
        rewrite <- !app_assoc. split; [reflexivity|]. split; reflexivity.
      * eexists. cbn [events returns]. rewrite <- !app_assoc.
        split; [reflexivity|]. split; reflexivity.
  - destruct (saveState ops _ _ fs) as [[e|] fs'].
    + eexists. split; [reflexivity|]. split; reflexivity.
    + eexists. cbn [events returns]. rewrite <- !app_assoc.
      split; [reflexivity|]. split; reflexivity.
Qed.

(** After the plan a run only adds events, the question is not among
    them, and the workers it starts are those of the parts not done. *)
Lemma transferAll_events (env : RunEnv) (o o' : Opts.Options) (userUrl : string)
    (lastSession : option Session) (session session' : Session) (fs fs' : FS)
    (evs : list RunEvent) :
  plan ops env o lastSession session fs = inr (o', session', fs', evs) ->
  newRequest (resolver env) (Location session) = None ->
  exists post,
    events (transferAll ops env o userUrl lastSession session fs) = evs ++ post /\
    List.filter isPrompt post = [] /\
    startedWorkers post = unfinished 0 (Parts session').
Proof.
  intros Hplan Hreq. unfold transferAll. rewrite Hplan.
  rewrite (plan_location _ _ _ _ _ _ _ _ _ _ Hplan), Hreq, andb_false_r.
  set (evs1 := if Opts.Quiet o' then evs else evs ++ _).
  assert (Hevs1 : exists p1, evs1 = evs ++ p1 /\ List.filter isPrompt p1 = []
                             /\ startedWorkers p1 = []).
  { subst evs1. destruct (Opts.Quiet o').
    - exists []. rewrite app_nil_r. auto.
    - eexists. split; [reflexivity|]. split; reflexivity. }
  destruct Hevs1 as (p1 & Hp1 & Hq1 & Hs1).
  destruct (fanOut_spec env o' (Parts session') 0%nat
              {| fParts := []; fErrs := []; fFiles := fs'; fGlobTry := 0;
                 fEvents := evs1 |})
    as (f & qs & p2 & -> & _ & _ & He2 & Hs2 & Hq2 & _).
  cbn [fEvents] in He2.
  destruct (settle_events env o' userUrl (setParts session' (fParts f))
              (firstError (finishOrder env) (fErrs f)) (fFiles f) (fEvents f))
    as (p3 & -> & Hq3 & Hs3).
  exists (p1 ++ p2 ++ p3). rewrite He2, Hp1, <- !app_assoc.
  split; [reflexivity|]. split.
  - rewrite !List.filter_app, Hq1, Hq2, Hq3. reflexivity.
  - unfold startedWorkers in *. rewrite !omap_app, Hs1, Hs2, Hs3, app_nil_r. reflexivity.
Qed.

(** X8: the overwrite question of a run with a URL on the command line and
    a positive part count.  It is asked only if the output file exists.  An
    answer other than "y" or "yes" (in any case) ends the run with no error
    and nothing changed: no file touched, no worker started.  After "y" or
    "yes" the part files are removed before anything else happens. *)
Theorem overwrite_question (env : RunEnv) (args : list string) (version : string)
    (fs : FS) (o o1 : Opts.Options) (url : string) (rest : list string)
    (m : gmap string string) (session : Session) :
  parseArgs env args = inr (o, url :: rest) ->
  Opts.Version o = false -> Opts.JSONFileName o = "" -> Opts.BestMirror o = false ->
  askPassword env o = inr o1 ->
  Opts.HeaderMap o = Some m ->
  jarErr env = None ->
  follow parseContentDisposition urlBaseName (resolver env) (Opts.OutFileName o) url
  = (Some session, None) ->
  0 < Opts.Parts o ->
  let r := Run parseContentDisposition urlBaseName ops env args version fs in
  let name := SuggestedFileName session in
  (fs !! name = None -> List.filter isPrompt (events r) = []) /\
  (forall a, fs !! name <> None -> answer env = inr a -> saysYes a = false ->
             r = {| outcome := Returns None; files := fs; events := [Prompt name] |}) /\
  (forall a, fs !! name <> None -> answer env = inr a -> saysYes a = true ->
             exists s post, events r = Prompt name :: RemoveFiles s :: post /\
                            SuggestedFileName s = name /\
                            List.filter isPrompt post = []).
Proof.
  intros Hparse Hver Hjson Hbest Hask Hmap Hjar Hfollow Hparts r name.
  destruct (Run_fresh env args version fs o o1 url rest m session
              Hparse Hver Hjson Hbest Hask Hmap Hjar Hfollow) as (Hrun & Hp & _ & _).
  pose proof (follow_location _ _ _ _ _ _ _ Hfollow) as Hreq.
  subst r. rewrite Hrun. clear Hrun.
  set (o2 := Opts.setHeaderMap o1 (Some (withUserAgent o m))).
  assert (Hp2 : (0 <? Opts.Parts o2) = true).
  { apply Z.ltb_lt. subst o2. cbn. rewrite Hp. exact Hparts. }
  destruct (plan ops env o2 None session fs) as [r0|[[[o' s'] fs'] evs]] eqn:Hplan.
  - (* the plan ended the run *)
    pose proof Hplan as Hplan0.
    unfold plan in Hplan. rewrite Hp2 in Hplan. cbv zeta in Hplan.
    cbn [SuggestedFileName setParts setHeaderMap] in Hplan. fold name in Hplan.
    unfold transferAll. rewrite Hplan0.
    destruct (fs !! name) as [content|] eqn:Hfile; [|discriminate].
    split; [discriminate|].
    destruct (answer env) as [e|a0] eqn:Hans.
    { split; intros a _ Ha; discriminate. }
    destruct (saysYes a0) eqn:Hyes.
    + destruct (removeFiles ops _ fs) as [[e|] fs1] eqn:Hrm; [|discriminate].
      inversion Hplan; subst r0. split.
      * intros a _ Ha Hno. inversion Ha; subst a0. congruence.
      * intros a _ Ha _. eexists _, []. cbn [events returns app].
        split; [reflexivity|]. split; reflexivity.
    + inversion Hplan; subst r0. split.
      * intros a _ Ha _. reflexivity.
      * intros a _ Ha Hy. inversion Ha; subst a0. congruence.
  - (* the plan went through *)
    destruct (transferAll_events env o2 o' url None session s' fs fs' evs Hplan Hreq)
      as (post & Hev & Hq & _).
    unfold plan in Hplan. rewrite Hp2 in Hplan. cbv zeta in Hplan.
    cbn [SuggestedFileName setParts setHeaderMap] in Hplan. fold name in Hplan.
    destruct (fs !! name) as [content|] eqn:Hfile.
    + split; [discriminate|].
      destruct (answer env) as [e|a0] eqn:Hans; [discriminate|].
      destruct (saysYes a0) eqn:Hyes; [|discriminate].
      destruct (removeFiles ops _ fs) as [[e|] fs1] eqn:Hrm; [discriminate|].
      inversion Hplan; subst o' s' fs' evs. split.
      * intros a _ Ha Hno. inversion Ha; subst a0. congruence.
      * intros a _ Ha _. eexists _, post. rewrite Hev. cbn [app].
        split; [reflexivity|]. split; [reflexivity|exact Hq].
    + inversion Hplan; subst o' s' fs' evs. split.
      * intros _. rewrite Hev. exact Hq.
      * split; intros a Hne; contradiction.
Qed.

End FreshRun.

(** The output file exists and the user answers "n": nothing happens. *)
Lemma overwrite_question_witness :
  Run noDisposition fileF sessionOps
      (running defaults (origin (respond 200 11 "")) (fun _ => deadServer))
      ["http://h/f"] "dev" {["f" := bytesOf "old"]}
  = {| outcome := Returns None; files := {["f" := bytesOf "old"]};
       events := [Prompt "f"] |}.
Proof.
  destruct (overwrite_question noDisposition fileF sessionOps
              (running defaults (origin (respond 200 11 "")) (fun _ => deadServer))
              ["http://h/f"] "dev" {["f" := bytesOf "old"]}
              defaults defaults "http://h/f" [] ∅
              {| Location := "http://h/f"; SuggestedFileName := "f"; ContentMD5 := "";
                 AcceptRanges := "bytes"; ContentType := ""; StatusCode := 200;
                 ContentLength := 11; HeaderMap := None; Parts := [] |}
              eq_refl eq_refl eq_refl eq_refl eq_refl eq_refl eq_refl eq_refl
              ltac:(cbn; lia)) as (_ & Hno & _).
  apply (Hno "n"); [discriminate|reflexivity|reflexivity].
Defined.

(** ** After the join *)

Section AfterJoin.

Variable ops : SessionOps.


(** X10: a run that does not concatenate saves the session and returns
    the cancellation when the join failed under a canceled context,
    otherwise the error of the join; the error of [saveState] is returned
    only when the join had none. *)
Theorem saved_run_returns_join_error (env : RunEnv) (o : Opts.Options)
    (userUrl : string) (session : Session) (err : option error) (fs : FS)
    (evs : list RunEvent) :
  let s := setParts session (actualPartsOnly ops session) in
  let r := settle ops env o userUrl session err fs evs in
  let saved := saveState ops (setLocation s userUrl) (SuggestedFileName s +:+ ".json") fs in
  Opts.Parts o <= 0
  \/ (totalWritten ops s <> ContentLength s /\ 0 < ContentLength s)
  \/ (err <> None /\ canceledAtJoin env = true) ->
  files r = saved.2 /\
  (forall e, err = Some e ->
     outcome r = Returns (Some (WithMessage
                                  (if canceledAtJoin env then ExpectedError Canceled else e)
                                  "run"))) /\
  (err = None -> outcome r = Returns (withMessage saved.1 "run")).
Proof.
  intros s r saved Hc. subst r. unfold settle. fold s.
  assert (Hcond : negb (negb (isNil err) && canceledAtJoin env) && (0 <? Opts.Parts o)
                  && ((totalWritten ops s =? ContentLength s) || (ContentLength s <=? 0))
                  = false).
  { destruct Hc as [Hp|[[Hw Hl]|[He Hcan]]].
    - destruct (Z.ltb_spec 0 (Opts.Parts o)); [lia|].
      rewrite andb_false_r. reflexivity.
    - destruct (Z.eqb_spec (totalWritten ops s) (ContentLength s)); [contradiction|].
      destruct (Z.leb_spec (ContentLength s) 0); [lia|].
      rewrite andb_false_r. reflexivity.
    - rewrite Hcan. destruct err; [reflexivity|contradiction]. }
  rewrite Hcond.
  change (SuggestedFileName (setLocation s userUrl)) with (SuggestedFileName s).
  fold saved. destruct saved as [[e'|] fs1]; cbn [fst snd].
  - split; [reflexivity|]. split.
    + intros e ->. cbn. destruct (canceledAtJoin env); reflexivity.
    + intros ->. reflexivity.
  - split; [reflexivity|]. split.
    + intros e ->. cbn. destruct (canceledAtJoin env); reflexivity.
    + intros ->. reflexivity.
Qed.

End AfterJoin.


(** Two workers gave up and nobody canceled: the session is saved and the
    run returns the error of the join. *)
Lemma saved_run_returns_join_error_witness :
  outcome (settle sessionOps
             (running defaults (origin (respond 200 11 "")) (fun _ => deadServer))
             defaults "http://h/f" savedSession
             (Some (WithMessage ErrGiveUp "P01")) ∅ [])
  = Returns (Some (WithMessage (WithMessage ErrGiveUp "P01") "run")).
Proof.
  destruct (saved_run_returns_join_error sessionOps
              (running defaults (origin (respond 200 11 "")) (fun _ => deadServer))
              defaults "http://h/f" savedSession
              (Some (WithMessage ErrGiveUp "P01")) ∅ []) as (_ & Herr & _).
  - right. left. vm_compute. split; [discriminate|reflexivity].
  - exact (Herr _ eq_refl).
Defined.

(** ** A resumed run *)

Section ResumedRun.

Variable parseContentDisposition : string -> string.
Variable urlBaseName : string -> string.
Variable ops : SessionOps.

(** X17: a run resumed with --continue whose server still reports the
    digest and the length of the saved session goes on with the saved
    parts: it asks no question, starts a worker exactly for the saved parts
    that are not done, in index order, and returns. *)
Theorem resumed_run_restarts_unfinished_parts (env : RunEnv) (args : list string)
    (version : string) (fs : FS) (o o1 : Opts.Options) (rest : list string)
    (last session : Session) (m : gmap string string) :
  parseArgs env args = inr (o, rest) ->
  Opts.Version o = false ->
  Opts.JSONFileName o <> "" ->
  askPassword env o = inr o1 ->
  loadState ops (Opts.JSONFileName o) fs = inr last ->
  HeaderMap last = Some m ->
  jarErr env = None ->
  follow parseContentDisposition urlBaseName (resolver env)
         (SuggestedFileName last) (Location last) = (Some session, None) ->
  ContentMD5 last = ContentMD5 session ->
  ContentLength last = ContentLength session ->
  let r := Run parseContentDisposition urlBaseName ops env args version fs in
  startedWorkers (events r) = unfinished 0 (Parts last) /\
  List.filter isPrompt (events r) = [] /\
  exists err, outcome r = Returns err.
Proof.
  intros Hparse Hver Hjson Hpass Hload Hmap Hjar Hfollow Hmd5 Hlen r.
  destruct (askPassword_keeps env o o1 Hpass) as (Hj1 & _ & _).
  assert (Hne : String.eqb (Opts.JSONFileName o) "" = false)
    by (apply String.eqb_neq; exact Hjson).
  pose proof (follow_location _ _ _ _ _ _ _ Hfollow) as Hreq.
  subst r. unfold Run. rewrite Hparse, Hver, Hne, andb_false_r. cbn [andb].
  rewrite Hpass. unfold entry. rewrite Hj1, Hne. cbn [negb].
  rewrite Hload. cbn [Opts.HeaderMap Opts.setOutFileName Opts.setHeaderMap].
  rewrite Hmap, Hjar.
  cbn [Opts.OutFileName Opts.setOutFileName Opts.setHeaderMap].
  rewrite Hfollow.
  match goal with |- context [transferAll ops env ?x ?u ?l ?s ?f] => set (o2 := x) end.
  assert (Hplan : plan ops env o2 (Some last) session fs
                  = inr (o2, setLocation last (Location session), fs, [])).
  { unfold plan. rewrite Hmd5, String.eqb_refl, Hlen, Z.eqb_refl. reflexivity. }
  destruct (transferAll_events ops env o2 o2 (Location last) (Some last) session
              (setLocation last (Location session)) fs fs [] Hplan Hreq)
    as (post & Hev & Hq & Hs).
  rewrite Hev. cbn [app]. split; [exact Hs|]. split; [exact Hq|].
  apply transferAll_returns. exact Hreq.
Qed.

End ResumedRun.

(** The saved session has two parts, none of them done: both workers are
    started again. *)
Lemma resumed_run_restarts_unfinished_parts_witness :
  startedWorkers
    (events (Run noDisposition fileF sessionOps
                 (running continuing (origin digested) (fun _ => deadServer))
                 [] "dev" {["f.json" := []]}))
  = [0%nat; 1%nat].
Proof.
  destruct (resumed_run_restarts_unfinished_parts noDisposition fileF sessionOps
              (running continuing (origin digested) (fun _ => deadServer))
              [] "dev" {["f.json" := []]} continuing continuing [] savedSession
              {| Location := "http://h/f"; SuggestedFileName := "f"; ContentMD5 := "abc";
                 AcceptRanges := "bytes"; ContentType := ""; StatusCode := 200;
                 ContentLength := 11; HeaderMap := None; Parts := [] |}
              ∅ eq_refl eq_refl ltac:(discriminate) eq_refl eq_refl eq_refl eq_refl
              eq_refl eq_refl eq_refl) as (Hs & _).
  rewrite Hs. reflexivity.
Defined.

(** ** Strings *)

Lemma Ascii_eqb_refl (c : ascii) : Ascii.eqb c c = true.
Proof. apply Ascii.eqb_refl. Qed.

Lemma append_cons (c : ascii) (a b : string) : String c a +:+ b = String c (a +:+ b).
Proof. reflexivity. Qed.

Lemma append_nil_r (a : string) : a +:+ "" = a.
Proof. induction a as [|c a IH]; [reflexivity|]. rewrite append_cons, IH. reflexivity. Qed.

Lemma HasPrefix_app (p s : string) : HasPrefix (p +:+ s) p = true.
Proof.
  induction p as [|c p IH]; [reflexivity|].
  rewrite append_cons. cbn [HasPrefix]. rewrite Ascii_eqb_refl. exact IH.
Qed.

Lemma afterPrefix_app (p s : string) : afterPrefix (p +:+ s) p = Some s.
Proof.
  induction p as [|c p IH]; [reflexivity|].
  rewrite append_cons. cbn [afterPrefix]. rewrite Ascii_eqb_refl. exact IH.
Qed.

Lemma afterPrefix_HasPrefix (s p : string) :
  HasPrefix s p = false -> afterPrefix s p = None.
Proof.
  revert s. induction p as [|c p IH]; intros s H; [discriminate|].
  destruct s as [|d s]; [reflexivity|]. cbn [HasPrefix afterPrefix] in *.
  destruct (Ascii.eqb d c); [apply IH; exact H|reflexivity].
Qed.

Lemma app_assoc_string (a b c : string) : (a +:+ b) +:+ c = a +:+ (b +:+ c).
Proof.
  induction a as [|x a IH]; [reflexivity|]. rewrite !append_cons, IH. reflexivity.
Qed.

Lemma allOf_app (class : ascii -> bool) (a b : string) :
  allOf class (a +:+ b) = allOf class a && allOf class b.
Proof.
  induction a as [|c a IH]; [reflexivity|].
  rewrite append_cons. cbn [allOf]. rewrite IH, andb_assoc. reflexivity.
Qed.

(** A greedy star takes all of a run in its class, up to a byte that is
    not in it or to the end. *)
Lemma span_stop (class : ascii -> bool) (a : string) (c : ascii) (rest : string) :
  allOf class a = true -> class c = false ->
  span class (a +:+ String c rest) = (a, String c rest).
Proof.
  intros Ha Hc. induction a as [|x a IH].
  - change ("" +:+ String c rest) with (String c rest). cbn [span].
    rewrite Hc. reflexivity.
  - rewrite append_cons. cbn [span allOf] in *. apply andb_true_iff in Ha.
    destruct Ha as [Hx Ha]. rewrite Hx, (IH Ha). reflexivity.
Qed.

Lemma span_all (class : ascii -> bool) (a : string) :
  allOf class a = true -> span class a = (a, "").
Proof.
  intros Ha. induction a as [|x a IH]; [reflexivity|].
  cbn [span allOf] in *. apply andb_true_iff in Ha. destruct Ha as [Hx Ha].
  rewrite Hx, (IH Ha). reflexivity.
Qed.

Lemma span_end (class : ascii -> bool) (a post : string) :
  allOf class a = true ->
  match post with EmptyString => True | String c _ => class c = false end ->
  span class (a +:+ post) = (a, post).
Proof.
  intros Ha Hp. destruct post as [|c rest].
  - rewrite append_nil_r. apply span_all. exact Ha.
  - apply span_stop; assumption.
Qed.

(** ** The Cookie header *)

Lemma splitFrom_skip (sep : string) (a s : string) :
  splitFrom sep (String.length a) (a +:+ s) = splitFrom sep 0 s.
Proof.
  induction a as [|c a IH]; [reflexivity|].
  rewrite append_cons. cbn [String.length splitFrom]. exact IH.
Qed.

Lemma split_plain (a : string) : without ";" a = true -> Split a "; " = [a].
Proof.
  unfold Split, without. induction a as [|c a IH]; intros H; [reflexivity|].
  cbn [allOf] in H. apply andb_true_iff in H. destruct H as [Hc Ha].
  cbn [splitFrom HasPrefix]. apply negb_true_iff in Hc. rewrite Hc. cbn [andb].
  rewrite (IH Ha). reflexivity.
Qed.

Lemma split_cons (a b : string) :
  without ";" a = true -> Split (a +:+ "; " +:+ b) "; " = a :: Split b "; ".
Proof.
  unfold Split, without. induction a as [|c a IH]; intros H.
  - change ("" +:+ "; " +:+ b) with (String ";" (String " " b)). reflexivity.
  - cbn [allOf] in H. apply andb_true_iff in H. destruct H as [Hc Ha].
    rewrite append_cons. cbn [splitFrom HasPrefix].
    apply negb_true_iff in Hc. rewrite Hc. cbn [andb].
    rewrite (IH Ha). reflexivity.
Qed.

Lemma cutAt_pair (n v : string) :
  without "=" n = true -> cutAt "=" (n +:+ String "=" v) = Some (n, v).
Proof.
  unfold without. induction n as [|c n IH]; intros H; [reflexivity|].
  cbn [allOf] in H. apply andb_true_iff in H. destruct H as [Hc Hn].
  rewrite append_cons. cbn [cutAt]. apply negb_true_iff in Hc. rewrite Hc, (IH Hn).
  reflexivity.
Qed.

Lemma cutAt_none (a : string) : without "=" a = true -> cutAt "=" a = None.
Proof.
  unfold without. induction a as [|c a IH]; intros H; [reflexivity|].
  cbn [allOf] in H. apply andb_true_iff in H. destruct H as [Hc Ha].
  cbn [cutAt]. apply negb_true_iff in Hc. rewrite Hc, (IH Ha). reflexivity.
Qed.

Lemma plainCookie_piece (n v : string) :
  plainCookie (n, v) = true ->
  without ";" (n +:+ String "=" v) = true /\ without "=" n = true.
Proof.
  unfold plainCookie. cbn [fst snd]. rewrite !andb_true_iff. intros [[Hn He] Hv].
  split; [|exact He]. unfold without in *. rewrite allOf_app, Hn. cbn [allOf andb].
  exact Hv.
Qed.

Lemma cookiePairs_header (cookies : list (string * string)) :
  forallb plainCookie cookies = true -> cookiePairs (cookieHeader cookies) = cookies.
Proof.
  induction cookies as [|[n v] rest IH]; intros H; [reflexivity|].
  cbn [forallb] in H. apply andb_true_iff in H. destruct H as [Hc Hrest].
  destruct (plainCookie_piece n v Hc) as [Hsemi Heq].
  destruct rest as [|next rest].
  - cbn [cookieHeader]. unfold cookiePairs.
    change (n +:+ "=" +:+ v) with (n +:+ String "=" v).
    rewrite (split_plain _ Hsemi). cbn [omap list_omap]. rewrite (cutAt_pair n v Heq).
    reflexivity.
  - change (cookieHeader ((n, v) :: next :: rest))
      with (n +:+ String "=" (v +:+ "; " +:+ cookieHeader (next :: rest))).
    replace (n +:+ String "=" (v +:+ "; " +:+ cookieHeader (next :: rest)))
      with ((n +:+ String "=" v) +:+ "; " +:+ cookieHeader (next :: rest)).
    + unfold cookiePairs. rewrite (split_cons _ _ Hsemi).
      cbn [omap list_omap]. rewrite (cutAt_pair n v Heq).
      fold (cookiePairs (cookieHeader (next :: rest))). rewrite (IH Hrest). reflexivity.
    + rewrite app_assoc_string. reflexivity.
Qed.

(** X11: the cookies [follow] takes from a Cookie header.  A header
    written from cookies whose names hold no "=" and whose names and values
    hold no ";" gives those cookies back, in order; a piece without "=" is
    passed over; and without a Cookie header there is no cookie. *)
Theorem cookie_header_round_trip (headerMap : gmap string string)
    (cookies : list (string * string)) :
  forallb plainCookie cookies = true ->
  followCookies (<[hCookie := cookieHeader cookies]> headerMap) = cookies /\
  (forall junk,
     without ";" junk = true -> without "=" junk = true ->
     followCookies (<[hCookie := junk +:+ "; " +:+ cookieHeader cookies]> headerMap)
     = cookies) /\
  followCookies (delete hCookie headerMap) = [].
Proof.
  intros H. unfold followCookies. split; [|split].
  - rewrite lookup_insert_eq. apply cookiePairs_header. exact H.
  - intros junk Hs He. rewrite lookup_insert_eq. unfold cookiePairs.
    rewrite (split_cons _ _ Hs). cbn [omap list_omap]. rewrite (cutAt_none _ He).
    apply cookiePairs_header. exact H.
  - rewrite lookup_delete_eq. reflexivity.
Qed.

(** Two cookies, the value of the second with "=" in it. *)
Lemma cookie_header_round_trip_witness :
  followCookies {["Cookie" := "sid=abc; token=x=y"]} = [("sid", "abc"); ("token", "x=y")].
Proof.
  destruct (cookie_header_round_trip ∅ [("sid", "abc"); ("token", "x=y")]) as [H _];
    [reflexivity|].
  exact H.
Defined.

(** ** The file name of a Content-Disposition header *)

Lemma HasPrefix_long (p a x : string) :
  (String.length p <= String.length a)%nat -> HasPrefix (a +:+ x) p = HasPrefix a p.
Proof.
  revert a. induction p as [|c p IH]; intros a Hlen; [reflexivity|].
  destruct a as [|d a]; [cbn in Hlen; lia|].
  rewrite append_cons. cbn [HasPrefix]. rewrite IH; [reflexivity|].
  cbn [String.length] in Hlen. lia.
Qed.

Lemma length_append (a b : string) :
  String.length (a +:+ b) = (String.length a + String.length b)%nat.
Proof.
  induction a as [|c a IH]; [reflexivity|]. rewrite append_cons. cbn [String.length].
  rewrite IH. reflexivity.
Qed.

(** No match of the regular expression starts where "filename" does not. *)
Lemma matchHere_none (s : string) : HasPrefix s "filename" = false -> matchHere s = None.
Proof. intros H. unfold matchHere. rewrite (afterPrefix_HasPrefix _ _ H). reflexivity. Qed.

(** The search passes over a beginning in which no "filename" starts. *)
Lemma findAllFrom_before (pre : string) (x : string) :
  Contains (pre +:+ "filenam") "filename" = false ->
  findAllFrom 0 (pre +:+ "filename" +:+ x) = findAllFrom 0 ("filename" +:+ x).
Proof.
  induction pre as [|c pre IH]; intros H; [reflexivity|].
  rewrite append_cons in H. cbn [Contains] in H.
  apply orb_false_iff in H. destruct H as [Hhere Hrest].
  rewrite append_cons. cbn [findAllFrom].
  rewrite matchHere_none; [apply IH; exact Hrest|].
  replace (String c (pre +:+ "filename" +:+ x))
    with (String c (pre +:+ "filenam") +:+ String "e" x).
  - rewrite HasPrefix_long; [exact Hhere|].
    cbn [String.length]. rewrite length_append. cbn. lia.
  - rewrite append_cons, app_assoc_string. reflexivity.
Qed.

Lemma findAllFrom_absent (s : string) :
  Contains s "filename" = false -> findAllFrom 0 s = [].
Proof.
  induction s as [|c s IH]; intros H; [reflexivity|].
  cbn [Contains] in H. apply orb_false_iff in H. destruct H as [Hhere Hrest].
  cbn [findAllFrom]. rewrite (matchHere_none _ Hhere). apply IH. exact Hrest.
Qed.

Lemma spanQuoted_stop (inner : string) (q : ascii) (post : string) :
  allOf quotedByte inner = true -> isQuote q = true ->
  spanQuoted (inner +:+ String q post) = Some (inner, q, post).
Proof.
  intros Hin Hq. induction inner as [|c inner IH].
  - change ("" +:+ String q post) with (String q post). cbn [spanQuoted].
    rewrite Hq. reflexivity.
  - cbn [allOf] in Hin. apply andb_true_iff in Hin. destruct Hin as [Hc Hin].
    unfold quotedByte in Hc. apply andb_true_iff in Hc. destruct Hc as [Hany Hnq].
    apply negb_true_iff in Hnq.
    rewrite append_cons. cbn [spanQuoted]. rewrite Hnq, Hany, (IH Hin). reflexivity.
Qed.

(** The match at "filename", up to the value. *)
Lemma matchHere_filename (ext value : string) :
  allOf nameByte ext = true ->
  matchHere ("filename" +:+ ext +:+ String "=" value)
  = let unquoted :=
      let '(taken, remains) := span valueByte value in (taken, EmptyString, remains) in
    match value with
    | String q inner =>
        if isQuote q then
          match spanQuoted inner with
          | Some (taken, q', remains) =>
              Some (String q (taken +:+ String q' EmptyString), taken, remains)
          | None => Some unquoted
          end
        else Some unquoted
    | EmptyString => Some unquoted
    end.
Proof.
  intros Hext. unfold matchHere. rewrite afterPrefix_app.
  rewrite (span_stop nameByte ext "=" value Hext eq_refl). cbn [snd].
  reflexivity.
Qed.

Lemma matchHere_length (s g1 g2 remains : string) :
  matchHere s = Some (g1, g2, remains) -> exists c rest, s = String c rest.
Proof.
  destruct s as [|c rest]; [discriminate|]. eauto.
Qed.

Lemma split_without (c : ascii) (a : string) :
  without c a = true -> Split a (String c "") = [a].
Proof.
  unfold Split, without. induction a as [|d a IH]; intros H; [reflexivity|].
  cbn [allOf] in H. apply andb_true_iff in H. destruct H as [Hd Ha].
  cbn [splitFrom HasPrefix]. apply negb_true_iff in Hd. rewrite Hd. cbn [andb].
  rewrite (IH Ha). reflexivity.
Qed.

Lemma split_at (c : ascii) (a b : string) :
  without c a = true -> Split (a +:+ String c b) (String c "") = a :: Split b (String c "").
Proof.
  unfold Split, without. induction a as [|d a IH]; intros H.
  - change ("" +:+ String c b) with (String c b). cbn [splitFrom HasPrefix].
    rewrite Ascii_eqb_refl. reflexivity.
  - cbn [allOf] in H. apply andb_true_iff in H. destruct H as [Hd Ha].
    rewrite append_cons. cbn [splitFrom HasPrefix].
    apply negb_true_iff in Hd. rewrite Hd. cbn [andb].
    rewrite (IH Ha). reflexivity.
Qed.

Lemma allOf_impl (f g : ascii -> bool) (s : string) :
  (forall c, f c = true -> g c = true) -> allOf f s = true -> allOf g s = true.
Proof.
  intros Hfg. induction s as [|c s IH]; [reflexivity|].
  cbn [allOf]. rewrite !andb_true_iff. intros [Hc Hs]. auto.
Qed.

Lemma tokenByte_not (c : ascii) (q : ascii) :
  tokenByte c = true -> isQuote q = true -> negb (Ascii.eqb c q) = true.
Proof.
  unfold tokenByte. rewrite andb_true_iff, negb_true_iff. intros [_ Hc] Hq.
  apply negb_true_iff. destruct (Ascii.eqb_spec c q) as [->|]; [congruence|reflexivity].
Qed.

Lemma findAllFrom_match (s g1 g2 remains : string) :
  matchHere s = Some (g1, g2, remains) ->
  exists rest, findAllFrom 0 s = (g1, g2) :: rest.
Proof.
  destruct s as [|c s]; [discriminate|]. intros H. cbn [findAllFrom]. rewrite H. eauto.
Qed.

(** The match whose value is not quoted. *)
Lemma matchHere_unquoted (ext : string) (c : ascii) (value post : string) :
  allOf nameByte ext = true ->
  isQuote c = false -> allOf valueByte (String c value) = true ->
  endsValue post = true ->
  matchHere ("filename" +:+ ext +:+ String "=" (String c value +:+ post))
  = Some (String c value, "", post).
Proof.
  intros Hext Hc Hv Hp. rewrite (matchHere_filename _ _ Hext). cbv zeta.
  rewrite append_cons, Hc. rewrite <- append_cons.
  rewrite (span_end valueByte (String c value) post Hv); [reflexivity|].
  destruct post as [|d post]; [exact I|]. cbn [endsValue] in Hp.
  apply negb_true_iff. exact Hp.
Qed.

Lemma tokenByte_value (s : string) : allOf tokenByte s = true -> allOf valueByte s = true.
Proof.
  apply allOf_impl. intros c. unfold tokenByte. rewrite andb_true_iff. tauto.
Qed.

Lemma tokenByte_without (q : ascii) (s : string) :
  isQuote q = true -> allOf tokenByte s = true -> without q s = true.
Proof.
  intros Hq. unfold without. apply allOf_impl. intros c Hc.
  exact (tokenByte_not c q Hc Hq).
Qed.

Lemma QueryUnescape_plain (s : string) :
  without "%" s = true -> without "+" s = true -> QueryUnescape s = Some s.
Proof.
  unfold without. induction s as [|c s IH]; intros Hp Hq; [reflexivity|].
  cbn [allOf] in Hp, Hq. apply andb_true_iff in Hp, Hq.
  destruct Hp as [Hc Hs], Hq as [Hc' Hs'].
  cbn [QueryUnescape]. rewrite (IH Hs Hs').
  assert (H37 : (code c =? 37)%N = false).
  { apply N.eqb_neq. intros Heq. apply negb_true_iff in Hc.
    apply Ascii.eqb_neq in Hc. apply Hc. unfold code in Heq.
    rewrite <- (Ascii.ascii_N_embedding c), Heq. reflexivity. }
  assert (H43 : (code c =? 43)%N = false).
  { apply N.eqb_neq. intros Heq. apply negb_true_iff in Hc'.
    apply Ascii.eqb_neq in Hc'. apply Hc'. unfold code in Heq.
    rewrite <- (Ascii.ascii_N_embedding c), Heq. reflexivity. }
  rewrite H37, H43. reflexivity.
Qed.

(** X12: a quoted file name.  When no "filename" begins before it, the
    first parameter [filename...=] (the name may go on with bytes other
    than semicolon, newline and "=", as in [filename*]) whose value stands
    between quotes, single or double, and is not empty gives the file name:
    the bytes between the quotes, which hold no quote and no newline.  What
    follows the closing quote does not matter. *)
Theorem quoted_file_name (pre ext name post : string) (q q' : ascii) :
  Contains (pre +:+ "filenam") "filename" = false ->
  allOf nameByte ext = true ->
  isQuote q = true -> isQuote q' = true ->
  name <> "" -> allOf quotedByte name = true ->
  parseContentDisposition
    (pre +:+ "filename" +:+ ext +:+ String "=" (String q (name +:+ String q' post)))
  = name.
Proof.
  intros Hpre Hext Hq Hq' Hne Hname. unfold parseContentDisposition.
  rewrite (findAllFrom_before pre _ Hpre).
  destruct (findAllFrom_match
              ("filename" +:+ ext +:+ String "=" (String q (name +:+ String q' post)))
              (String q (name +:+ String q' "")) name post) as [rest ->].
  { rewrite (matchHere_filename _ _ Hext). cbv zeta.
    rewrite Hq, (spanQuoted_stop name q' post Hname Hq'). reflexivity. }
  cbn [firstFileName]. apply String.eqb_neq in Hne. rewrite Hne. reflexivity.
Qed.

(** X13: a file name without quotes.  The first parameter [filename...=]
    whose value is a token, a run of bytes without semicolon, newline and
    quote that is not empty and that the end of the header, a semicolon or
    a newline follows, gives that token. *)
Theorem token_file_name (pre ext post : string) (c : ascii) (name : string) :
  Contains (pre +:+ "filenam") "filename" = false ->
  allOf nameByte ext = true ->
  allOf tokenByte (String c name) = true ->
  endsValue post = true ->
  parseContentDisposition
    (pre +:+ "filename" +:+ ext +:+ String "=" (String c name +:+ post))
  = String c name.
Proof.
  intros Hpre Hext Hname Hpost. unfold parseContentDisposition.
  rewrite (findAllFrom_before pre _ Hpre).
  assert (Hc : isQuote c = false).
  { cbn [allOf] in Hname. apply andb_true_iff in Hname. destruct Hname as [Hc _].
    unfold tokenByte in Hc. apply andb_true_iff in Hc. destruct Hc as [_ Hc].
    apply negb_true_iff. exact Hc. }
  destruct (findAllFrom_match
              ("filename" +:+ ext +:+ String "=" (String c name +:+ post))
              (String c name) "" post) as [rest ->].
  { apply matchHere_unquoted; [exact Hext|exact Hc|apply tokenByte_value; exact Hname|
                               exact Hpost]. }
  cbn [firstFileName String.eqb negb].
  rewrite (split_without "'" (String c name));
    [|apply tokenByte_without; [reflexivity|exact Hname]].
  cbn [length Nat.eqb andb nth].
  assert (Hne : String.eqb (String c name) twoQuotes = false).
  { unfold twoQuotes. cbn [String.eqb].
    destruct (Ascii.eqb_spec c dquote) as [->|]; [discriminate Hc|reflexivity]. }
  rewrite Hne. reflexivity.
Qed.

(** X14: an extended file name.  The first parameter [filename...=]
    whose value is [charset'language'value], with a charset that is
    "utf-8" in any case and three pieces without semicolon, newline and
    quote, gives the value with its percent escapes decoded and "+" taken
    for a space; and the empty name when an escape is not two hexadecimal
    digits: the error of [url.QueryUnescape] is dropped.  A value without
    "%" and "+" is the name as it stands. *)
Theorem extended_file_name (pre ext charset language value post : string) :
  Contains (pre +:+ "filenam") "filename" = false ->
  allOf nameByte ext = true ->
  ToLower charset = "utf-8" ->
  allOf tokenByte charset = true ->
  allOf tokenByte language = true ->
  allOf tokenByte value = true ->
  endsValue post = true ->
  let header :=
    pre +:+ "filename" +:+ ext
    +:+ String "=" ((charset +:+ String "'" (language +:+ String "'" value)) +:+ post) in
  parseContentDisposition header = default "" (QueryUnescape value) /\
  (without "%" value = true -> without "+" value = true ->
   parseContentDisposition header = value).
Proof.
  intros Hpre Hext Hlow Hcs Hlang Hval Hpost header.
  assert (Hmain : parseContentDisposition header = default "" (QueryUnescape value)).
  { subst header. unfold parseContentDisposition.
    rewrite (findAllFrom_before pre _ Hpre).
    destruct charset as [|c charset]; [discriminate Hlow|].
    assert (Hc : isQuote c = false).
    { cbn [allOf] in Hcs. apply andb_true_iff in Hcs. destruct Hcs as [Hc _].
      unfold tokenByte in Hc. apply andb_true_iff in Hc. destruct Hc as [_ Hc].
      apply negb_true_iff. exact Hc. }
    change ((String c charset +:+ String "'" (language +:+ String "'" value)) +:+ post)
      with (String c (charset +:+ String "'" (language +:+ String "'" value)) +:+ post).
    destruct (findAllFrom_match
                ("filename" +:+ ext
                 +:+ String "=" (String c (charset +:+ String "'" (language +:+ String "'" value))
                                 +:+ post))
                (String c (charset +:+ String "'" (language +:+ String "'" value))) "" post)
      as [rest ->].
    { apply matchHere_unquoted; [exact Hext|exact Hc| |exact Hpost].
      rewrite <- append_cons, allOf_app.
      rewrite (tokenByte_value _ Hcs).
      change (allOf valueByte (String "'" (language +:+ String "'" value)))
        with (allOf valueByte (language +:+ String "'" value)).
      rewrite allOf_app, (tokenByte_value _ Hlang).
      change (allOf valueByte (String "'" value)) with (allOf valueByte value).
      rewrite (tokenByte_value _ Hval). reflexivity. }
    cbn [firstFileName String.eqb negb].
    rewrite <- append_cons.
    rewrite (split_at "'" (String c charset));
      [|apply tokenByte_without; [reflexivity|exact Hcs]].
    rewrite (split_at "'" language);
      [|apply tokenByte_without; [reflexivity|exact Hlang]].
    rewrite (split_without "'" value);
      [|apply tokenByte_without; [reflexivity|exact Hval]].
    cbn [length Nat.eqb andb nth]. rewrite Hlow. reflexivity. }
  split; [exact Hmain|].
  intros Hp Hq. rewrite Hmain, (QueryUnescape_plain _ Hp Hq). reflexivity.
Qed.

(** X15: a header in which "filename" does not occur names no file. *)
Theorem no_file_name (input : string) :
  Contains input "filename" = false -> parseContentDisposition input = "".
Proof.
  intros H. unfold parseContentDisposition. rewrite (findAllFrom_absent _ H). reflexivity.
Qed.

(** An attachment with a quoted name that holds a space. *)
Lemma quoted_file_name_witness :
  parseContentDisposition
    ("attachment; filename=" +:+ String dquote ("my file.txt" +:+ String dquote "; size=3"))
  = "my file.txt".
Proof.
  apply (quoted_file_name "attachment; " "" "my file.txt" "; size=3" dquote dquote);
    try reflexivity.
  discriminate.
Defined.

Lemma token_file_name_witness :
  parseContentDisposition "attachment; filename=foo.tar.gz; size=3" = "foo.tar.gz".
Proof.
  apply (token_file_name "attachment; " "" "; size=3" "f" "oo.tar.gz"); reflexivity.
Defined.

Lemma extended_file_name_witness :
  parseContentDisposition "attachment; filename*=UTF-8''na%20me.txt" = "na me.txt" /\
  parseContentDisposition "attachment; filename*=utf-8'en'broken%2" = "".
Proof.
  split.
  - apply (extended_file_name "attachment; " "*" "UTF-8" "" "na%20me.txt" ""); reflexivity.
  - apply (extended_file_name "attachment; " "*" "utf-8" "en" "broken%2" ""); reflexivity.
Defined.

Lemma no_file_name_witness : parseContentDisposition "inline" = "".
Proof. apply no_file_name. reflexivity. Defined.

(** ** The name of the file *)



(** ** The lines [readLines] reads *)

Lemma rev_app_append (a b : string) : String.rev_app a b = String.rev_app a "" +:+ b.
Proof.
  revert b. induction a as [|c a IH]; intros b; [reflexivity|].
  cbn [String.rev_app]. rewrite (IH (String c b)), (IH (String c "")).
  rewrite app_assoc_string. reflexivity.
Qed.

Lemma rev_cons (c : ascii) (a : string) :
  String.rev (String c a) = String.rev a +:+ String c "".
Proof. unfold String.rev. cbn [String.rev_app]. apply rev_app_append. Qed.

Lemma splitFrom_nonempty (sep s : string) :
  exists p ps, splitFrom sep 0 s = p :: ps.
Proof.
  induction s as [|c s IH]; [eexists _, _; reflexivity|].
  cbn [splitFrom]. destruct (HasPrefix _ _); [eexists _, _; reflexivity|].
  destruct IH as (p & ps & ->). eexists _, _; reflexivity.
Qed.

Lemma code_newline (c : ascii) :
  (code c =? 10)%N = Ascii.eqb c (Ascii.ascii_of_nat 10).
Proof.
  destruct (Ascii.eqb_spec c (Ascii.ascii_of_nat 10)) as [->|Hne]; [reflexivity|].
  apply N.eqb_neq. intros Heq. apply Hne. unfold code in Heq.
  rewrite <- (Ascii.ascii_N_embedding c), Heq. reflexivity.
Qed.

Lemma MaxScanTokenSize_pos : (0 < MaxScanTokenSize)%nat.
Proof. unfold MaxScanTokenSize. apply Nat.mul_pos_pos; lia. Qed.

Lemma splitFrom_newline (c : ascii) (text : string) :
  splitFrom newline 0 (String c text)
  = if Ascii.eqb c (Ascii.ascii_of_nat 10) then "" :: splitFrom newline 0 text
    else match splitFrom newline 0 text with
         | p :: ps => String c p :: ps
         | [] => [String c ""]
         end.
Proof.
  unfold newline. cbn [splitFrom HasPrefix String.length Nat.sub].
  rewrite andb_true_r. reflexivity.
Qed.

(** The scanner's lines are the pieces between the newlines, the current
    line put before the first, as long as the buffer has room for each. *)
Lemma scanLines_pieces (text : string) :
  forall acc p ps,
  splitFrom newline 0 text = p :: ps ->
  (String.length acc + String.length p < MaxScanTokenSize)%nat ->
  forallb scannable ps = true ->
  exists lines,
    scanLines text acc (String.length acc) = (lines, None) /\
    omap keepLine lines = omap keptLine ((String.rev acc +:+ p) :: ps).
Proof.
  induction text as [|c text IH]; intros acc p ps Hsplit Hp Hps.
  - cbn [splitFrom] in Hsplit. inversion Hsplit; subst p ps. cbn [scanLines].
    rewrite append_nil_r. destruct acc as [|a acc].
    + exists []. split; reflexivity.
    + eexists. split; [reflexivity|]. reflexivity.
  - rewrite splitFrom_newline in Hsplit. cbn [scanLines]. rewrite code_newline.
    destruct (splitFrom_nonempty newline text) as (p1 & ps1 & Hs1).
    rewrite Hs1 in Hsplit.
    destruct (Ascii.eqb c (Ascii.ascii_of_nat 10)).
    + inversion Hsplit; subst p ps.
      cbn [forallb] in Hps. apply andb_true_iff in Hps. destruct Hps as [Hp1 Hps1].
      destruct (IH "" p1 ps1 Hs1) as (lines & Hscan & Hlines).
      { unfold scannable in Hp1. apply Nat.ltb_lt in Hp1. exact Hp1. }
      { exact Hps1. }
      cbn [String.length] in Hscan. rewrite Hscan.
      eexists. split; [reflexivity|].
      rewrite append_nil_r.
      change (omap keepLine (dropCR (String.rev acc) :: lines))
        with (match keptLine (String.rev acc) with
              | Some y => y :: omap keepLine lines
              | None => omap keepLine lines
              end).
      rewrite Hlines. reflexivity.
    + inversion Hsplit; subst p ps.
      cbn [String.length] in Hp.
      destruct (Nat.leb_spec MaxScanTokenSize (S (String.length acc))) as [Hle|_]; [lia|].
      destruct (IH (String c acc) p1 ps1 Hs1) as (lines & Hscan & Hlines).
      { cbn [String.length]. lia. }
      { exact Hps. }
      cbn [String.length] in Hscan. exists lines. split; [exact Hscan|].
      rewrite Hlines, rev_cons, app_assoc_string. reflexivity.
Qed.

(** A piece the buffer has no room for ends the scan with an error. *)
Lemma scanLines_too_long (text : string) :
  forall acc p ps,
  splitFrom newline 0 text = p :: ps ->
  (String.length acc < MaxScanTokenSize)%nat ->
  (MaxScanTokenSize <= String.length acc + String.length p)%nat
  \/ forallb scannable ps = false ->
  (scanLines text acc (String.length acc)).2
  = Some (OtherError "bufio.Scanner: token too long").
Proof.
  induction text as [|c text IH]; intros acc p ps Hsplit Hacc Hlong.
  - cbn [splitFrom] in Hsplit. inversion Hsplit; subst p ps.
    destruct Hlong as [Hlong|Hlong]; [|discriminate].
    cbn [String.length] in Hlong. lia.
  - rewrite splitFrom_newline in Hsplit. cbn [scanLines]. rewrite code_newline.
    destruct (splitFrom_nonempty newline text) as (p1 & ps1 & Hs1).
    rewrite Hs1 in Hsplit.
    destruct (Ascii.eqb c (Ascii.ascii_of_nat 10)).
    + inversion Hsplit; subst p ps.
      assert (Hrec : (scanLines text "" 0).2
                     = Some (OtherError "bufio.Scanner: token too long")).
      { apply (IH "" p1 ps1 Hs1); [exact MaxScanTokenSize_pos|].
        destruct Hlong as [Hlong|Hlong]; [cbn [String.length] in Hlong; lia|].
        cbn [forallb] in Hlong. apply andb_false_iff in Hlong.
        destruct Hlong as [Hp1|Hps1]; [left|right; exact Hps1].
        unfold scannable in Hp1. apply Nat.ltb_ge in Hp1. cbn [String.length]. lia. }
      destruct (scanLines text "" 0) as [lines err]. exact Hrec.
    + inversion Hsplit; subst p ps.
      destruct (Nat.leb_spec MaxScanTokenSize (S (String.length acc))) as [_|Hlt];
        [reflexivity|].
      apply (IH (String c acc) p1 ps1 Hs1); [cbn [String.length]; lia|].
      destruct Hlong as [Hlong|Hlong]; [left|right; exact Hlong].
      cbn [String.length] in *. lia.
Qed.

(** X18: what [readLines] reads.  As long as every piece of the text
    between two newlines is shorter than the scanner's 64 KiB, the lines
    are those pieces, in order, each without one trailing carriage return
    and trimmed, the empty ones and those that begin with "#" left out, and
    the error is the reader's.  A piece of 64 KiB or more ends the reading
    with the scanner's "token too long". *)
Theorem readLines_pieces (text : string) (rerr : option error) :
  (forallb scannable (Split text newline) = true ->
   readLines text rerr = (omap keptLine (Split text newline), rerr)) /\
  (forallb scannable (Split text newline) = false ->
   (readLines text rerr).2 = Some (OtherError "bufio.Scanner: token too long")).
Proof.
  unfold Split, readLines.
  destruct (splitFrom_nonempty newline text) as (p & ps & Hs). rewrite Hs. split.
  - intros Hall. cbn [forallb] in Hall. apply andb_true_iff in Hall.
    destruct Hall as [Hp Hps]. unfold scannable in Hp. apply Nat.ltb_lt in Hp.
    destruct (scanLines_pieces text "" p ps Hs Hp Hps) as (lines & Hscan & Hlines).
    cbn [String.length] in Hscan. rewrite Hscan, Hlines. reflexivity.
  - intros Hsome. cbn [forallb] in Hsome. apply andb_false_iff in Hsome.
    pose proof (scanLines_too_long text "" p ps Hs) as Hlong.
    cbn [String.length] in Hlong.
    destruct (scanLines text "" 0) as [lines err]. cbn [snd] in *.
    rewrite Hlong; [reflexivity|exact MaxScanTokenSize_pos|].
    destruct Hsome as [Hp|Hps]; [left|right; exact Hps].
    unfold scannable in Hp. apply Nat.ltb_ge in Hp. lia.
Qed.

(** ** The headers of a request *)

Lemma applyHeaders_other (canonical : string -> string) (order : list (string * string)) :
  forall header key,
  (forall k v, (k, v) ∈ order -> k <> hCookie -> canonical k <> key) ->
  applyHeaders canonical order header !! key = header !! key.
Proof.
  unfold applyHeaders.
  induction order as [|[k v] order IH]; intros header key Hkey; [reflexivity|].
  cbn [foldl fst snd]. rewrite IH.
  - destruct (String.eqb_spec k hCookie) as [_|Hne]; [reflexivity|].
    apply lookup_insert_ne. apply (Hkey k v); [left|exact Hne].
  - intros k' v' Hin. apply (Hkey k' v'). right. exact Hin.
Qed.

Lemma applyHeaders_set (canonical : string -> string) (order : list (string * string)) :
  forall header k v,
  NoDup order.*1 ->
  (k, v) ∈ order -> k <> hCookie ->
  (forall k' v', (k', v') ∈ order -> k' <> hCookie -> canonical k' = canonical k -> k' = k) ->
  applyHeaders canonical order header !! canonical k = Some [v].
Proof.
  induction order as [|[k0 v0] order IH]; intros header k v Hnd Hin Hk Hone.
  - inversion Hin.
  - cbn [fmap list_fmap fst] in Hnd. apply NoDup_cons in Hnd. destruct Hnd as [Hfresh Hnd].
    apply elem_of_cons in Hin. destruct Hin as [Heq|Hin].
    + inversion Heq; subst k0 v0. unfold applyHeaders. cbn [foldl fst snd].
      fold (applyHeaders canonical order).
      destruct (String.eqb_spec k hCookie) as [|_]; [contradiction|].
      change (foldl _ ?h order) with (applyHeaders canonical order h).
      rewrite applyHeaders_other; [apply lookup_insert_eq|].
      intros k' v' Hin' Hc Hsame. apply Hfresh.
      rewrite (Hone k' v') in Hin'; [|right; exact Hin'|exact Hc|exact Hsame].
      apply list_elem_of_fmap. exists (k, v'). split; [reflexivity|exact Hin'].
    + unfold applyHeaders. cbn [foldl]. apply IH; [exact Hnd|exact Hin|exact Hk|].
      intros k' v' Hin'. apply (Hone k' v'). right. exact Hin'.
Qed.

(** X19: [applyHeaders] sets on the request every header of the header
    map but "Cookie", whatever the order in which the map is visited: a
    header whose canonical key no other entry shares is set to its value
    alone, and a key that is the canonical key of no entry other than
    "Cookie" is left as it was.  So the Cookie entry reaches the request
    only through the jar. *)
Theorem applyHeaders_all_but_cookie (canonical : string -> string)
    (headerMap : gmap string string) (order : list (string * string))
    (header : gmap string (list string)) :
  order ≡ₚ map_to_list headerMap ->
  (forall k v,
     headerMap !! k = Some v -> k <> hCookie ->
     (forall k', is_Some (headerMap !! k') -> k' <> hCookie ->
                 canonical k' = canonical k -> k' = k) ->
     applyHeaders canonical order header !! canonical k = Some [v]) /\
  (forall key,
     (forall k, is_Some (headerMap !! k) -> k <> hCookie -> canonical k <> key) ->
     applyHeaders canonical order header !! key = header !! key).
Proof.
  intros Hperm.
  assert (Hin : forall k v, (k, v) ∈ order <-> headerMap !! k = Some v).
  { intros k v. rewrite Hperm. apply elem_of_map_to_list. }
  split.
  - intros k v Hk Hc Hone. apply applyHeaders_set.
    + rewrite Hperm. apply NoDup_fst_map_to_list.
    + apply Hin. exact Hk.
    + exact Hc.
    + intros k' v' Hin'. apply (Hone k'). exists v'. apply Hin. exact Hin'.
  - intros key Hkey. apply applyHeaders_other.
    intros k v Hin'. apply (Hkey k). exists v. apply Hin. exact Hin'.
Qed.

(** A User-Agent and a Cookie: the first is set, the second is not. *)
Lemma applyHeaders_all_but_cookie_witness :
  let headerMap : gmap string string := {["User-Agent" := "curl"; "Cookie" := "sid=abc"]} in
  applyHeaders id (map_to_list headerMap) ∅ !! "User-Agent" = Some ["curl"] /\
  applyHeaders id (map_to_list headerMap) ∅ !! "Cookie" = None.
Proof.
  intros headerMap.
  destruct (applyHeaders_all_but_cookie id headerMap (map_to_list headerMap) ∅
              (reflexivity _)) as [Hset Hkeep].
  split.
  - apply (Hset "User-Agent" "curl"); [reflexivity|discriminate|].
    intros k' _ _ Heq. exact Heq.
  - rewrite Hkeep; [reflexivity|]. intros k _ Hc Heq. apply Hc. exact Heq.
Defined.

(** * The prototype's parts *)

Lemma planParts_lookup (contentLength : Z) (totalParts : nat) (parts : list Proto.Part)
    (i : nat) (p : Proto.Part) :
  0 <= contentLength < 2 ^ 63 ->
  Proto.planParts contentLength totalParts = Some parts ->
  parts !! i = Some p ->
  let size := contentLength / Z.of_nat totalParts in
  (i < totalParts)%nat /\
  Proto.Start p = Z.of_nat i * size /\ Proto.Stop p = Z.of_nat i * size + size - 1.
Proof.
  intros HL Hplan Hp size. unfold Proto.planParts in Hplan.
  destruct (Nat.eqb_spec totalParts 0) as [|Hn]; [discriminate|].
  injection Hplan as <-.
  rewrite list_lookup_fmap in Hp.
  destruct (seq 0 totalParts !! i) as [k|] eqn:Hk; [|discriminate].
  apply lookup_seq in Hk. destruct Hk as [-> Hi]. cbn [Nat.add] in Hp.
  injection Hp as <-. cbn [Proto.Start Proto.Stop].
  assert (Hq : Z.quot contentLength (Z.of_nat totalParts) = size)
    by (apply Z.quot_div_nonneg; lia).
  rewrite Hq.
  assert (Hs : 0 <= size) by (apply Z.div_pos; lia).
  assert (Hfull : Z.of_nat totalParts * size <= contentLength)
    by (apply Z.mul_div_le; lia).
  assert (Hle : Z.of_nat i * size + size <= contentLength) by nia.
  unfold Int.mul64, Int.sub64, Int.add64.
  rewrite !(wrap64_id size) by (unfold Int.in_int64; nia).
  rewrite !(wrap64_id (Z.of_nat i * size)) by (unfold Int.in_int64; nia).
  rewrite (wrap64_id (Z.of_nat i * size + size)) by (unfold Int.in_int64; nia).
  rewrite wrap64_id by (unfold Int.in_int64; nia).
  split; [exact Hi|]. split; reflexivity.
Qed.

(** X22 (the prototype's main).  The parts the prototype plans for a
    resource of [contentLength] bytes tile the first
    [contentLength - contentLength mod totalParts] bytes: each of these
    bytes is in the range of exactly one part, and no other byte is asked
    for -- what the division leaves over at the end of the resource is in
    no part's range. *)
Theorem prototype_parts_tile (contentLength : Z) (totalParts : nat) :
  0 <= contentLength < 2 ^ 63 ->
  (0 < totalParts)%nat ->
  exists parts,
    Proto.planParts contentLength totalParts = Some parts /\
    length parts = totalParts /\
    forall b, 0 <= b ->
      ((exists i p, parts !! i = Some p /\ Proto.asksFor p b)
       <-> b < contentLength - contentLength mod Z.of_nat totalParts) /\
      (forall i j p q,
         parts !! i = Some p -> parts !! j = Some q ->
         Proto.asksFor p b -> Proto.asksFor q b -> i = j).
Proof.
  intros HL Hn.
  destruct (Proto.planParts contentLength totalParts) as [parts|] eqn:Hplan.
  2:{ unfold Proto.planParts in Hplan.
      destruct (Nat.eqb_spec totalParts 0); [lia|discriminate]. }
  exists parts. split; [reflexivity|].
  assert (Hlen : length parts = totalParts).
  { unfold Proto.planParts in Hplan.
    destruct (Nat.eqb_spec totalParts 0); [discriminate|].
    injection Hplan as <-. rewrite length_map, length_seq. reflexivity. }
  split; [exact Hlen|].
  set (size := contentLength / Z.of_nat totalParts).
  assert (Hs : 0 <= size) by (apply Z.div_pos; lia).
  assert (Hmod : contentLength - contentLength mod Z.of_nat totalParts
                 = Z.of_nat totalParts * size).
  { pose proof (Z.div_mod contentLength (Z.of_nat totalParts) ltac:(lia)). subst size. lia. }
  intros b Hb. split; [split|].
  - intros (i & p & Hp & Hask).
    destruct (planParts_lookup _ _ _ _ _ HL Hplan Hp) as (Hi & Hstart & Hstop).
    unfold Proto.asksFor in Hask. fold size in Hstart, Hstop. rewrite Hmod. nia.
  - intros Hlt. rewrite Hmod in Hlt.
    assert (Hpos : 0 < size) by nia.
    assert (Hi : (Z.to_nat (b / size) < totalParts)%nat).
    { assert (b / size < Z.of_nat totalParts)
        by (apply Z.div_lt_upper_bound; lia).
      pose proof (Z.div_pos b size Hb Hpos). lia. }
    destruct (parts !! Z.to_nat (b / size)) as [p|] eqn:Hp.
    2:{ apply lookup_ge_None in Hp. lia. }
    exists (Z.to_nat (b / size)), p. split; [exact Hp|].
    destruct (planParts_lookup _ _ _ _ _ HL Hplan Hp) as (_ & Hstart & Hstop).
    fold size in Hstart, Hstop. unfold Proto.asksFor.
    pose proof (Z.div_pos b size Hb Hpos).
    pose proof (Z.div_mod b size ltac:(lia)).
    pose proof (Z.mod_pos_bound b size Hpos).
    rewrite Hstart, Hstop, Z2Nat.id by lia. nia.
  - intros i j p q Hp Hq Hpa Hqa.
    destruct (planParts_lookup _ _ _ _ _ HL Hplan Hp) as (_ & Hps & Hpe).
    destruct (planParts_lookup _ _ _ _ _ HL Hplan Hq) as (_ & Hqs & Hqe).
    fold size in Hps, Hpe, Hqs, Hqe. unfold Proto.asksFor in Hpa, Hqa.
    rewrite Hps, Hpe in Hpa. rewrite Hqs, Hqe in Hqa.
    assert (Z.of_nat i = Z.of_nat j) by nia. lia.
Qed.

Lemma prototype_parts_tile_witness :
  exists parts,
    Proto.planParts 11 2 = Some parts /\
    length parts = 2%nat /\
    forall b, 0 <= b ->
      ((exists i p, parts !! i = Some p /\ Proto.asksFor p b)
       <-> b < 11 - 11 mod Z.of_nat 2) /\
      (forall i j p q,
         parts !! i = Some p -> parts !! j = Some q ->
         Proto.asksFor p b -> Proto.asksFor q b -> i = j).
Proof. apply (prototype_parts_tile 11 2); lia. Defined.
